(** * Trainer: the training / validation control core of the font generator

    A shallow embedding of [src/trainer.py] (class [Trainer]) and the
    properties of its epoch loop, best-model policy, loss bookkeeping and
    checkpoint / resume logic.

    Python floats are IEEE 754 binary64 values and the scalar loss tensor is a
    binary32 value; both are [spec_float] with the operations of
    [SpecFloat] at the matching precision.  The process state is threaded
    explicitly: the attributes of the [Trainer] object, and a [World] with the
    tensor storage shared between the generator and its state dicts, the
    MetricSink (wandb), the file system and the sequence of observable events.
    An exception leaves the state as it was when it was raised. *)

From Stdlib Require Import ZArith List Bool Lia.
From Stdlib Require Import Floats.SpecFloat.
From stdpp Require Import base option list gmap strings.

Local Open Scope Z_scope.
Local Open Scope nat_scope.

(** ** Python floats *)

Module PyFloat.

Definition float := spec_float.

(** binary64: Python's [float]. *)
Definition prec := 53%Z.
Definition emax := 1024%Z.

(** binary32: [torch.float32]. *)
Definition prec32 := 24%Z.
Definition emax32 := 128%Z.

Definition add : float -> float -> float := SFadd prec emax.
Definition div : float -> float -> float := SFdiv prec emax.
Definition leb : float -> float -> bool := SFleb.
Definition eqb : float -> float -> bool := SFeqb.

(** [float(n)] for a Python int [n]. *)
Definition of_Z (z : Z) : float := binary_normalize prec emax z 0 false.
Definition of_nat (n : nat) : float := of_Z (Z.of_nat n).

(** The decimal literal [n/d] as the nearest binary64, for examples. *)
Definition ratio (n d : Z) : float := div (of_Z n) (of_Z d).

Definition is_nan (x : float) : bool :=
  match x with S754_nan => true | _ => false end.

(** Multiplication of [torch.float32] scalars. *)
Definition mul32 : float -> float -> float := SFmul prec32 emax32.

(** A Python number used as an operand of a [float32] tensor operation is
    rounded to binary32. *)
Definition to_float32 (x : float) : float :=
  match x with
  | S754_finite s m e => binary_round prec32 emax32 s m e
  | _ => x
  end.

(** [Tensor.item()]: the binary32 value as a Python float (exact). *)
Definition item (x : float) : float :=
  match x with
  | S754_finite s m e => binary_round prec emax s m e
  | _ => x
  end.

End PyFloat.

Import PyFloat.

(** ** Exceptions and outcomes *)

Inductive exn : Type :=
| ZeroDivisionError
| KeyError (key : string)
| FileNotFoundError (path : string)
| WandbError.

Inductive outcome (A : Type) : Type :=
| Returned (a : A)
| Raised (e : exn).

Arguments Returned {A} a.
Arguments Raised {A} e.

(** ** External collaborators

    The generator network, the loss function, the optimizer arithmetic and the
    grid renderer are used through their interfaces only. *)

Class Torch : Type := {
  tensor : Type;
  image : Type;
  (** the values of the generator's parameters and buffers *)
  params : Type;
  grads : Type;
  (** Adam's step count and moment estimates *)
  adam : Type;
  (** [x.to(device).type(torch.float32)] *)
  to_device_float32 : tensor -> tensor;
  (** [generator(content_letters, style_labels)], in training or evaluation
      mode, on the current parameter values *)
  forward : bool -> params -> tensor -> tensor -> tensor;
  (** [F.mse_loss(input, target)]: a 0-dim float32 tensor *)
  mse_loss : tensor -> tensor -> float;
  (** gradients set by [zero_grad()] *)
  zero_grads : grads;
  (** [loss.backward()] for the loss of penalty [c] computed in training mode
      on parameters [p] and the batch [(content, labels, target)]: adds to the
      accumulated gradients *)
  backward : float -> params -> tensor -> tensor -> tensor -> grads -> grads;
  (** [Adam(parameters, lr, betas=(0.5, 0.999))] *)
  adam_init : float -> adam;
  (** one [Adam.step()] on the accumulated gradients *)
  adam_step : adam -> grads -> params -> adam * params;
  (** [transforms.ToPILImage()(make_grid(pred.detach().cpu(), nrow=5,
      normalize=True))] *)
  to_grid_image : tensor -> image
}.

Section Trainer.

Context `{Torch}.

(** ** Data model *)

(** A batch as the loader yields it. *)
Record batch : Type := Batch {
  content_letters : tensor;
  style_letters : tensor;
  style_labels : tensor
}.

(** A [FontDataLoader]: [len(loader)], and the stateful [loader.get()] /
    [loader.get(batch_size=n)], the batch of the [k]-th call being
    [ld_get k None] / [ld_get k (Some n)]. *)
Record loader : Type := Loader {
  ld_len : nat;
  ld_get : nat -> option nat -> batch;
  ld_calls : nat
}.

(** The generator module: the address of its parameter storage, its mode
    and the gradients accumulated on its parameters. *)
Record module : Type := Module {
  storage : nat;
  training : bool;
  grad : grads
}.

(** [generator.state_dict()] is a new dict whose tensors share the storage
    of the module's parameters. *)
Record state_dict : Type := StateDict {
  sd_id : nat;
  sd_storage : nat
}.

(** The attributes of a [Trainer].  [mse_penalty] is a Python number, given
    by its float value ([5] is [5.0]); [device] and [mse_criterion] are fixed
    and are not attributes here. *)
Record Trainer : Type := MkTrainer {
  generator : module;
  gen_optim : adam;
  trainloader : loader;
  validloader : loader;
  mse_penalty : float;
  best_loss : float;
  best_params : option state_dict;
  test_content_letters : tensor;
  test_style_letters : tensor;
  test_style_labels : tensor;
  train_loss : list float;
  valid_loss : list float;
  test_images : list image;
  could_wandb : bool
}.

(** The dict that [run] pickles, by value: state dicts are stored with the
    parameter values they hold at the time of the dump.  A record read back
    from a file may lack any of the nine keys. *)
Record trainer_data : Type := TrainerData {
  td_generator_params : option params;
  td_best_loss : option float;
  td_best_params : option (option params);
  td_test_content_letters : option tensor;
  td_test_style_letters : option tensor;
  td_test_style_labels : option tensor;
  td_test_images : option (list image);
  td_train_loss : option (list float);
  td_valid_loss : option (list float)
}.

(** The required keys, in the order [load_trainer] reads them. *)
Definition required_fields : list string :=
  [ "generator_params"; "best_loss"; "best_params"; "test_content_letters";
    "test_style_letters"; "test_style_labels"; "test_images"; "train_loss";
    "valid_loss" ]%string.

(** [key in trainer_data] *)
Definition present {A : Type} (field : option A) : bool :=
  match field with Some _ => true | None => false end.

Definition has_key (d : trainer_data) (key : string) : bool :=
  if String.eqb key "generator_params" then present (td_generator_params d)
  else if String.eqb key "best_loss" then present (td_best_loss d)
  else if String.eqb key "best_params" then present (td_best_params d)
  else if String.eqb key "test_content_letters"
  then present (td_test_content_letters d)
  else if String.eqb key "test_style_letters"
  then present (td_test_style_letters d)
  else if String.eqb key "test_style_labels"
  then present (td_test_style_labels d)
  else if String.eqb key "test_images" then present (td_test_images d)
  else if String.eqb key "train_loss" then present (td_train_loss d)
  else if String.eqb key "valid_loss" then present (td_valid_loss d)
  else false.

(** What is written on standard output. *)
Inductive line : Type :=
| Banner (epoch_plus_1 : Z) (last : Z)
| Label (s : string)
| TrainLossLine (x : float)
| ValidLossLine (x : float).

(** What is sent to the MetricSink. *)
Inductive metric : Type :=
| LogScalar (key : string) (x : float)
| LogImage (key : string) (img : image)
| ConfigUpdate (key : string) (x : float).

(** Observable events, in the order they happen.  The two calls of
    [self.generator.state_dict()] are told apart by their place in the
    source: [TakeStateDict] is the call of [valid], whose dict becomes
    [best_params]; [CheckpointStateDict] is the call of [run], whose dict is
    the [generator_params] of the checkpoint.  Both carry the identity of the
    dict the call returns. *)
Inductive event : Type :=
| Print (l : line)
| TrainGet
| ValidGet
| Forward (training_mode : bool)
| ZeroGrad
| Backward
| OptimStep
| TakeStateDict (id : nat)
| CheckpointStateDict (id : nat)
| LoadStateDict
| MakeGrid
| Wandb (m : metric)
| PickleDump (path : string)
| PickleLoad (path : string).

(** The rest of the process and its environment. *)
Record World : Type := MkWorld {
  (** tensor storage: address to parameter values *)
  heap : nat -> params;
  next_addr : nat;
  next_id : nat;
  (** whether the [k]-th call to wandb raises *)
  wandb_raises : nat -> bool;
  wandb_calls : nat;
  (** files holding a pickled [trainer_data], by path *)
  fs : gmap string trainer_data;
  trace : list event
}.

Record Mem : Type := MkMem {
  self : Trainer;
  world : World
}.

(** ** Attribute assignment *)

Definition set_generator (g : module) (t : Trainer) : Trainer :=
  MkTrainer g (gen_optim t) (trainloader t) (validloader t) (mse_penalty t)
    (best_loss t) (best_params t) (test_content_letters t)
    (test_style_letters t) (test_style_labels t) (train_loss t)
    (valid_loss t) (test_images t) (could_wandb t).

Definition set_gen_optim (o : adam) (t : Trainer) : Trainer :=
  MkTrainer (generator t) o (trainloader t) (validloader t) (mse_penalty t)
    (best_loss t) (best_params t) (test_content_letters t)
    (test_style_letters t) (test_style_labels t) (train_loss t)
    (valid_loss t) (test_images t) (could_wandb t).

Definition set_trainloader (l : loader) (t : Trainer) : Trainer :=
  MkTrainer (generator t) (gen_optim t) l (validloader t) (mse_penalty t)
    (best_loss t) (best_params t) (test_content_letters t)
    (test_style_letters t) (test_style_labels t) (train_loss t)
    (valid_loss t) (test_images t) (could_wandb t).

Definition set_validloader (l : loader) (t : Trainer) : Trainer :=
  MkTrainer (generator t) (gen_optim t) (trainloader t) l (mse_penalty t)
    (best_loss t) (best_params t) (test_content_letters t)
    (test_style_letters t) (test_style_labels t) (train_loss t)
    (valid_loss t) (test_images t) (could_wandb t).

Definition set_best_loss (x : float) (t : Trainer) : Trainer :=
  MkTrainer (generator t) (gen_optim t) (trainloader t) (validloader t)
    (mse_penalty t) x (best_params t) (test_content_letters t)
    (test_style_letters t) (test_style_labels t) (train_loss t)
    (valid_loss t) (test_images t) (could_wandb t).

Definition set_best_params (p : option state_dict) (t : Trainer) : Trainer :=
  MkTrainer (generator t) (gen_optim t) (trainloader t) (validloader t)
    (mse_penalty t) (best_loss t) p (test_content_letters t)
    (test_style_letters t) (test_style_labels t) (train_loss t)
    (valid_loss t) (test_images t) (could_wandb t).

Definition set_test_content_letters (x : tensor) (t : Trainer) : Trainer :=
  MkTrainer (generator t) (gen_optim t) (trainloader t) (validloader t)
    (mse_penalty t) (best_loss t) (best_params t) x
    (test_style_letters t) (test_style_labels t) (train_loss t)
    (valid_loss t) (test_images t) (could_wandb t).

Definition set_test_style_letters (x : tensor) (t : Trainer) : Trainer :=
  MkTrainer (generator t) (gen_optim t) (trainloader t) (validloader t)
    (mse_penalty t) (best_loss t) (best_params t) (test_content_letters t)
    x (test_style_labels t) (train_loss t)
    (valid_loss t) (test_images t) (could_wandb t).

Definition set_test_style_labels (x : tensor) (t : Trainer) : Trainer :=
  MkTrainer (generator t) (gen_optim t) (trainloader t) (validloader t)
    (mse_penalty t) (best_loss t) (best_params t) (test_content_letters t)
    (test_style_letters t) x (train_loss t)
    (valid_loss t) (test_images t) (could_wandb t).

Definition set_train_loss (l : list float) (t : Trainer) : Trainer :=
  MkTrainer (generator t) (gen_optim t) (trainloader t) (validloader t)
    (mse_penalty t) (best_loss t) (best_params t) (test_content_letters t)
    (test_style_letters t) (test_style_labels t) l
    (valid_loss t) (test_images t) (could_wandb t).

Definition set_valid_loss (l : list float) (t : Trainer) : Trainer :=
  MkTrainer (generator t) (gen_optim t) (trainloader t) (validloader t)
    (mse_penalty t) (best_loss t) (best_params t) (test_content_letters t)
    (test_style_letters t) (test_style_labels t) (train_loss t)
    l (test_images t) (could_wandb t).

Definition set_test_images (l : list image) (t : Trainer) : Trainer :=
  MkTrainer (generator t) (gen_optim t) (trainloader t) (validloader t)
    (mse_penalty t) (best_loss t) (best_params t) (test_content_letters t)
    (test_style_letters t) (test_style_labels t) (train_loss t)
    (valid_loss t) l (could_wandb t).

Definition set_heap (h : nat -> params) (w : World) : World :=
  MkWorld h (next_addr w) (next_id w) (wandb_raises w) (wandb_calls w)
    (fs w) (trace w).

Definition set_next_addr (n : nat) (w : World) : World :=
  MkWorld (heap w) n (next_id w) (wandb_raises w) (wandb_calls w)
    (fs w) (trace w).

Definition set_next_id (n : nat) (w : World) : World :=
  MkWorld (heap w) (next_addr w) n (wandb_raises w) (wandb_calls w)
    (fs w) (trace w).

Definition set_wandb_calls (n : nat) (w : World) : World :=
  MkWorld (heap w) (next_addr w) (next_id w) (wandb_raises w) n
    (fs w) (trace w).

Definition set_fs (f : gmap string trainer_data) (w : World) : World :=
  MkWorld (heap w) (next_addr w) (next_id w) (wandb_raises w) (wandb_calls w)
    f (trace w).

Definition set_trace (tr : list event) (w : World) : World :=
  MkWorld (heap w) (next_addr w) (next_id w) (wandb_raises w) (wandb_calls w)
    (fs w) tr.

(** In-place write to a tensor storage. *)
Definition store (a : nat) (p : params) (h : nat -> params) : nat -> params :=
  fun b => if Nat.eqb b a then p else h b.

(** ** The monad of methods: state and exceptions *)

Definition M (A : Type) : Type := Mem -> outcome A * Mem.

Definition ret {A : Type} (a : A) : M A := fun m => (Returned a, m).

Definition bind {A B : Type} (c : M A) (k : A -> M B) : M B :=
  fun m =>
    match c m with
    | (Returned a, m') => k a m'
    | (Raised e, m') => (Raised e, m')
    end.

Definition raise {A : Type} (e : exn) : M A := fun m => (Raised e, m).

#[global] Instance M_ret : MRet M := @ret.
#[global] Instance M_bind : MBind M := fun A B k c => bind c k.

Definition gets {A : Type} (f : Mem -> A) : M A := fun m => (Returned (f m), m).
Definition modify (f : Mem -> Mem) : M unit := fun m => (Returned tt, f m).

Definition get_self : M Trainer := gets self.
Definition get_world : M World := gets world.

Definition modify_self (f : Trainer -> Trainer) : M unit :=
  modify (fun m => MkMem (f (self m)) (world m)).

Definition modify_world (f : World -> World) : M unit :=
  modify (fun m => MkMem (self m) (f (world m))).

Definition emit (e : event) : M unit :=
  modify_world (fun w => set_trace (trace w ++ [e]) w).

(** [for _ in range(n)], threading the local variables [acc]. *)
Fixpoint for_range {A : Type} (n : nat) (body : A -> M A) (acc : A) : M A :=
  match n with
  | O => mret acc
  | S n' => acc' ← body acc; for_range n' body acc'
  end.

(** [for x in l] *)
Fixpoint for_each {A : Type} (l : list A) (body : A -> M unit) : M unit :=
  match l with
  | [] => mret tt
  | x :: l' => body x;; for_each l' body
  end.

(** [if c: body] *)
Definition when (c : bool) (body : M unit) : M unit :=
  if c then body else mret tt.

(** ** Calls into the collaborators *)

Definition print (l : line) : M unit := emit (Print l).

(** [wandb.log(...)] / [wandb.config.update(...)]: may raise. *)
Definition wandb (x : metric) : M unit :=
  raises ← gets (fun m => wandb_raises (world m) (wandb_calls (world m)));
  modify_world (fun w => set_wandb_calls (S (wandb_calls w)) w);;
  if raises : bool then raise WandbError else emit (Wandb x).

Definition next_call (l : loader) : loader :=
  Loader (ld_len l) (ld_get l) (S (ld_calls l)).

(** [self.trainloader.get()] *)
Definition trainloader_get : M batch :=
  b ← gets (fun m => let l := trainloader (self m) in ld_get l (ld_calls l) None);
  modify_self (fun t => set_trainloader (next_call (trainloader t)) t);;
  emit TrainGet;;
  mret b.

(** [self.validloader.get()] *)
Definition validloader_get : M batch :=
  b ← gets (fun m => let l := validloader (self m) in ld_get l (ld_calls l) None);
  modify_self (fun t => set_validloader (next_call (validloader t)) t);;
  emit ValidGet;;
  mret b.

(** [self.generator.train()] / [self.generator.eval()] *)
Definition set_mode (mode : bool) : M unit :=
  modify_self (fun t =>
    let g := generator t in
    set_generator (Module (storage g) mode (grad g)) t).

(** [self.generator(content, labels)] *)
Definition call_generator (content labels : tensor) : M tensor :=
  t ← get_self;
  w ← get_world;
  let g := generator t in
  emit (Forward (training g));;
  mret (forward (training g) (heap w (storage g)) content labels).

(** [self.gen_optim.zero_grad()] *)
Definition zero_grad : M unit :=
  modify_self (fun t =>
    let g := generator t in
    set_generator (Module (storage g) (training g) zero_grads) t);;
  emit ZeroGrad.

(** [loss.backward()], for the loss computed from [(content, labels, target)] *)
Definition loss_backward (content labels target : tensor) : M unit :=
  modify (fun m =>
    let t := self m in
    let g := generator t in
    let gr := backward (mse_penalty t) (heap (world m) (storage g)) content
                labels target (grad g) in
    MkMem (set_generator (Module (storage g) (training g) gr) t) (world m));;
  emit Backward.

(** [self.gen_optim.step()]: updates the parameters in place. *)
Definition optim_step : M unit :=
  modify (fun m =>
    let t := self m in
    let w := world m in
    let g := generator t in
    let r := adam_step (gen_optim t) (grad g) (heap w (storage g)) in
    MkMem (set_gen_optim (fst r) t)
      (set_heap (store (storage g) (snd r) (heap w)) w));;
  emit OptimStep.

(** [self.generator.state_dict()], as called by [valid] *)
Definition take_state_dict : M state_dict :=
  sd ← gets (fun m =>
          StateDict (next_id (world m)) (storage (generator (self m))));
  modify_world (fun w => set_next_id (S (next_id w)) w);;
  emit (TakeStateDict (sd_id sd));;
  mret sd.

(** [self.generator.state_dict()], as called by [run] when it builds the
    checkpoint dict: again a new dict on the storage of the module. *)
Definition checkpoint_state_dict : M state_dict :=
  sd ← gets (fun m =>
          StateDict (next_id (world m)) (storage (generator (self m))));
  modify_world (fun w => set_next_id (S (next_id w)) w);;
  emit (CheckpointStateDict (sd_id sd));;
  mret sd.

(** [x / n] for a Python int [n]: [ZeroDivisionError] when [n] is [0] *)
Definition truediv (x : float) (n : nat) : M float :=
  match n with
  | O => raise ZeroDivisionError
  | S _ => mret (div x (of_nat n))
  end.

(** ** [Trainer.__init__] *)

(** [1e5] *)
Definition initial_best_loss : float := of_Z 100000.

Definition init (generator : module) (trainloader validloader : loader)
    (mse_penalty lr : float) (could_wandb : bool) (w : World) : Mem :=
  let b := ld_get validloader (ld_calls validloader) (Some 25) in
  MkMem
    (MkTrainer generator (adam_init lr) trainloader (next_call validloader)
       mse_penalty initial_best_loss None
       (to_device_float32 (content_letters b))
       (to_device_float32 (style_letters b))
       (to_device_float32 (style_labels b))
       [] [] [] could_wandb)
    (set_trace (trace w ++ [ValidGet]) w).

(** ** [Trainer.get_pred_image] *)

Definition get_pred_image : M image :=
  set_mode false;;
  t ← get_self;
  pred ← call_generator (test_content_letters t) (test_style_labels t);
  emit MakeGrid;;
  mret (to_grid_image pred).

(** ** [Trainer.train] *)

(** The body of the loop over the training batches; [avg_loss] is the local
    accumulator.  It starts as the int [0], and [0 + x] is the float
    [0.0 + x]: the accumulator is a float throughout.  The inputs are
    converted to [float32], so the loss is a [float32] tensor, and
    [self.mse_penalty * loss] rounds the Python number to [float32] and
    multiplies in [float32]; [loss.item()] is that value as a Python float. *)
Definition train_batch (avg_loss : float) : M float :=
  b ← trainloader_get;
  let content_letters := to_device_float32 (content_letters b) in
  let style_letters := to_device_float32 (style_letters b) in
  let style_labels := to_device_float32 (style_labels b) in
  generated_image ← call_generator content_letters style_labels;
  let loss := mse_loss generated_image style_letters in
  t ← get_self;
  let loss := mul32 (to_float32 (mse_penalty t)) loss in
  let avg_loss := add avg_loss (item loss) in
  zero_grad;;
  loss_backward content_letters style_labels style_letters;;
  optim_step;;
  when (could_wandb t) (wandb (LogScalar "train_loss" (item loss)));;
  modify_self (fun t => set_train_loss (train_loss t ++ [item loss]) t);;
  mret avg_loss.

Definition train : M float :=
  set_mode true;;
  t ← get_self;
  avg_loss ← for_range (ld_len (trainloader t)) train_batch (S754_zero false);
  t ← get_self;
  avg_loss ← truediv avg_loss (ld_len (trainloader t));
  mret avg_loss.

(** ** [Trainer.valid] *)

Definition valid_batch (avg_loss : float) : M float :=
  b ← validloader_get;
  let content_letters := to_device_float32 (content_letters b) in
  let style_letters := to_device_float32 (style_letters b) in
  let style_labels := to_device_float32 (style_labels b) in
  generated_image ← call_generator content_letters style_labels;
  let loss := mse_loss generated_image style_letters in
  t ← get_self;
  let loss := mul32 (to_float32 (mse_penalty t)) loss in
  let avg_loss := add avg_loss (item loss) in
  when (could_wandb t) (wandb (LogScalar "valid_loss" (item loss)));;
  modify_self (fun t => set_valid_loss (valid_loss t ++ [item loss]) t);;
  mret avg_loss.

(** The best-model policy applied to the mean of the epoch. *)
Definition update_best (avg_loss : float) : M unit :=
  t ← get_self;
  if leb avg_loss (best_loss t) then
    modify_self (set_best_loss avg_loss);;
    sd ← take_state_dict;
    modify_self (set_best_params (Some sd))
  else mret tt.

Definition valid : M float :=
  set_mode false;;
  t ← get_self;
  avg_loss ← for_range (ld_len (validloader t)) valid_batch (S754_zero false);
  t ← get_self;
  avg_loss ← truediv avg_loss (ld_len (validloader t));
  update_best avg_loss;;
  mret avg_loss.

(** ** [Trainer.load_trainer] *)

(** [open(path, 'rb')] and [pickle.load] *)
Definition pickle_load (path : string) : M trainer_data :=
  w ← get_world;
  match fs w !! path with
  | None => raise (FileNotFoundError path)
  | Some d => emit (PickleLoad path);; mret d
  end.

(** [trainer_data[key]] *)
Definition getitem {A : Type} (field : option A) (key : string) : M A :=
  match field with
  | None => raise (KeyError key)
  | Some v => mret v
  end.

(** [self.generator.load_state_dict(sd)]: copies the values of [sd] into the
    module's own storage.  [params] is the type of the values of a state dict
    of the generator's architecture, the one architecture of the development:
    a [generator_params] of type [params] has the keys and the shapes the
    module expects, and the call does not raise on it.  A dict that does not
    fit the module makes the call raise [RuntimeError], before any attribute
    is assigned; it is not a value of [params], and what [load_trainer] does
    on such a file is not described here. *)
Definition load_state_dict (p : params) : M unit :=
  modify (fun m =>
    let w := world m in
    MkMem (self m)
      (set_heap (store (storage (generator (self m))) p (heap w)) w));;
  emit LoadStateDict.

(** The state dict object an unpickled [best_params] is: [None], or a dict
    with storage of its own. *)
Definition unpickled_state_dict (v : option params) : M (option state_dict) :=
  match v with
  | None => mret None
  | Some p =>
      sd ← gets (fun m => StateDict (next_id (world m)) (next_addr (world m)));
      modify_world (fun w =>
        set_heap (store (next_addr w) p (heap w))
          (set_next_addr (S (next_addr w)) (set_next_id (S (next_id w)) w)));;
      mret (Some sd)
  end.

Definition load_trainer (path : string) (wandb_log : bool) : M unit :=
  trainer_data ← pickle_load path;
  p ← getitem (td_generator_params trainer_data) "generator_params";
  load_state_dict p;;
  x ← getitem (td_best_loss trainer_data) "best_loss";
  modify_self (set_best_loss x);;
  v ← getitem (td_best_params trainer_data) "best_params";
  sd ← unpickled_state_dict v;
  modify_self (set_best_params sd);;
  x ← getitem (td_test_content_letters trainer_data) "test_content_letters";
  modify_self (set_test_content_letters x);;
  x ← getitem (td_test_style_letters trainer_data) "test_style_letters";
  modify_self (set_test_style_letters x);;
  x ← getitem (td_test_style_labels trainer_data) "test_style_labels";
  modify_self (set_test_style_labels x);;
  l ← getitem (td_test_images trainer_data) "test_images";
  modify_self (set_test_images l);;
  l ← getitem (td_train_loss trainer_data) "train_loss";
  modify_self (set_train_loss l);;
  l ← getitem (td_valid_loss trainer_data) "valid_loss";
  modify_self (set_valid_loss l);;
  t ← get_self;
  when (wandb_log && could_wandb t) (
    wandb (ConfigUpdate "best_loss" (best_loss t));;
    for_each (train_loss t) (fun loss => wandb (LogScalar "train_loss" loss));;
    for_each (valid_loss t) (fun loss => wandb (LogScalar "valid_loss" loss));;
    for_each (test_images t) (fun img => wandb (LogImage "pred_image" img))).

(** ** [Trainer.run] *)

(** The dict built at the end of an epoch, as pickled: the values held by
    the state dict [generator_params] just taken and by [best_params], and
    the other seven attributes. *)
Definition pickled (generator_params : state_dict) (t : Trainer) (w : World)
    : trainer_data :=
  TrainerData
    (Some (heap w (sd_storage generator_params)))
    (Some (best_loss t))
    (Some ((fun sd => heap w (sd_storage sd)) <$> best_params t))
    (Some (test_content_letters t))
    (Some (test_style_letters t))
    (Some (test_style_labels t))
    (Some (test_images t))
    (Some (train_loss t))
    (Some (valid_loss t)).

(** The checkpoint of a trainer: the dict above for a state dict of the
    trainer's own generator, which holds the generator's parameter values. *)
Definition snapshot (t : Trainer) (w : World) : trainer_data :=
  TrainerData
    (Some (heap w (storage (generator t))))
    (Some (best_loss t))
    (Some ((fun sd => heap w (sd_storage sd)) <$> best_params t))
    (Some (test_content_letters t))
    (Some (test_style_letters t))
    (Some (test_style_labels t))
    (Some (test_images t))
    (Some (train_loss t))
    (Some (valid_loss t)).

(** [open(path, "wb")] and [pickle.dump]: the file at [path] is replaced.
    The write itself is taken to succeed. *)
Definition pickle_dump (d : trainer_data) (path : string) : M unit :=
  modify_world (fun w => set_fs (<[path := d]> (fs w)) w);;
  emit (PickleDump path).

(** [range(lo, hi)] *)
Definition range (lo hi : Z) : list Z :=
  (fun i => (lo + Z.of_nat i)%Z) <$> seq 0 (Z.to_nat (hi - lo)).

(** The body of the loop over the epochs. *)
Definition run_epoch (epochs : Z * Z) (trainer_path : string) (epoch : Z)
    : M unit :=
  print (Banner (epoch + 1) (snd epochs));;
  print (Label "TRAIN");;
  train_loss ← train;
  print (TrainLossLine train_loss);;
  print (Label "VALID");;
  valid_loss ← valid;
  print (ValidLossLine valid_loss);;
  pred_image ← get_pred_image;
  t ← get_self;
  when (could_wandb t) (wandb (LogImage "pred_image" pred_image));;
  modify_self (fun t => set_test_images (test_images t ++ [pred_image]) t);;
  generator_params ← checkpoint_state_dict;
  t ← get_self;
  w ← get_world;
  let trainer_data := pickled generator_params t w in
  pickle_dump trainer_data trainer_path;;
  when (could_wandb t) (wandb (ConfigUpdate "best_loss" (best_loss t))).

Definition run (epochs : Z * Z) (trainer_path : string) : M unit :=
  for_each (range (fst epochs) (snd epochs)) (run_epoch epochs trainer_path).

End Trainer.

(** ** The script

    The code under [if __name__ == '__main__'] builds a trainer with the
    MetricSink disabled and runs the epochs [(0, 1)] with the checkpoint at
    [./trainer.pickle].  The generator, the datasets and the loaders are built
    by code outside this file: they are arguments here.  The options are
    parsed by [argparse]: [--learning_rate] is declared with [type=float],
    and [--epochs] is parsed and not used.  [--mse_penalty] is declared with
    the default [5] and no type, so a value given on the command line reaches
    the trainer as a [str], and [self.mse_penalty * loss] raises [TypeError]
    in the first training batch.  [main] is the script started without
    [--mse_penalty]: the penalty is the default [5]. *)

Section Script.

Context `{Torch}.

(** [parser.add_argument("--mse_penalty", default=5)] *)
Definition default_mse_penalty : float := of_Z 5.

Definition main (generator : module) (trainloader validloader : loader)
    (learning_rate : float) (w : World) : outcome unit * Mem :=
  let trainer :=
    init generator trainloader validloader default_mse_penalty learning_rate
      false w in
  run (0, 1)%Z "./trainer.pickle" trainer.

End Script.

(** * Vocabulary of the properties

    Predicates on states and traces, and the steps of the specification the
    loops are compared with. *)

Section Vocabulary.

Context `{Torch}.

(** Whatever its outcome, [c] relates the state it starts from to the state
    it ends in. *)
Definition preserves {A : Type} (R : relation Mem) (c : M A) : Prop :=
  forall m, R m (snd (c m)).

(** What no operation of a run changes, and what it only extends. *)
Record run_frame (m m' : Mem) : Prop := RunFrame {
  rf_could_wandb : could_wandb (self m') = could_wandb (self m);
  rf_mse_penalty : mse_penalty (self m') = mse_penalty (self m);
  rf_train_len : ld_len (trainloader (self m')) = ld_len (trainloader (self m));
  rf_train_get : ld_get (trainloader (self m')) = ld_get (trainloader (self m));
  rf_valid_len : ld_len (validloader (self m')) = ld_len (validloader (self m));
  rf_valid_get : ld_get (validloader (self m')) = ld_get (validloader (self m));
  rf_storage : storage (generator (self m')) = storage (generator (self m));
  rf_test_content :
    test_content_letters (self m') = test_content_letters (self m);
  rf_test_letters : test_style_letters (self m') = test_style_letters (self m);
  rf_test_labels : test_style_labels (self m') = test_style_labels (self m);
  rf_raises : wandb_raises (world m') = wandb_raises (world m);
  rf_calls : wandb_calls (world m) <= wandb_calls (world m');
  rf_next_id : next_id (world m) <= next_id (world m');
  rf_next_addr : next_addr (world m') = next_addr (world m);
  rf_train_loss : train_loss (self m) `prefix_of` train_loss (self m');
  rf_valid_loss : valid_loss (self m) `prefix_of` valid_loss (self m');
  rf_test_images : test_images (self m) `prefix_of` test_images (self m');
  rf_trace : trace (world m) `prefix_of` trace (world m')
}.

(** The MetricSink is disabled, or none of its calls from now on raises. *)
Definition sink_silent (m : Mem) : Prop :=
  could_wandb (self m) = true ->
  forall k, wandb_calls (world m) <= k -> wandb_raises (world m) k = false.

(** The next call to the MetricSink, if the sink is enabled, does not
    raise. *)
Definition sink_ok_now (m : Mem) : Prop :=
  could_wandb (self m) = true ->
  wandb_raises (world m) (wandb_calls (world m)) = false.

(** [penalty * mse(generator(content, labels), target)], as recorded. *)
Definition penalized_mse (penalty : float) (mode : bool) (p : params)
    (b : batch) : float :=
  item
    (mul32 (to_float32 penalty)
       (mse_loss
          (forward mode p (to_device_float32 (content_letters b))
             (to_device_float32 (style_labels b)))
          (to_device_float32 (style_letters b)))).

(** Zeroed gradients, one backpropagation, one optimizer step. *)
Definition train_update (penalty : float) (o : adam) (p : params) (b : batch)
    : adam * params :=
  adam_step o
    (backward penalty p (to_device_float32 (content_letters b))
       (to_device_float32 (style_labels b))
       (to_device_float32 (style_letters b)) zero_grads)
    p.

(** The losses of a training epoch over the batches [bs], from optimizer
    state [o] and parameters [p]. *)
Fixpoint train_losses (penalty : float) (o : adam) (p : params)
    (bs : list batch) : list float :=
  match bs with
  | [] => []
  | b :: bs' =>
      let r := train_update penalty o p b in
      penalized_mse penalty true p b :: train_losses penalty (fst r) (snd r) bs'
  end.

(** The optimizer state and parameters after the epoch. *)
Fixpoint train_result (penalty : float) (o : adam) (p : params)
    (bs : list batch) : adam * params :=
  match bs with
  | [] => (o, p)
  | b :: bs' =>
      let r := train_update penalty o p b in
      train_result penalty (fst r) (snd r) bs'
  end.

(** The next [n] batches of a loader. *)
Definition batches (l : loader) (n : nat) : list batch :=
  (fun k => ld_get l (ld_calls l + k) None) <$> seq 0 n.

(** The arithmetic mean of a list of floats, summed from the left. *)
Definition mean (l : list float) : float :=
  div (fold_left add l (S754_zero false)) (of_nat (length l)).

(** The events of one training batch with loss [x]. *)
Definition train_events (cw : bool) (x : float) : list event :=
  [TrainGet; Forward true; ZeroGrad; Backward; OptimStep] ++
  (if cw then [Wandb (LogScalar "train_loss" x)] else []).

(** The events of one validation batch. *)
Definition valid_events (cw : bool) (x : float) : list event :=
  [ValidGet; Forward false] ++
  (if cw then [Wandb (LogScalar "valid_loss" x)] else []).

(** The losses of a validation epoch: the parameters are fixed. *)
Definition valid_losses (penalty : float) (p : params) (bs : list batch)
    : list float :=
  penalized_mse penalty false p <$> bs.

(** The events the policy is read from: a state dict taken, a validation
    mean reported. *)
Definition policy_event (e : event) : bool :=
  match e with
  | TakeStateDict _ | Print (ValidLossLine _) => true
  | _ => false
  end.

(** The policy events of a trace, in order. *)
Definition policy_events (tr : list event) : list event :=
  List.filter policy_event tr.

(** What the steps outside the policy leave alone. *)
Record best_frame (m m' : Mem) : Prop := BestFrame {
  bf_best_loss : best_loss (self m') = best_loss (self m);
  bf_best_params : best_params (self m') = best_params (self m);
  bf_next_id : next_id (world m') = next_id (world m);
  bf_events :
    policy_events (trace (world m')) = policy_events (trace (world m))
}.

(** What the steps outside the policy leave alone when they may take state
    dicts of their own. *)
Record policy_frame (m m' : Mem) : Prop := PolicyFrame {
  pf_best_loss : best_loss (self m') = best_loss (self m);
  pf_best_params : best_params (self m') = best_params (self m);
  pf_events :
    policy_events (trace (world m')) = policy_events (trace (world m))
}.

(** The policy as a state change: when the mean [a] is at most [best_loss]
    it becomes [best_loss] and a state dict just taken from the generator
    becomes [best_params]; otherwise nothing changes. *)
Definition apply_policy (a : float) (m : Mem) : Mem :=
  if leb a (best_loss (self m)) then
    let sd := StateDict (next_id (world m)) (storage (generator (self m))) in
    MkMem
      (set_best_params (Some sd) (set_best_loss a (self m)))
      (set_trace (trace (world m) ++ [TakeStateDict (sd_id sd)])
         (set_next_id (S (next_id (world m))) (world m)))
  else m.

(** The best-model policy as an automaton over the pair ([best_loss], id of
    [best_params]), reading the policy events of a run: an epoch whose mean
    is at most [best_loss] takes a state dict and reports the mean, any other
    epoch only reports its mean. *)
Inductive policy_trace :
    float -> option nat -> list event -> float -> option nat -> Prop :=
| policy_done (b : float) (o : option nat) : policy_trace b o [] b o
| policy_accept (b : float) (o : option nat) (x : float) (id : nat)
    (evs : list event) (b' : float) (o' : option nat) :
    leb x b = true ->
    policy_trace x (Some id) evs b' o' ->
    policy_trace b o (TakeStateDict id :: Print (ValidLossLine x) :: evs) b' o'
| policy_reject (b : float) (o : option nat) (x : float)
    (evs : list event) (b' : float) (o' : option nat) :
    leb x b = false ->
    policy_trace b o evs b' o' ->
    policy_trace b o (Print (ValidLossLine x) :: evs) b' o'.

(** The validation means reported on standard output. *)
Definition reported_means (tr : list event) : list float :=
  omap (fun e => match e with Print (ValidLossLine x) => Some x | _ => None end)
    tr.

(** The state dicts taken by the policy. *)
Definition taken_ids (tr : list event) : list nat :=
  omap (fun e => match e with TakeStateDict id => Some id | _ => None end) tr.

(** From [m] to [m'] whole validation epochs were reported, and the policy
    led from the best-model state of [m] to that of [m']. *)
Definition policy_rel (m m' : Mem) : Prop :=
  exists pevs,
    policy_events (trace (world m')) =
      policy_events (trace (world m)) ++ pevs /\
    policy_trace (best_loss (self m)) (sd_id <$> best_params (self m)) pevs
      (best_loss (self m')) (sd_id <$> best_params (self m')).

(** The steps of the epoch state machine: calls into the loaders, the
    generator, the optimizer, the renderer and the file system.  Console
    output and MetricSink emissions are not steps of it. *)
Definition core_event (e : event) : bool :=
  match e with
  | Print _ | Wandb _ => false
  | _ => true
  end.

(** The steps of a trace, in order. *)
Definition core_events (tr : list event) : list event :=
  List.filter core_event tr.

(** The training pass over [n] batches: per batch one batch drawn, one
    forward pass, one [zero_grad], one [backward], one optimizer step. *)
Definition train_phase (n : nat) : list event :=
  concat (replicate n [TrainGet; Forward true; ZeroGrad; Backward; OptimStep]).

(** The validation pass over [n] batches: per batch one batch drawn and one
    forward pass. *)
Definition valid_phase (n : nat) : list event :=
  concat (replicate n [ValidGet; Forward false]).

(** The rendering of the fixed sample. *)
Definition sample_phase : list event := [Forward false; MakeGrid].

(** The checkpoint of an epoch: the state dict of the generator is taken
    for the dict, and the dict is written. *)
Definition checkpoint_phase (path : string) (id : nat) : list event :=
  [CheckpointStateDict id; PickleDump path].

(** The steps of one epoch: training pass, validation pass, the state dict
    [policy] takes, rendering of the fixed sample, checkpoint. *)
Definition epoch_steps (path : string) (nt nv : nat) (policy : list event)
    (checkpoint_id : nat) : list event :=
  train_phase nt ++ valid_phase nv ++ policy ++ sample_phase ++
  checkpoint_phase path checkpoint_id.

(** A checkpoint write. *)
Definition is_dump (e : event) : bool :=
  match e with PickleDump _ => true | _ => false end.

(** What a completed epoch does to the histories and to the file. *)
Record epoch_step (path : string) (m m' : Mem) : Prop := EpochStep {
  es_train :
    exists losses,
      train_loss (self m') = train_loss (self m) ++ losses /\
      length losses = ld_len (trainloader (self m));
  es_valid :
    exists losses,
      valid_loss (self m') = valid_loss (self m) ++ losses /\
      length losses = ld_len (validloader (self m));
  es_images :
    exists img, test_images (self m') = test_images (self m) ++ [img];
  es_fs :
    fs (world m') = <[path := snapshot (self m') (world m')]> (fs (world m))
}.

(** A component of the state that a method leaves as it is. *)
Definition same {X : Type} (f : Mem -> X) : relation Mem :=
  fun m m' => f m' = f m.

(** An emission to the sink that does not raise. *)
Definition sink_emit (x : metric) (m : Mem) : Mem :=
  if could_wandb (self m) then
    MkMem (self m)
      (set_trace (trace (world m) ++ [Wandb x])
         (set_wandb_calls (S (wandb_calls (world m))) (world m)))
  else m.

(** What [n] completed epochs do to the histories and to the file. *)
Record epochs_done (path : string) (n : nat) (m m' : Mem) : Prop := EpochsDone {
  ed_train :
    exists losses,
      train_loss (self m') = train_loss (self m) ++ losses /\
      length losses = n * ld_len (trainloader (self m));
  ed_valid :
    exists losses,
      valid_loss (self m') = valid_loss (self m) ++ losses /\
      length losses = n * ld_len (validloader (self m));
  ed_images :
    exists imgs,
      test_images (self m') = test_images (self m) ++ imgs /\
      length imgs = n;
  ed_fs :
    (n = 0 /\ m' = m) \/
    (0 < n /\
     fs (world m') = <[path := snapshot (self m') (world m')]> (fs (world m)))
}.

(** The number of epochs of [range(lo, hi)]. *)
Definition epoch_count (epochs : Z * Z) : nat :=
  Z.to_nat (snd epochs - fst epochs).

(** The state dict an unpickled [best_params] is, and the world holding
    its tensors. *)
Definition unpickled (v : option params) (m : Mem) : option state_dict * Mem :=
  match v with
  | None => (None, m)
  | Some p =>
      let w := world m in
      (Some (StateDict (next_id w) (next_addr w)),
       MkMem (self m)
         (set_heap (store (next_addr w) p (heap w))
            (set_next_addr (S (next_addr w)) (set_next_id (S (next_id w)) w))))
  end.

(** The history replay of [load_trainer]. *)
Definition replay (t : Trainer) : M unit :=
  wandb (ConfigUpdate "best_loss" (best_loss t));;
  for_each (train_loss t) (fun loss => wandb (LogScalar "train_loss" loss));;
  for_each (valid_loss t) (fun loss => wandb (LogScalar "valid_loss" loss));;
  for_each (test_images t) (fun img => wandb (LogImage "pred_image" img)).

End Vocabulary.

(** * Vocabulary of the frame, failure and resume properties *)

Section Observations.

Context `{Torch}.

(** Whatever its outcome, [c] keeps the invariant [I]. *)
Definition keeps {A : Type} (I : Mem -> Prop) (c : M A) : Prop :=
  forall m, I m -> I (snd (c m)).

(** An emission accepted by the MetricSink. *)
Definition is_wandb (e : event) : bool :=
  match e with Wandb _ => true | _ => false end.

(** What was sent to the MetricSink, in order. *)
Definition sink_events (tr : list event) : list event :=
  List.filter is_wandb tr.

(** The sink is disabled and has been left alone since it had [n] calls and
    had received [evs]. *)
Definition sink_untouched (n : nat) (evs : list event) (m : Mem) : Prop :=
  could_wandb (self m) = false /\
  wandb_calls (world m) = n /\
  sink_events (trace (world m)) = evs.

(** The state after the sink has accepted the emissions [evs]. *)
Definition sink_emits (evs : list event) (m : Mem) : Mem :=
  MkMem (self m)
    (set_trace (trace (world m) ++ evs)
       (set_wandb_calls (wandb_calls (world m) + length evs) (world m))).

(** The epoch banners printed: [(epoch + 1, epochs[1])] for each. *)
Definition banners (tr : list event) : list (Z * Z) :=
  omap (fun e => match e with Print (Banner a b) => Some (a, b) | _ => None end)
    tr.

(** The lines printed, in order. *)
Definition printed (tr : list event) : list line :=
  omap (fun e => match e with Print l => Some l | _ => None end) tr.

(** The events of an epoch that completes: banner, training pass with the
    sink emission of each loss, the two means, validation pass, the state
    dict [policy] takes, the rendering of the sample, the image sent to the
    sink, the state dict taken for the checkpoint, the checkpoint write, and
    [best_loss] sent to the sink. *)
Definition epoch_trace (path : string) (epoch_plus_1 last : Z) (cw : bool)
    (tlosses vlosses : list float) (policy : list event) (checkpoint_id : nat)
    (img : image) (best : float) : list event :=
  [Print (Banner epoch_plus_1 last); Print (Label "TRAIN")] ++
  flat_map (train_events cw) tlosses ++
  [Print (TrainLossLine (mean tlosses)); Print (Label "VALID")] ++
  flat_map (valid_events cw) vlosses ++
  policy ++
  [Print (ValidLossLine (mean vlosses)); Forward false; MakeGrid] ++
  (if cw then [Wandb (LogImage "pred_image" img)] else []) ++
  checkpoint_phase path checkpoint_id ++
  (if cw then [Wandb (ConfigUpdate "best_loss" best)] else []).

(** The epoch [epoch] of [run epochs path], from [m] to [m'], as the
    specification orders it.  The training pass records the loss of each
    training batch and applies its update; the validation pass records the
    losses of the trained parameters on the validation batches and applies
    the best-model policy to their mean: when the mean is at most [best_loss]
    it becomes [best_loss] and a new state dict of the generator becomes
    [best_params], otherwise both stay; the rendering of the fixed sample is
    appended to [test_images]; the checkpoint, written last, replaces the
    file at [path] by the nine fields of the state the epoch leaves.  The
    events are exactly those of [epoch_trace]; its steps are those of
    [epoch_steps]; the checkpoint write is the only write and the last
    step. *)
Definition completed_epoch (epochs : Z * Z) (path : string) (epoch : Z)
    (m m' : Mem) : Prop :=
  let t := self m in
  let nt := ld_len (trainloader t) in
  let nv := ld_len (validloader t) in
  let p0 := heap (world m) (storage (generator t)) in
  let tlosses :=
    train_losses (mse_penalty t) (gen_optim t) p0 (batches (trainloader t) nt) in
  let r :=
    train_result (mse_penalty t) (gen_optim t) p0 (batches (trainloader t) nt) in
  let trained := snd r in
  let vlosses :=
    valid_losses (mse_penalty t) trained (batches (validloader t) nv) in
  let accepted := leb (mean vlosses) (best_loss t) in
  let best := if accepted then mean vlosses else best_loss t in
  let taken := StateDict (next_id (world m)) (storage (generator t)) in
  let best_sd := if accepted then Some taken else best_params t in
  let policy := if accepted then [TakeStateDict (sd_id taken)] else [] in
  let checkpoint_id := next_id (world m) + length policy in
  let img :=
    to_grid_image
      (forward false trained (test_content_letters t) (test_style_labels t)) in
  let evs :=
    epoch_trace path (epoch + 1) (snd epochs) (could_wandb t) tlosses vlosses
      policy checkpoint_id img best in
  (train_loss (self m') = train_loss t ++ tlosses /\
   gen_optim (self m') = fst r /\
   heap (world m') (storage (generator (self m'))) = trained) /\
  (valid_loss (self m') = valid_loss t ++ vlosses /\
   best_loss (self m') = best /\
   best_params (self m') = best_sd) /\
  test_images (self m') = test_images t ++ [img] /\
  fs (world m') =
    <[path :=
        TrainerData (Some trained) (Some best)
          (Some ((fun sd => heap (world m') (sd_storage sd)) <$> best_sd))
          (Some (test_content_letters t)) (Some (test_style_letters t))
          (Some (test_style_labels t)) (Some (test_images t ++ [img]))
          (Some (train_loss t ++ tlosses)) (Some (valid_loss t ++ vlosses))]>
      (fs (world m)) /\
  (trace (world m') = trace (world m) ++ evs /\
   core_events evs = epoch_steps path nt nv policy checkpoint_id /\
   List.filter is_dump evs = [PickleDump path] /\
   last (core_events evs) = Some (PickleDump path)).

(** The epochs of the indices [l], one after the other. *)
Inductive run_steps (epochs : Z * Z) (path : string)
    : list Z -> Mem -> Mem -> Prop :=
| run_steps_done (m : Mem) : run_steps epochs path [] m m
| run_steps_epoch (epoch : Z) (l : list Z) (m m1 m' : Mem) :
    completed_epoch epochs path epoch m m1 ->
    run_steps epochs path l m1 m' ->
    run_steps epochs path (epoch :: l) m m'.

(** The model: parameter values, optimizer state, gradients. *)
Definition model_state (m : Mem) :=
  (heap (world m), gen_optim (self m), grad (generator (self m)),
   storage (generator (self m))).

(** What belongs to training. *)
Definition training_side (m : Mem) :=
  (train_loss (self m), trainloader (self m)).

(** What belongs to validation and to the best-model policy. *)
Definition validation_side (m : Mem) :=
  (valid_loss (self m), validloader (self m), best_loss (self m),
   best_params (self m), next_id (world m)).

(** The attributes that are not in a checkpoint. *)
Definition not_checkpointed (m : Mem) :=
  (gen_optim (self m), generator (self m), trainloader (self m),
   validloader (self m), mse_penalty (self m), could_wandb (self m)).

(** The generator keeps its storage, and the tensors stored elsewhere keep
    their values. *)
Definition heap_elsewhere (m m' : Mem) : Prop :=
  storage (generator (self m')) = storage (generator (self m)) /\
  forall a, a <> storage (generator (self m)) ->
            heap (world m') a = heap (world m) a.

(** [best_params] is [None] or a state dict of the trainer's own
    generator. *)
Definition best_params_live (m : Mem) : Prop :=
  forall sd, best_params (self m) = Some sd ->
             sd_storage sd = storage (generator (self m)).

(** The first [i] keys that [load_trainer] reads are present in [d]. *)
Definition read_upto (d : trainer_data) (i : nat) : bool :=
  forallb (has_key d) (take i required_fields).

(** The value of an attribute after [load_trainer] on the record [d], for
    the attribute assigned from the key of index [i]: the value stored under
    the key when the keys before it were read, the old value otherwise. *)
Definition assigned {A : Type} (d : trainer_data) (i : nat) (old : A)
    (field : option A) : A :=
  if read_upto d i then default old field else old.

(** What [load_trainer] replays to the MetricSink. *)
Definition replay_events (t : Trainer) : list event :=
  Wandb (ConfigUpdate "best_loss" (best_loss t)) ::
  ((fun x => Wandb (LogScalar "train_loss" x)) <$> train_loss t) ++
  ((fun x => Wandb (LogScalar "valid_loss" x)) <$> valid_loss t) ++
  ((fun img => Wandb (LogImage "pred_image" img)) <$> test_images t).

(** The state after the nine assignments of [load_trainer] from a complete
    record, before the replay. *)
Definition restored (path : string) (gp : params) (bl : float)
    (bp : option params) (tc tl tb : tensor) (ti : list image)
    (trl vl : list float) (m : Mem) : Mem :=
  let m1 :=
    MkMem (self m)
      (set_trace ((trace (world m) ++ [PickleLoad path]) ++ [LoadStateDict])
         (set_heap (store (storage (generator (self m))) gp (heap (world m)))
            (world m))) in
  let u := unpickled bp m1 in
  MkMem
    (set_valid_loss vl (set_train_loss trl (set_test_images ti
       (set_test_style_labels tb (set_test_style_letters tl
          (set_test_content_letters tc
             (set_best_params (fst u) (set_best_loss bl (self m)))))))))
    (world (snd u)).

End Observations.

(** * A concrete trainer

    A one-parameter generator on scalar tensors: its parameter counts the
    optimizer steps, its prediction is its parameter, and the error of a
    prediction on a batch is the value the batch carries as target. *)

Module Toy.

#[local] Instance toy_torch : Torch := {|
  tensor := float;
  image := float;
  params := Z;
  grads := Z;
  adam := nat;
  to_device_float32 := to_float32;
  forward := fun _ p _ _ => of_Z p;
  mse_loss := fun _ target => target;
  zero_grads := 0%Z;
  backward := fun _ _ _ _ _ g => (g + 1)%Z;
  adam_init := fun _ => 0;
  adam_step := fun o g p => (S o, (p + g)%Z);
  to_grid_image := fun x => x
|}.

Definition zero : float := S754_zero false.

(** A loader of [n] batches per epoch whose [k]-th batch has error
    [errors k]. *)
Definition toy_loader (n : nat) (errors : nat -> float) : loader :=
  Loader n (fun k _ => Batch zero (errors k) zero) 0.

(** Raw errors 0.1, 0.2, 0.1, 0.0, repeated. *)
Definition scenario_errors (k : nat) : float :=
  match k mod 4 with
  | 0 => ratio 1 10
  | 1 => ratio 2 10
  | 2 => ratio 1 10
  | _ => zero
  end.

Definition toy_generator : module := Module 0 false 0%Z.

Definition toy_world (raises : nat -> bool) : World :=
  MkWorld (fun _ => 0%Z) 1 0 raises 0 ∅ [].

Definition never : nat -> bool := fun _ => false.

(** A fresh trainer with penalty 5, four training batches and two validation
    batches per epoch. *)
Definition toy_mem (valid_errors : nat -> float) (could_wandb : bool)
    (raises : nat -> bool) : Mem :=
  init toy_generator (toy_loader 4 scenario_errors)
    (toy_loader 2 valid_errors) (of_Z 5) (ratio 2 1000) could_wandb
    (toy_world raises).

(** Validation errors 0.1 throughout: every epoch has mean 0.5. *)
Definition steady : nat -> float := fun _ => ratio 1 10.

(** Validation errors 0.1 in the first epoch and 0.2 afterwards: means 0.5,
    then 1.0. *)
Definition worsening : nat -> float :=
  fun k => if Nat.leb k 2 then ratio 1 10 else ratio 2 10.

(** Validation errors 30000: every epoch has mean 150000. *)
Definition huge : nat -> float := fun _ => of_Z 30000.

Definition path : string := "trainer.pickle".

(** A checkpoint without [valid_loss]. *)
Definition truncated : trainer_data :=
  TrainerData (Some 0%Z) (Some (ratio 1 2)) (Some None) (Some zero)
    (Some zero) (Some zero) (Some []) (Some []) None.

(** Save after one epoch, load into a fresh trainer of a new process that
    sees the file. *)
Definition fresh_process (m1 : Mem) : Mem :=
  init toy_generator (toy_loader 4 scenario_errors) (toy_loader 2 steady)
    (of_Z 5) (ratio 2 1000) false
    (set_fs (fs (world m1)) (toy_world never)).

End Toy.

(** * Checkpoints and loaders for the concrete trainer *)

Module Resumed.

Import Toy.

#[local] Existing Instance toy_torch.

(** A complete checkpoint: parameters 3, best parameters 2, two training
    losses, one validation loss, one sample image. *)
Definition complete_checkpoint : trainer_data :=
  TrainerData (Some 3%Z) (Some (ratio 1 2)) (Some (Some 2%Z)) (Some zero)
    (Some zero) (Some zero) (Some [zero]) (Some [ratio 1 2; of_Z 1])
    (Some [ratio 1 2]).

(** The same checkpoint without [train_loss]. *)
Definition checkpoint_without_train_loss : trainer_data :=
  TrainerData (Some 3%Z) (Some (ratio 1 2)) (Some (Some 2%Z)) (Some zero)
    (Some zero) (Some zero) (Some [zero]) None (Some [ratio 1 2]).

(** A fresh trainer of a process that sees the checkpoint [d] at [path]. *)
Definition resuming (d : trainer_data) (could_wandb : bool) : Mem :=
  init toy_generator (toy_loader 4 scenario_errors) (toy_loader 2 steady)
    (of_Z 5) (ratio 2 1000) could_wandb
    (set_fs {[ path := d ]} (toy_world never)).

(** A trainer whose validation loader is empty. *)
Definition no_validation : Mem :=
  init toy_generator (toy_loader 4 scenario_errors) (toy_loader 0 steady)
    (of_Z 5) (ratio 2 1000) false (toy_world never).

End Resumed.

(** * Properties *)

(** ** Running the monad *)

Section Framework.

Context `{Torch}.

Lemma run_bind {A B : Type} (c : M A) (k : A -> M B) (m : Mem) :
  (c ≫= k) m =
  match c m with
  | (Returned a, m') => k a m'
  | (Raised e, m') => (Raised e, m')
  end.
Proof. reflexivity. Qed.

(** ** Relations that every step of a method preserves *)

Section Preservation.

Context (R : relation Mem) `{!PreOrder R}.

Lemma preserves_ret {A : Type} (a : A) : preserves R (mret a).
Proof. intros m. reflexivity. Qed.

Lemma preserves_raise {A : Type} (e : exn) : preserves R (raise e : M A).
Proof. intros m. reflexivity. Qed.

Lemma preserves_gets {A : Type} (f : Mem -> A) : preserves R (gets f).
Proof. intros m. reflexivity. Qed.

Lemma preserves_modify (f : Mem -> Mem) :
  (forall m, R m (f m)) -> preserves R (modify f).
Proof. intros Hf m. apply Hf. Qed.

Lemma preserves_bind {A B : Type} (c : M A) (k : A -> M B) :
  preserves R c -> (forall a, preserves R (k a)) -> preserves R (c ≫= k).
Proof.
  intros Hc Hk m. rewrite run_bind. specialize (Hc m).
  destruct (c m) as [[a|e] m1]; cbn in *; [|done].
  etrans; [exact Hc|apply Hk].
Qed.

Lemma preserves_when (c : bool) (body : M unit) :
  preserves R body -> preserves R (when c body).
Proof. destruct c; [done|]. intros _. apply preserves_ret. Qed.

Lemma preserves_for_range {A : Type} (n : nat) (body : A -> M A) (acc : A) :
  (forall a, preserves R (body a)) -> preserves R (for_range n body acc).
Proof.
  intros Hb. revert acc. induction n as [|n IH]; intros acc; cbn [for_range].
  - apply preserves_ret.
  - apply preserves_bind; [apply Hb|apply IH].
Qed.

Lemma preserves_for_each {A : Type} (l : list A) (body : A -> M unit) :
  (forall a, preserves R (body a)) -> preserves R (for_each l body).
Proof.
  intros Hb. induction l as [|x l IH]; cbn [for_each].
  - apply preserves_ret.
  - apply preserves_bind; [apply Hb|intros _; apply IH].
Qed.

End Preservation.

End Framework.

(** One syntax-directed step of a preservation proof. *)
Ltac frame_step :=
  lazymatch goal with
  | |- preserves ?R (mbind _ _) => apply (preserves_bind R); [|intros ?]
  | |- preserves ?R (mret _) => apply (preserves_ret R)
  | |- preserves ?R (raise _) => apply (preserves_raise R)
  | |- preserves ?R (gets _) => apply (preserves_gets R)
  | |- preserves ?R get_self => apply (preserves_gets R)
  | |- preserves ?R get_world => apply (preserves_gets R)
  | |- preserves ?R (when _ _) => apply (preserves_when R)
  | |- preserves ?R (for_range _ _ _) => apply (preserves_for_range R); intros ?
  | |- preserves ?R (for_each _ _) => apply (preserves_for_each R); intros ?
  | |- preserves ?R (modify _) => apply (preserves_modify R); intros [? ?]
  | |- preserves ?R (modify_self _) => apply (preserves_modify R); intros [? ?]
  | |- preserves ?R (modify_world _) => apply (preserves_modify R); intros [? ?]
  | |- preserves ?R (emit _) => apply (preserves_modify R); intros [? ?]
  | |- preserves ?R (print _) => apply (preserves_modify R); intros [? ?]
  | |- preserves ?R (match ?x with _ => _ end) => destruct x
  end.

Ltac solve_run_frame :=
  split; cbn;
  first [reflexivity | lia | repeat apply prefix_app_r; reflexivity].

(** ** The frame of a run *)

Section RunFrame.

Context `{Torch}.

#[global] Instance run_frame_preorder : PreOrder run_frame.
Proof.
  split.
  - intros m. split; reflexivity.
  - intros m1 m2 m3 [] []. split; (etrans; eassumption).
Qed.

Lemma run_frame_wandb (x : metric) : preserves run_frame (wandb x).
Proof. unfold wandb. repeat frame_step; solve_run_frame. Qed.

Lemma run_frame_train_batch (avg : float) :
  preserves run_frame (train_batch avg).
Proof.
  unfold train_batch, trainloader_get, call_generator, zero_grad,
    loss_backward, optim_step.
  repeat frame_step; try apply run_frame_wandb; solve_run_frame.
Qed.

Lemma run_frame_valid_batch (avg : float) :
  preserves run_frame (valid_batch avg).
Proof.
  unfold valid_batch, validloader_get, call_generator.
  repeat frame_step; try apply run_frame_wandb; solve_run_frame.
Qed.

Lemma run_frame_train : preserves run_frame train.
Proof.
  unfold train, truediv, set_mode.
  repeat frame_step; try apply run_frame_train_batch; solve_run_frame.
Qed.

Lemma run_frame_valid : preserves run_frame valid.
Proof.
  unfold valid, update_best, truediv, set_mode, take_state_dict.
  repeat frame_step; try apply run_frame_valid_batch; solve_run_frame.
Qed.

Lemma run_frame_get_pred_image : preserves run_frame get_pred_image.
Proof.
  unfold get_pred_image, set_mode, call_generator.
  repeat frame_step; solve_run_frame.
Qed.

Lemma run_frame_run_epoch (epochs : Z * Z) (path : string) (epoch : Z) :
  preserves run_frame (run_epoch epochs path epoch).
Proof.
  unfold run_epoch, pickle_dump, checkpoint_state_dict.
  repeat frame_step;
    try apply run_frame_wandb; try apply run_frame_train;
    try apply run_frame_valid; try apply run_frame_get_pred_image;
    solve_run_frame.
Qed.

Lemma run_frame_run (epochs : Z * Z) (path : string) :
  preserves run_frame (run epochs path).
Proof.
  unfold run. apply (preserves_for_each run_frame). intros epoch.
  apply run_frame_run_epoch.
Qed.

End RunFrame.

(** ** Errors raised by the methods *)

(** Unfolds the monad to the state functions it denotes. *)
Ltac munfold :=
  unfold mbind, mret, M_bind, M_ret, bind, ret, raise, print, emit,
    modify_self, modify_world, get_self, get_world, gets, modify, when in *.

Section Errors.

Context `{Torch}.

Lemma train_zero (m : Mem) :
  ld_len (trainloader (self m)) = 0 ->
  fst (train m) = Raised ZeroDivisionError.
Proof.
  intros Hlen. unfold train, set_mode. munfold. cbn. rewrite Hlen. cbn.
  munfold. cbn. rewrite Hlen. reflexivity.
Qed.

Lemma valid_zero (m : Mem) :
  ld_len (validloader (self m)) = 0 ->
  fst (valid m) = Raised ZeroDivisionError.
Proof.
  intros Hlen. unfold valid, set_mode. munfold. cbn. rewrite Hlen. cbn.
  munfold. cbn. rewrite Hlen. reflexivity.
Qed.

(** C10: with a reported batch count of zero, [train] and [valid] raise
    [ZeroDivisionError] at the division by the batch count instead of
    returning a mean. *)
Theorem zero_batch_count_raises (m1 m2 : Mem) :
  ld_len (trainloader (self m1)) = 0 ->
  ld_len (validloader (self m2)) = 0 ->
  fst (train m1) = Raised ZeroDivisionError /\
  fst (valid m2) = Raised ZeroDivisionError.
Proof.
  intros H1 H2. split; [apply train_zero | apply valid_zero]; assumption.
Qed.

Local Ltac raised k :=
  exists k; split;
  [cbn; repeat first [left; reflexivity | right] | split; reflexivity].

(** C9: loading a record that lacks one of the nine required fields raises
    [KeyError] for a missing field (the first one in the order they are
    read); no default is substituted. *)
Theorem load_trainer_missing_field (path : string) (wandb_log : bool)
    (m : Mem) (d : trainer_data) :
  fs (world m) !! path = Some d ->
  (exists key, In key required_fields /\ has_key d key = false) ->
  exists key,
    In key required_fields /\ has_key d key = false /\
    fst (load_trainer path wandb_log m) = Raised (KeyError key).
Proof.
  intros Hfile Hmiss.
  unfold load_trainer, pickle_load, load_state_dict, unpickled_state_dict,
    getitem.
  munfold. cbn. rewrite Hfile.
  destruct d as [gp bl bp tc tl tb ti trl vl].
  destruct gp; [|raised "generator_params"%string].
  destruct bl; [|raised "best_loss"%string].
  destruct bp as [[pb|]|]; [| |raised "best_params"%string].
  all: destruct tc; [|raised "test_content_letters"%string].
  all: destruct tl; [|raised "test_style_letters"%string].
  all: destruct tb; [|raised "test_style_labels"%string].
  all: destruct ti; [|raised "test_images"%string].
  all: destruct trl; [|raised "train_loss"%string].
  all: destruct vl; [|raised "valid_loss"%string].
  all: exfalso; destruct Hmiss as (key & Hin & Hkey); cbn in Hin.
  all: repeat (destruct Hin as [<-|Hin]; [discriminate Hkey|]); exact Hin.
Qed.

End Errors.

(** ** One epoch of training and of validation

    The loops are compared with the steps the specification lists: the loss
    of a batch is the penalty times the mean squared error of the prediction,
    and each training batch is followed by one optimizer update. *)

Section Epochs.

Context `{Torch}.

Lemma sink_silent_frame (m m' : Mem) :
  run_frame m m' -> sink_silent m -> sink_silent m'.
Proof.
  intros Hf Hs Hcw k Hk. rewrite (rf_raises _ _ Hf).
  apply Hs; [rewrite <- (rf_could_wandb _ _ Hf); exact Hcw|].
  pose proof (rf_calls _ _ Hf). lia.
Qed.

Lemma sink_silent_now (m : Mem) : sink_silent m -> sink_ok_now m.
Proof. intros Hs Hcw. by apply Hs. Qed.

Lemma batches_S (l : loader) (n : nat) :
  batches l (S n) = ld_get l (ld_calls l) None :: batches (next_call l) n.
Proof.
  unfold batches. cbn [seq fmap list_fmap]. rewrite Nat.add_0_r. f_equal.
  rewrite <- seq_shift, <- list_fmap_compose. apply list_fmap_ext.
  intros _ k _. cbn. f_equal. lia.
Qed.

Lemma train_batch_returns (avg : float) (m : Mem) :
  sink_ok_now m ->
  training (generator (self m)) = true ->
  let t := self m in
  let b := ld_get (trainloader t) (ld_calls (trainloader t)) None in
  let p := heap (world m) (storage (generator t)) in
  let x := penalized_mse (mse_penalty t) true p b in
  let r := train_update (mse_penalty t) (gen_optim t) p b in
  exists m',
    train_batch avg m = (Returned (add avg x), m') /\
    train_loss (self m') = train_loss t ++ [x] /\
    trace (world m') = trace (world m) ++ train_events (could_wandb t) x /\
    gen_optim (self m') = fst r /\
    heap (world m') (storage (generator t)) = snd r /\
    training (generator (self m')) = true /\
    trainloader (self m') = next_call (trainloader t) /\
    wandb_calls (world m') =
      wandb_calls (world m) + (if could_wandb t then 1 else 0).
Proof.
  destruct m as [t w]. intros Hs Hmode. unfold sink_ok_now in Hs.
  cbn in Hs, Hmode. cbn zeta. cbn [self world].
  unfold train_batch, trainloader_get, call_generator, zero_grad,
    loss_backward, optim_step, wandb.
  munfold. cbn. rewrite Hmode.
  unfold train_events, penalized_mse, train_update, store.
  destruct (could_wandb t) eqn:Hcw; cbn.
  - rewrite (Hs eq_refl). cbn.
    eexists. split; [reflexivity|]. cbn.
    rewrite Nat.eqb_refl, <- !app_assoc, Nat.add_1_r. done.
  - eexists. split; [reflexivity|]. cbn.
    rewrite Nat.eqb_refl, <- !app_assoc, Nat.add_0_r. done.
Qed.

Lemma train_losses_length (penalty : float) (o : adam) (p : params)
    (bs : list batch) :
  length (train_losses penalty o p bs) = length bs.
Proof.
  revert o p. induction bs as [|b bs IH]; intros o p; cbn; [done|].
  by rewrite IH.
Qed.

Lemma batches_length (l : loader) (n : nat) : length (batches l n) = n.
Proof. unfold batches. by rewrite length_fmap, length_seq. Qed.

Lemma train_loop_returns (n : nat) (avg : float) (m : Mem) :
  sink_silent m ->
  training (generator (self m)) = true ->
  let t := self m in
  let p := heap (world m) (storage (generator t)) in
  let bs := batches (trainloader t) n in
  let losses := train_losses (mse_penalty t) (gen_optim t) p bs in
  let r := train_result (mse_penalty t) (gen_optim t) p bs in
  exists m',
    for_range n train_batch avg m = (Returned (fold_left add losses avg), m') /\
    train_loss (self m') = train_loss t ++ losses /\
    trace (world m') =
      trace (world m) ++ flat_map (train_events (could_wandb t)) losses /\
    gen_optim (self m') = fst r /\
    heap (world m') (storage (generator t)) = snd r.
Proof.
  revert avg m. induction n as [|n IH]; intros avg m Hs Hmode; cbn zeta.
  - exists m. cbn. by rewrite !app_nil_r.
  - destruct (train_batch_returns avg m (sink_silent_now m Hs) Hmode)
      as (m1 & Hrun & Hloss & Htrace & Hopt & Hheap & Hmode1 & Hloader & _).
    pose proof (run_frame_train_batch avg m) as Hf. rewrite Hrun in Hf.
    cbn [snd] in Hf.
    destruct (IH (add avg
                (penalized_mse (mse_penalty (self m)) true
                   (heap (world m) (storage (generator (self m))))
                   (ld_get (trainloader (self m))
                      (ld_calls (trainloader (self m))) None))) m1
                (sink_silent_frame _ _ Hf Hs) Hmode1)
      as (m' & Hrun' & Hloss' & Htrace' & Hopt' & Hheap').
    exists m'. cbn [for_range]. rewrite run_bind, Hrun, Hrun'.
    rewrite (rf_mse_penalty _ _ Hf), (rf_storage _ _ Hf), Hopt, Hheap,
      Hloader, (rf_could_wandb _ _ Hf) in *.
    rewrite batches_S. cbn [train_losses train_result fold_left flat_map].
    rewrite Hloss', Hloss, Htrace', Htrace, <- !app_assoc. done.
Qed.

Lemma train_unfold (m : Mem) :
  train m =
  let m0 := MkMem (set_generator
                     (Module (storage (generator (self m))) true
                        (grad (generator (self m)))) (self m)) (world m) in
  match for_range (ld_len (trainloader (self m))) train_batch
          (S754_zero false) m0 with
  | (Returned a, m1) =>
      match truediv a (ld_len (trainloader (self m1))) m1 with
      | (Returned a', m2) => (Returned a', m2)
      | (Raised e, m2) => (Raised e, m2)
      end
  | (Raised e, m1) => (Raised e, m1)
  end.
Proof. reflexivity. Qed.

Lemma truediv_pos (x : float) (n : nat) (m : Mem) :
  0 < n -> truediv x n m = (Returned (div x (of_nat n)), m).
Proof. destruct n; [lia|done]. Qed.

(** A training epoch over a positive number of batches with a silent sink
    returns the mean of the losses it records. *)
Lemma train_returns (m : Mem) :
  sink_silent m ->
  0 < ld_len (trainloader (self m)) ->
  let t := self m in
  let p := heap (world m) (storage (generator t)) in
  let bs := batches (trainloader t) (ld_len (trainloader t)) in
  let losses := train_losses (mse_penalty t) (gen_optim t) p bs in
  exists m',
    train m = (Returned (mean losses), m') /\
    train_loss (self m') = train_loss t ++ losses /\
    trace (world m') =
      trace (world m) ++ flat_map (train_events (could_wandb t)) losses.
Proof.
  intros Hs Hlen. cbn zeta. rewrite train_unfold. cbn zeta.
  set (m0 := MkMem _ (world m)).
  destruct (train_loop_returns (ld_len (trainloader (self m)))
              (S754_zero false) m0)
    as (m' & Hrun & Hloss & Htrace & _); [exact Hs|reflexivity|].
  pose proof (preserves_for_range run_frame (ld_len (trainloader (self m)))
                train_batch (S754_zero false) run_frame_train_batch m0) as Hf.
  rewrite Hrun in *. cbn [snd] in Hf.
  rewrite (rf_train_len _ _ Hf). change (self m0) with (set_generator
    (Module (storage (generator (self m))) true (grad (generator (self m))))
    (self m)). cbn [set_generator trainloader].
  rewrite truediv_pos by done.
  exists m'. split; [|done]. unfold mean.
  by rewrite train_losses_length, batches_length.
Qed.

End Epochs.

(** ** The best-model policy *)

Section Validation.

Context `{Torch}.

#[global] Instance best_frame_preorder : PreOrder best_frame.
Proof.
  split.
  - intros m. split; reflexivity.
  - intros m1 m2 m3 [] []. split; (etrans; eassumption).
Qed.

Lemma policy_events_app (tr evs : list event) :
  policy_events (tr ++ evs) = policy_events tr ++ policy_events evs.
Proof. apply List.filter_app. Qed.

Lemma policy_events_snoc (tr : list event) (e : event) :
  policy_event e = false -> policy_events (tr ++ [e]) = policy_events tr.
Proof.
  intros He. rewrite policy_events_app. cbn. rewrite He. apply app_nil_r.
Qed.

End Validation.

Ltac solve_best_frame :=
  split; cbn; first [reflexivity | by apply policy_events_snoc].

Section ValidationSteps.

Context `{Torch}.

Lemma best_frame_wandb (x : metric) : preserves best_frame (wandb x).
Proof. unfold wandb. repeat frame_step; solve_best_frame. Qed.

Lemma best_frame_train : preserves best_frame train.
Proof.
  unfold train, train_batch, truediv, set_mode, trainloader_get,
    call_generator, zero_grad, loss_backward, optim_step.
  repeat frame_step; try apply best_frame_wandb; solve_best_frame.
Qed.

Lemma best_frame_valid_batch (avg : float) :
  preserves best_frame (valid_batch avg).
Proof.
  unfold valid_batch, validloader_get, call_generator.
  repeat frame_step; try apply best_frame_wandb; solve_best_frame.
Qed.

Lemma best_frame_get_pred_image : preserves best_frame get_pred_image.
Proof.
  unfold get_pred_image, set_mode, call_generator.
  repeat frame_step; solve_best_frame.
Qed.

Lemma update_best_eq (a : float) (m : Mem) :
  update_best a m = (Returned tt, apply_policy a m).
Proof.
  destruct m as [t w]. unfold update_best, apply_policy, take_state_dict.
  munfold. cbn. destruct (leb a (best_loss t)); reflexivity.
Qed.

Lemma valid_unfold (m : Mem) :
  valid m =
  let m0 := MkMem (set_generator
                     (Module (storage (generator (self m))) false
                        (grad (generator (self m)))) (self m)) (world m) in
  match for_range (ld_len (validloader (self m))) valid_batch
          (S754_zero false) m0 with
  | (Returned a, m1) =>
      match truediv a (ld_len (validloader (self m1))) m1 with
      | (Returned a', m2) => (Returned a', apply_policy a' m2)
      | (Raised e, m2) => (Raised e, m2)
      end
  | (Raised e, m1) => (Raised e, m1)
  end.
Proof.
  pose proof update_best_eq as Hpol.
  unfold valid, set_mode. munfold. cbn -[update_best truediv for_range].
  destruct (for_range _ _ _ _) as [[a|e] m1]; [|reflexivity].
  destruct (truediv _ _ _) as [[a'|e] m2]; [|reflexivity].
  by rewrite Hpol.
Qed.

(** Whatever the outcome of a validation epoch, everything before the policy
    leaves the best-model state alone, and the policy is applied exactly when
    the epoch returns its mean. *)
Lemma valid_outcome (m : Mem) :
  exists m1,
    best_frame m m1 /\ run_frame m m1 /\
    ((exists e, valid m = (Raised e, m1)) \/
     (exists a, valid m = (Returned a, apply_policy a m1))).
Proof.
  rewrite valid_unfold. cbn zeta. set (m0 := MkMem _ (world m)).
  assert (best_frame m m0) as Hb0 by (split; reflexivity).
  assert (run_frame m m0) as Hr0 by (split; reflexivity).
  pose proof (preserves_for_range best_frame (ld_len (validloader (self m)))
                valid_batch (S754_zero false) best_frame_valid_batch m0) as Hb.
  pose proof (preserves_for_range run_frame (ld_len (validloader (self m)))
                valid_batch (S754_zero false) run_frame_valid_batch m0) as Hr.
  destruct (for_range _ _ _ _) as [[a|e] m1]; cbn [snd] in Hb, Hr.
  - unfold truediv. destruct (ld_len (validloader (self m1))).
    + exists m1. split_and!; [by etrans|by etrans|]. left. by eexists.
    + exists m1. split_and!; [by etrans|by etrans|]. right. by eexists.
  - exists m1. split_and!; [by etrans|by etrans|]. left. by eexists.
Qed.

Lemma valid_batch_returns (avg : float) (m : Mem) :
  sink_ok_now m ->
  training (generator (self m)) = false ->
  let t := self m in
  let b := ld_get (validloader t) (ld_calls (validloader t)) None in
  let p := heap (world m) (storage (generator t)) in
  let x := penalized_mse (mse_penalty t) false p b in
  exists m',
    valid_batch avg m = (Returned (add avg x), m') /\
    valid_loss (self m') = valid_loss t ++ [x] /\
    trace (world m') = trace (world m) ++ valid_events (could_wandb t) x /\
    heap (world m') = heap (world m) /\
    training (generator (self m')) = false /\
    validloader (self m') = next_call (validloader t) /\
    wandb_calls (world m') =
      wandb_calls (world m) + (if could_wandb t then 1 else 0).
Proof.
  destruct m as [t w]. intros Hs Hmode. unfold sink_ok_now in Hs.
  cbn in Hs, Hmode. cbn zeta. cbn [self world].
  unfold valid_batch, validloader_get, call_generator, wandb.
  munfold. cbn. rewrite Hmode.
  unfold valid_events, penalized_mse.
  destruct (could_wandb t) eqn:Hcw; cbn.
  - rewrite (Hs eq_refl). cbn.
    eexists. split; [reflexivity|]. cbn.
    rewrite <- !app_assoc, Nat.add_1_r. done.
  - eexists. split; [reflexivity|]. cbn.
    rewrite <- !app_assoc, Nat.add_0_r. done.
Qed.

Lemma valid_loop_returns (n : nat) (avg : float) (m : Mem) :
  sink_silent m ->
  training (generator (self m)) = false ->
  let t := self m in
  let p := heap (world m) (storage (generator t)) in
  let losses := valid_losses (mse_penalty t) p (batches (validloader t) n) in
  exists m',
    for_range n valid_batch avg m = (Returned (fold_left add losses avg), m') /\
    valid_loss (self m') = valid_loss t ++ losses /\
    trace (world m') =
      trace (world m) ++ flat_map (valid_events (could_wandb t)) losses /\
    heap (world m') = heap (world m).
Proof.
  revert avg m. induction n as [|n IH]; intros avg m Hs Hmode; cbn zeta.
  - exists m. cbn. by rewrite !app_nil_r.
  - destruct (valid_batch_returns avg m (sink_silent_now m Hs) Hmode)
      as (m1 & Hrun & Hloss & Htrace & Hheap & Hmode1 & Hloader & _).
    pose proof (run_frame_valid_batch avg m) as Hf. rewrite Hrun in Hf.
    cbn [snd] in Hf.
    destruct (IH (add avg
                (penalized_mse (mse_penalty (self m)) false
                   (heap (world m) (storage (generator (self m))))
                   (ld_get (validloader (self m))
                      (ld_calls (validloader (self m))) None))) m1
                (sink_silent_frame _ _ Hf Hs) Hmode1)
      as (m' & Hrun' & Hloss' & Htrace' & Hheap').
    exists m'. cbn [for_range]. rewrite run_bind, Hrun, Hrun'.
    rewrite (rf_mse_penalty _ _ Hf), (rf_storage _ _ Hf), Hheap,
      Hloader, (rf_could_wandb _ _ Hf) in *.
    rewrite batches_S. unfold valid_losses in *.
    cbn [fmap list_fmap fold_left flat_map].
    rewrite Hloss', Hloss, Htrace', Htrace, <- !app_assoc. done.
Qed.

(** A validation epoch over a positive number of batches with a silent sink
    returns the mean of the losses it records, after applying the policy to
    that mean. *)
Lemma valid_returns (m : Mem) :
  sink_silent m ->
  0 < ld_len (validloader (self m)) ->
  let t := self m in
  let p := heap (world m) (storage (generator t)) in
  let bs := batches (validloader t) (ld_len (validloader t)) in
  let losses := valid_losses (mse_penalty t) p bs in
  exists m1,
    valid m = (Returned (mean losses), apply_policy (mean losses) m1) /\
    valid_loss (self m1) = valid_loss t ++ losses /\
    trace (world m1) =
      trace (world m) ++ flat_map (valid_events (could_wandb t)) losses /\
    heap (world m1) = heap (world m) /\
    best_frame m m1 /\ run_frame m m1.
Proof.
  intros Hs Hlen. cbn zeta. rewrite valid_unfold. cbn zeta.
  set (m0 := MkMem _ (world m)).
  destruct (valid_loop_returns (ld_len (validloader (self m)))
              (S754_zero false) m0)
    as (m1 & Hrun & Hloss & Htrace & Hheap); [exact Hs|reflexivity|].
  pose proof (preserves_for_range run_frame (ld_len (validloader (self m)))
                valid_batch (S754_zero false) run_frame_valid_batch m0) as Hf.
  pose proof (preserves_for_range best_frame (ld_len (validloader (self m)))
                valid_batch (S754_zero false) best_frame_valid_batch m0) as Hb.
  rewrite Hrun in *. cbn [snd] in Hf, Hb.
  rewrite (rf_valid_len _ _ Hf). change (self m0) with (set_generator
    (Module (storage (generator (self m))) false (grad (generator (self m))))
    (self m)). cbn [set_generator validloader].
  rewrite truediv_pos by done.
  assert (mean (valid_losses (mse_penalty (self m))
                  (heap (world m) (storage (generator (self m))))
                  (batches (validloader (self m))
                     (ld_len (validloader (self m))))) =
          div (fold_left add
                 (valid_losses (mse_penalty (self m0))
                    (heap (world m0) (storage (generator (self m0))))
                    (batches (validloader (self m0))
                       (ld_len (validloader (self m)))))
                 (S754_zero false))
            (of_nat (ld_len (validloader (self m))))) as ->.
  { unfold mean, valid_losses. by rewrite length_fmap, batches_length. }
  exists m1. split_and!; try done.
  - etrans; [|exact Hb]. split; reflexivity.
  - etrans; [|exact Hf]. split; reflexivity.
Qed.

End ValidationSteps.

(** ** The order of floats *)

Ltac float_cases :=
  repeat match goal with
  | x : float |- _ => destruct x as [[]|[]| |[] ? ?]
  | x : spec_float |- _ => destruct x as [[]|[]| |[] ? ?]
  end;
  cbn in *; try done.

Ltac compare_cases :=
  change (Pos.compare_cont Eq) with Pos.compare in *;
  repeat match goal with
  | H : context [(?a ?= ?b)%Z] |- _ =>
      destruct (Z.compare_spec a b); cbn in H; try done
  | |- context [(?a ?= ?b)%Z] =>
      destruct (Z.compare_spec a b); cbn; try done
  | H : context [(?a ?= ?b)%positive] |- _ =>
      destruct (Pos.compare_spec a b); cbn in H; try done
  | |- context [(?a ?= ?b)%positive] =>
      destruct (Pos.compare_spec a b); cbn; try done
  end;
  try lia.

Section FloatOrder.

Lemma leb_refl (x : float) : is_nan x = false -> leb x x = true.
Proof.
  unfold leb, SFleb, SFcompare, is_nan. float_cases; intros _.
  all: compare_cases.
Qed.

Lemma leb_total (x y : float) :
  is_nan x = false -> is_nan y = false -> leb x y = false -> leb y x = true.
Proof.
  unfold leb, SFleb, SFcompare, is_nan. float_cases; intros _ _ Hxy.
  all: compare_cases.
Qed.

Lemma leb_not_nan (x y : float) :
  leb x y = true -> is_nan x = false /\ is_nan y = false.
Proof. unfold leb, SFleb, SFcompare, is_nan. float_cases. Qed.


Lemma leb_trans (x y z : float) :
  leb x y = true -> leb y z = true -> leb x z = true.
Proof.
  unfold leb, SFleb, SFcompare. float_cases; intros Hxy Hyz.
  all: compare_cases.
Qed.

End FloatOrder.

(** ** The policy along a run

    The policy events of a run (state dicts taken, validation means
    reported) form a word of the policy automaton. *)

Section Policy.

Context `{Torch}.

Lemma policy_trace_app (b1 b2 b3 : float) (o1 o2 o3 : option nat)
    (evs evs' : list event) :
  policy_trace b1 o1 evs b2 o2 ->
  policy_trace b2 o2 evs' b3 o3 ->
  policy_trace b1 o1 (evs ++ evs') b3 o3.
Proof.
  induction 1 as [| ? ? ? ? ? ? ? Hle _ IH | ? ? ? ? ? ? Hle _ IH];
    intros H'; cbn.
  - exact H'.
  - apply policy_accept; [exact Hle|apply IH, H'].
  - apply policy_reject; [exact Hle|apply IH, H'].
Qed.

#[global] Instance policy_rel_preorder : PreOrder policy_rel.
Proof.
  split.
  - intros m. exists []. split; [by rewrite app_nil_r|constructor].
  - intros m1 m2 m3 (evs & He & Ht) (evs' & He' & Ht').
    exists (evs ++ evs'). split.
    + by rewrite He', He, app_assoc.
    + eapply policy_trace_app; eassumption.
Qed.

Lemma best_frame_policy_rel (m m' : Mem) : best_frame m m' -> policy_rel m m'.
Proof.
  intros [Hb Hp _ He]. exists []. split; [by rewrite app_nil_r|].
  rewrite Hb, Hp. constructor.
Qed.

Lemma preserves_weaken {A : Type} (R1 R2 : relation Mem) (c : M A) :
  (forall m m', R1 m m' -> R2 m m') -> preserves R1 c -> preserves R2 c.
Proof. intros HR Hc m. apply HR, Hc. Qed.

(** Reporting the mean of a validation epoch closes the epoch's policy
    events. *)
Lemma policy_rel_report (a : float) (m m1 : Mem) :
  best_frame m m1 ->
  policy_rel m
    (MkMem (self (apply_policy a m1))
       (set_trace (trace (world (apply_policy a m1)) ++
                   [Print (ValidLossLine a)])
          (world (apply_policy a m1)))).
Proof.
  intros [Hb Hp Hid He]. unfold policy_rel, apply_policy. rewrite Hb.
  destruct (leb a (best_loss (self m))) eqn:Hle;
    cbn [self world trace set_trace set_next_id set_best_params
         set_best_loss best_loss best_params fmap option_fmap option_map
         sd_id].
  - exists [TakeStateDict (next_id (world m1)); Print (ValidLossLine a)].
    split.
    + rewrite !policy_events_app, He, <- app_assoc. reflexivity.
    + apply policy_accept; [exact Hle|constructor].
  - exists [Print (ValidLossLine a)]. split.
    + by rewrite policy_events_app, He.
    + rewrite Hb, Hp. apply policy_reject; [exact Hle|constructor].
Qed.

Lemma policy_rel_valid_report {A : Type} (k : float -> M A) :
  (forall a, preserves policy_rel (k a)) ->
  preserves policy_rel
    (valid ≫= λ a, print (ValidLossLine a) ≫= λ _, k a).
Proof.
  intros Hk m. rewrite run_bind.
  destruct (valid_outcome m) as (m1 & Hb & _ & [(e & Hv)|(a & Hv)]);
    rewrite Hv; cbn [snd].
  - by apply best_frame_policy_rel.
  - rewrite run_bind. cbn -[apply_policy].
    etrans; [apply (policy_rel_report a m m1 Hb)|apply Hk].
Qed.

#[global] Instance policy_frame_preorder : PreOrder policy_frame.
Proof.
  split.
  - intros m. split; reflexivity.
  - intros m1 m2 m3 [] []. split; (etrans; eassumption).
Qed.

Lemma best_frame_policy_frame (m m' : Mem) :
  best_frame m m' -> policy_frame m m'.
Proof. intros [Hb Hp _ He]. by split. Qed.

Lemma policy_frame_policy_rel (m m' : Mem) :
  policy_frame m m' -> policy_rel m m'.
Proof.
  intros [Hb Hp He]. exists []. split; [by rewrite app_nil_r|].
  rewrite Hb, Hp. constructor.
Qed.

(** The state dict taken for the checkpoint is not one of the policy. *)
Lemma policy_frame_run_epoch_tail (path : string) :
  preserves policy_frame
    (pred_image ← get_pred_image;
     t ← get_self;
     when (could_wandb t) (wandb (LogImage "pred_image" pred_image));;
     modify_self (fun t => set_test_images (test_images t ++ [pred_image]) t);;
     generator_params ← checkpoint_state_dict;
     t ← get_self;
     w ← get_world;
     let trainer_data := pickled generator_params t w in
     pickle_dump trainer_data path;;
     when (could_wandb t) (wandb (ConfigUpdate "best_loss" (best_loss t)))).
Proof.
  unfold pickle_dump, checkpoint_state_dict.
  repeat frame_step;
    try (apply (preserves_weaken best_frame);
         [apply best_frame_policy_frame
         |first [apply best_frame_wandb | apply best_frame_get_pred_image]]);
    split; cbn; first [reflexivity | by apply policy_events_snoc].
Qed.

Lemma policy_rel_run_epoch (epochs : Z * Z) (path : string) (epoch : Z) :
  preserves policy_rel (run_epoch epochs path epoch).
Proof.
  unfold run_epoch.
  do 5 (apply (preserves_bind policy_rel);
        [apply (preserves_weaken best_frame);
         [apply best_frame_policy_rel|];
         first [apply best_frame_train | repeat frame_step; solve_best_frame]
        |intros ?]).
  apply policy_rel_valid_report. intros mean_loss.
  apply (preserves_weaken policy_frame); [apply policy_frame_policy_rel|].
  apply policy_frame_run_epoch_tail.
Qed.

Lemma policy_rel_run (epochs : Z * Z) (path : string) :
  preserves policy_rel (run epochs path).
Proof.
  unfold run. apply (preserves_for_each policy_rel). intros epoch.
  apply policy_rel_run_epoch.
Qed.

End Policy.

(** ** What the policy automaton guarantees *)

Section PolicyFacts.

Context `{Torch}.

Lemma reported_means_policy_events (tr : list event) :
  reported_means (policy_events tr) = reported_means tr.
Proof.
  unfold reported_means, policy_events.
  induction tr as [|e tr IH]; [done|].
  destruct e as [[]| | | | | | | | | | | | | ]; cbn; rewrite ?IH; done.
Qed.

Lemma reported_means_app (tr evs : list event) :
  reported_means (tr ++ evs) = reported_means tr ++ reported_means evs.
Proof. apply omap_app. Qed.

(** [best_loss] is a least element of the initial value and the reported
    means that are numbers. *)
Lemma policy_trace_min (b : float) (o : option nat) (pevs : list event)
    (b' : float) (o' : option nat) :
  policy_trace b o pevs b' o' ->
  is_nan b = false ->
  In b' (b :: reported_means pevs) /\
  is_nan b' = false /\
  (forall y, In y (b :: reported_means pevs) -> is_nan y = false ->
             leb b' y = true).
Proof.
  induction 1 as [b o| b o x id evs b' o' Hle _ IH | b o x evs b' o' Hle _ IH];
    intros Hb.
  - split_and!; [by left|done|].
    intros y [<-|[]] Hy. by apply leb_refl.
  - destruct (leb_not_nan _ _ Hle) as [Hx _].
    destruct (IH Hx) as (Hin & Hnan & Hmin).
    split_and!; [by right|done|].
    intros y [<-|Hy] Hnany; [|by apply Hmin].
    eapply leb_trans; [|exact Hle]. apply Hmin; [by left|done].
  - destruct (IH Hb) as (Hin & Hnan & Hmin).
    split_and!; [|done|].
    + destruct Hin as [<-|Hin]; [by left|by right; right].
    + intros y [<-|[<-|Hy]] Hnany.
      * apply Hmin; [by left|done].
      * eapply leb_trans; [apply Hmin; [by left|done]|].
        by apply leb_total.
      * apply Hmin; [by right|done].
Qed.

(** Either no epoch was accepted, or [best_params] is the state dict taken
    in the last accepted epoch, whose mean is [best_loss], and every later
    epoch reported a mean that is not at most [best_loss]. *)
Lemma policy_trace_latest (b : float) (o : option nat) (pevs : list event)
    (b' : float) (o' : option nat) :
  policy_trace b o pevs b' o' ->
  (o' = o /\ b' = b /\
   Forall (fun x => leb x b = false) (reported_means pevs) /\
   taken_ids pevs = []) \/
  (exists pre post id,
     pevs = pre ++ TakeStateDict id :: Print (ValidLossLine b') :: post /\
     o' = Some id /\
     Forall (fun x => leb x b' = false) (reported_means post) /\
     taken_ids post = [] /\
     Exists (fun x => leb x b = true) (reported_means pevs)).
Proof.
  induction 1 as [b o| b o x id evs b' o' Hle _ IH | b o x evs b' o' Hle _ IH].
  - left. by split_and!.
  - right. destruct IH as [(-> & -> & Hall & Hids)|
                           (pre & post & id' & -> & -> & Hall & Hids & _)].
    + exists [], evs, id. split_and!; try done. by constructor.
    + exists (TakeStateDict id :: Print (ValidLossLine x) :: pre), post, id'.
      split_and!; try done. by constructor.
  - destruct IH as [(-> & -> & Hall & Hids)|
                    (pre & post & id' & -> & -> & Hall & Hids & Hex)].
    + left. split_and!; try done. by constructor.
    + right. exists (Print (ValidLossLine x) :: pre), post, id'.
      split_and!; try done. by constructor 2.
Qed.

Lemma Forall_Exists_false {A : Type} (f : A -> bool) (l : list A) :
  Forall (fun x => f x = false) l -> Exists (fun x => f x = true) l -> False.
Proof.
  intros Hall Hex. apply Exists_exists in Hex as (x & Hx & Hfx).
  rewrite Forall_forall in Hall. specialize (Hall x Hx). congruence.
Qed.

End PolicyFacts.

(** ** Best-model state of a run *)

Section BestModel.

Context `{Torch}.

(** C4, as amended: along a run of a fresh trainer, [best_loss] is a least
    element of the sentinel [1e5] and the validation means reported so far
    (NaN means, which compare false, aside), and one more epoch never
    increases it. *)
Theorem best_loss_is_min_with_sentinel (gen : module) (tl vl : loader)
    (penalty lr : float) (cw : bool) (w : World) (epochs : Z * Z)
    (path : string) :
  let m0 := init gen tl vl penalty lr cw w in
  let m' := snd (run epochs path m0) in
  exists means,
    reported_means (trace (world m')) =
      reported_means (trace (world m0)) ++ means /\
    In (best_loss (self m')) (initial_best_loss :: means) /\
    (forall y, In y (initial_best_loss :: means) -> is_nan y = false ->
               leb (best_loss (self m')) y = true) /\
    (forall epochs' path' epoch,
       leb (best_loss (self (snd (run_epoch epochs' path' epoch m'))))
         (best_loss (self m')) = true).
Proof.
  cbn zeta. set (m0 := init _ _ _ _ _ _ _). set (m' := snd _).
  destruct (policy_rel_run epochs path m0) as (pevs & Hev & Htr).
  fold m' in Hev, Htr.
  destruct (policy_trace_min _ _ _ _ _ Htr eq_refl) as (Hin & Hnan & Hmin).
  exists (reported_means pevs). split_and!; try done.
  - rewrite <- (reported_means_policy_events (trace (world m'))), Hev.
    by rewrite reported_means_app, reported_means_policy_events.
  - intros epochs' path' epoch.
    destruct (policy_rel_run_epoch epochs' path' epoch m') as (pevs' & _ & Htr').
    destruct (policy_trace_min _ _ _ _ _ Htr' Hnan) as (_ & _ & Hmin').
    apply Hmin'; [by left|done].
Qed.

(** C1, as amended: along a run of a fresh trainer, [best_params] is [None]
    exactly when no validation epoch reported a mean of at most the sentinel
    [1e5]; otherwise it is the state dict taken in the most recent epoch
    whose mean is [best_loss]: that epoch reported [best_loss], and every
    later epoch reported a mean that is not at most [best_loss] and took no
    state dict for [best_params]. *)
Theorem best_params_from_latest_best_epoch (gen : module) (tl vl : loader)
    (penalty lr : float) (cw : bool) (w : World) (epochs : Z * Z)
    (path : string) :
  let m0 := init gen tl vl penalty lr cw w in
  let m' := snd (run epochs path m0) in
  exists pevs,
    policy_events (trace (world m')) =
      policy_events (trace (world m0)) ++ pevs /\
    (best_params (self m') = None <->
     Forall (fun x => leb x initial_best_loss = false) (reported_means pevs)) /\
    (forall sd,
       best_params (self m') = Some sd ->
       exists pre post,
         pevs = pre ++ TakeStateDict (sd_id sd) ::
                  Print (ValidLossLine (best_loss (self m'))) :: post /\
         Forall (fun x => leb x (best_loss (self m')) = false)
           (reported_means post) /\
         taken_ids post = []).
Proof.
  cbn zeta. set (m0 := init _ _ _ _ _ _ _). set (m' := snd _).
  destruct (policy_rel_run epochs path m0) as (pevs & Hev & Htr).
  fold m' in Hev, Htr. exists pevs. split; [exact Hev|].
  change (best_loss (self m0)) with initial_best_loss in Htr.
  change (sd_id <$> best_params (self m0)) with (@None nat) in Htr.
  destruct (policy_trace_latest _ _ _ _ _ Htr)
    as [(Ho & Hb & Hall & Hids)|(pre & post & id & Hp & Ho & Hall & Hids & Hex)].
  - destruct (best_params (self m')) as [sd|] eqn:Hbp; [done|].
    split; [done|]. intros sd Hsd. done.
  - destruct (best_params (self m')) as [sd|] eqn:Hbp; [|done].
    cbn in Ho. injection Ho as <-. split.
    + split; [done|]. intros Hall'.
      destruct (Forall_Exists_false _ _ Hall' Hex).
    + intros sd' [= <-]. by exists pre, post.
Qed.

End BestModel.

(** ** A failing MetricSink *)

Section SinkFailure.

Context `{Torch}.

Lemma train_batch_raises (avg : float) (m : Mem) :
  could_wandb (self m) = true ->
  wandb_raises (world m) (wandb_calls (world m)) = true ->
  exists m',
    train_batch avg m = (Raised WandbError, m') /\
    train_loss (self m') = train_loss (self m).
Proof.
  destruct m as [t w]. cbn. intros Hcw Hr.
  unfold train_batch, trainloader_get, call_generator, zero_grad,
    loss_backward, optim_step, wandb.
  munfold. cbn. rewrite Hcw. cbn. rewrite Hr. cbn.
  eexists. split; reflexivity.
Qed.

Lemma valid_batch_raises (avg : float) (m : Mem) :
  could_wandb (self m) = true ->
  wandb_raises (world m) (wandb_calls (world m)) = true ->
  exists m',
    valid_batch avg m = (Raised WandbError, m') /\
    valid_loss (self m') = valid_loss (self m).
Proof.
  destruct m as [t w]. cbn. intros Hcw Hr.
  unfold valid_batch, validloader_get, call_generator, wandb.
  munfold. cbn. rewrite Hcw. cbn. rewrite Hr. cbn.
  eexists. split; reflexivity.
Qed.

Lemma train_loop_raises (k n : nat) (avg : float) (m : Mem) :
  k < n ->
  could_wandb (self m) = true ->
  training (generator (self m)) = true ->
  (forall j, j < k ->
     wandb_raises (world m) (wandb_calls (world m) + j) = false) ->
  wandb_raises (world m) (wandb_calls (world m) + k) = true ->
  exists m' losses,
    for_range n train_batch avg m = (Raised WandbError, m') /\
    train_loss (self m') = train_loss (self m) ++ losses /\
    length losses = k.
Proof.
  revert n avg m. induction k as [|k IH]; intros n avg m Hk Hcw Hmode Hok Hr.
  - destruct n as [|n]; [lia|]. rewrite Nat.add_0_r in Hr.
    destruct (train_batch_raises avg m Hcw Hr) as (m' & Hrun & Hloss).
    exists m', []. cbn [for_range]. rewrite run_bind, Hrun, app_nil_r. done.
  - destruct n as [|n]; [lia|].
    assert (sink_ok_now m) as Hnow.
    { intros _. rewrite <- (Nat.add_0_r (wandb_calls _)). apply Hok. lia. }
    destruct (train_batch_returns avg m Hnow Hmode)
      as (m1 & Hrun & Hloss & _ & _ & _ & Hmode1 & _ & Hcalls).
    pose proof (run_frame_train_batch avg m) as Hf. rewrite Hrun in Hf.
    cbn [snd] in Hf. rewrite Hcw in Hcalls.
    destruct (IH n (add avg
                (penalized_mse (mse_penalty (self m)) true
                   (heap (world m) (storage (generator (self m))))
                   (ld_get (trainloader (self m))
                      (ld_calls (trainloader (self m))) None))) m1)
      as (m' & losses & Hrun' & Hloss' & Hlen).
    + lia.
    + by rewrite (rf_could_wandb _ _ Hf).
    + exact Hmode1.
    + intros j Hj. rewrite (rf_raises _ _ Hf), Hcalls, <- Nat.add_assoc.
      apply Hok. lia.
    + rewrite (rf_raises _ _ Hf), Hcalls, <- Nat.add_assoc. exact Hr.
    + eexists m', (_ :: losses). cbn [for_range].
      rewrite run_bind, Hrun, Hrun', Hloss', Hloss, <- app_assoc.
      split_and!; [done|done|]. cbn. by rewrite Hlen.
Qed.

Lemma valid_loop_raises (k n : nat) (avg : float) (m : Mem) :
  k < n ->
  could_wandb (self m) = true ->
  training (generator (self m)) = false ->
  (forall j, j < k ->
     wandb_raises (world m) (wandb_calls (world m) + j) = false) ->
  wandb_raises (world m) (wandb_calls (world m) + k) = true ->
  exists m' losses,
    for_range n valid_batch avg m = (Raised WandbError, m') /\
    valid_loss (self m') = valid_loss (self m) ++ losses /\
    length losses = k.
Proof.
  revert n avg m. induction k as [|k IH]; intros n avg m Hk Hcw Hmode Hok Hr.
  - destruct n as [|n]; [lia|]. rewrite Nat.add_0_r in Hr.
    destruct (valid_batch_raises avg m Hcw Hr) as (m' & Hrun & Hloss).
    exists m', []. cbn [for_range]. rewrite run_bind, Hrun, app_nil_r. done.
  - destruct n as [|n]; [lia|].
    assert (sink_ok_now m) as Hnow.
    { intros _. rewrite <- (Nat.add_0_r (wandb_calls _)). apply Hok. lia. }
    destruct (valid_batch_returns avg m Hnow Hmode)
      as (m1 & Hrun & Hloss & _ & _ & Hmode1 & _ & Hcalls).
    pose proof (run_frame_valid_batch avg m) as Hf. rewrite Hrun in Hf.
    cbn [snd] in Hf. rewrite Hcw in Hcalls.
    destruct (IH n (add avg
                (penalized_mse (mse_penalty (self m)) false
                   (heap (world m) (storage (generator (self m))))
                   (ld_get (validloader (self m))
                      (ld_calls (validloader (self m))) None))) m1)
      as (m' & losses & Hrun' & Hloss' & Hlen).
    + lia.
    + by rewrite (rf_could_wandb _ _ Hf).
    + exact Hmode1.
    + intros j Hj. rewrite (rf_raises _ _ Hf), Hcalls, <- Nat.add_assoc.
      apply Hok. lia.
    + rewrite (rf_raises _ _ Hf), Hcalls, <- Nat.add_assoc. exact Hr.
    + eexists m', (_ :: losses). cbn [for_range].
      rewrite run_bind, Hrun, Hrun', Hloss', Hloss, <- app_assoc.
      split_and!; [done|done|]. cbn. by rewrite Hlen.
Qed.

(** C2, as amended: an error raised by the MetricSink in a training or
    validation batch step is not caught.  When the sink is enabled and its
    first failing call is the one of the [k]-th step of the epoch (counting
    from 0), [train] (resp. [valid]) raises that error; the losses of the [k]
    steps before it are appended to the history, the loss of the failing step
    is not. *)
Theorem sink_failure_propagates (m : Mem) (k : nat) :
  could_wandb (self m) = true ->
  (forall j, j < k ->
     wandb_raises (world m) (wandb_calls (world m) + j) = false) ->
  wandb_raises (world m) (wandb_calls (world m) + k) = true ->
  (k < ld_len (trainloader (self m)) ->
   fst (train m) = Raised WandbError /\
   exists losses,
     train_loss (self (snd (train m))) = train_loss (self m) ++ losses /\
     length losses = k) /\
  (k < ld_len (validloader (self m)) ->
   fst (valid m) = Raised WandbError /\
   exists losses,
     valid_loss (self (snd (valid m))) = valid_loss (self m) ++ losses /\
     length losses = k).
Proof.
  intros Hcw Hok Hr. split; intros Hk.
  - rewrite train_unfold. cbn zeta. set (m0 := MkMem _ (world m)).
    destruct (train_loop_raises k (ld_len (trainloader (self m)))
                (S754_zero false) m0 Hk Hcw eq_refl Hok Hr)
      as (m' & losses & Hrun & Hloss & Hlen).
    rewrite Hrun. cbn [fst snd]. split; [done|]. by exists losses.
  - rewrite valid_unfold. cbn zeta. set (m0 := MkMem _ (world m)).
    destruct (valid_loop_raises k (ld_len (validloader (self m)))
                (S754_zero false) m0 Hk Hcw eq_refl Hok Hr)
      as (m' & losses & Hrun & Hloss & Hlen).
    rewrite Hrun. cbn [fst snd]. split; [done|]. by exists losses.
Qed.

End SinkFailure.

(** ** One epoch of a run *)

Section RunEpoch.

Context `{Torch}.

Lemma core_events_app (tr evs : list event) :
  core_events (tr ++ evs) = core_events tr ++ core_events evs.
Proof. apply List.filter_app. Qed.

Lemma core_events_train (cw : bool) (losses : list float) :
  core_events (flat_map (train_events cw) losses) =
  train_phase (length losses).
Proof.
  induction losses as [|x l IH]; [done|].
  cbn [flat_map]. rewrite core_events_app, IH.
  unfold train_phase. cbn [length replicate concat]. f_equal.
  destruct cw; reflexivity.
Qed.

Lemma core_events_valid (cw : bool) (losses : list float) :
  core_events (flat_map (valid_events cw) losses) =
  valid_phase (length losses).
Proof.
  induction losses as [|x l IH]; [done|].
  cbn [flat_map]. rewrite core_events_app, IH.
  unfold valid_phase. cbn [length replicate concat]. f_equal.
  destruct cw; reflexivity.
Qed.

Lemma sink_silent_eq (m m' : Mem) :
  could_wandb (self m') = could_wandb (self m) ->
  wandb_raises (world m') = wandb_raises (world m) ->
  wandb_calls (world m) <= wandb_calls (world m') ->
  sink_silent m -> sink_silent m'.
Proof.
  intros Hcw Hr Hc Hs Hcw' k Hk. rewrite Hr. apply Hs; [congruence|lia].
Qed.

Lemma wandb_returns (x : metric) (m : Mem) :
  sink_ok_now m ->
  could_wandb (self m) = true ->
  wandb x m =
  (Returned tt,
   MkMem (self m)
     (set_trace (trace (world m) ++ [Wandb x])
        (set_wandb_calls (S (wandb_calls (world m))) (world m)))).
Proof.
  intros Hs Hcw. unfold wandb. munfold. cbn. by rewrite (Hs Hcw).
Qed.

Lemma run_print {A : Type} (l : line) (k : unit -> M A) (m : Mem) :
  (print l ≫= k) m =
  k tt (MkMem (self m) (set_trace (trace (world m) ++ [Print l]) (world m))).
Proof. reflexivity. Qed.

Lemma run_get_self {A : Type} (k : Trainer -> M A) (m : Mem) :
  (get_self ≫= k) m = k (self m) m.
Proof. reflexivity. Qed.

Lemma run_get_world {A : Type} (k : World -> M A) (m : Mem) :
  (get_world ≫= k) m = k (world m) m.
Proof. reflexivity. Qed.

Lemma run_checkpoint_state_dict {A : Type} (k : state_dict -> M A) (m : Mem) :
  (checkpoint_state_dict ≫= k) m =
  k (StateDict (next_id (world m)) (storage (generator (self m))))
    (MkMem (self m)
       (set_trace
          (trace (world m) ++ [CheckpointStateDict (next_id (world m))])
          (set_next_id (S (next_id (world m))) (world m)))).
Proof. reflexivity. Qed.

Lemma get_pred_image_eq (m : Mem) :
  get_pred_image m =
  (Returned
     (to_grid_image
        (forward false (heap (world m) (storage (generator (self m))))
           (test_content_letters (self m)) (test_style_labels (self m)))),
   MkMem
     (set_generator
        (Module (storage (generator (self m))) false
           (grad (generator (self m)))) (self m))
     (set_trace (trace (world m) ++ [Forward false; MakeGrid]) (world m))).
Proof.
  destruct m as [t w]. unfold get_pred_image, set_mode, call_generator.
  munfold. cbn. by rewrite <- app_assoc.
Qed.

#[global] Instance same_preorder {X : Type} (f : Mem -> X) : PreOrder (same f).
Proof.
  split; [by intros m|]. intros m1 m2 m3 H12 H23. unfold same in *. congruence.
Qed.

End RunEpoch.

Ltac solve_same :=
  unfold train, valid, train_batch, valid_batch, update_best, truediv,
    set_mode, trainloader_get, validloader_get, call_generator, zero_grad,
    loss_backward, optim_step, take_state_dict, checkpoint_state_dict, wandb;
  repeat frame_step; reflexivity.

Section RunEpochSteps.

Context `{Torch}.

Lemma train_same_valid_loss : preserves (same (valid_loss ∘ self)) train.
Proof. solve_same. Qed.

Lemma train_same_test_images : preserves (same (test_images ∘ self)) train.
Proof. solve_same. Qed.

Lemma train_same_fs : preserves (same (fs ∘ world)) train.
Proof. solve_same. Qed.

Lemma valid_same_train_loss : preserves (same (train_loss ∘ self)) valid.
Proof. solve_same. Qed.

Lemma valid_same_test_images : preserves (same (test_images ∘ self)) valid.
Proof. solve_same. Qed.

Lemma valid_same_fs : preserves (same (fs ∘ world)) valid.
Proof. solve_same. Qed.

Lemma run_when_wandb {A : Type} (c : bool) (x : metric) (k : unit -> M A)
    (m : Mem) :
  c = could_wandb (self m) ->
  sink_ok_now m ->
  (when c (wandb x) ≫= k) m = k tt (sink_emit x m).
Proof.
  intros -> Hs. unfold sink_emit. rewrite run_bind.
  destruct (could_wandb (self m)) eqn:Hcw; [|reflexivity].
  unfold when. by rewrite (wandb_returns x m Hs Hcw).
Qed.

Lemma sink_emit_frame (x : metric) (m : Mem) : run_frame m (sink_emit x m).
Proof.
  unfold sink_emit. destruct (could_wandb (self m)); [|reflexivity].
  destruct m as [t w]. solve_run_frame.
Qed.

Lemma sink_emit_trace (x : metric) (m : Mem) :
  exists evs,
    trace (world (sink_emit x m)) = trace (world m) ++ evs /\
    core_events evs = [] /\
    (evs = [] \/ evs = [Wandb x]).
Proof.
  unfold sink_emit. destruct (could_wandb (self m)).
  - exists [Wandb x]. split_and!; [done|done|by right].
  - exists []. rewrite app_nil_r. split_and!; [done|done|by left].
Qed.

Lemma no_dump_train_events (cw : bool) (losses : list float) :
  List.filter is_dump (flat_map (train_events cw) losses) = [].
Proof.
  induction losses as [|x l IH]; [done|].
  cbn [flat_map]. rewrite List.filter_app, IH. by destruct cw.
Qed.

Lemma no_dump_valid_events (cw : bool) (losses : list float) :
  List.filter is_dump (flat_map (valid_events cw) losses) = [].
Proof.
  induction losses as [|x l IH]; [done|].
  cbn [flat_map]. rewrite List.filter_app, IH. by destruct cw.
Qed.

Lemma when_wandb_returns (c : bool) (x : metric) (m : Mem) :
  c = could_wandb (self m) ->
  sink_ok_now m ->
  when c (wandb x) m = (Returned tt, sink_emit x m).
Proof.
  intros -> Hs. unfold sink_emit.
  destruct (could_wandb (self m)) eqn:Hcw; [|reflexivity].
  unfold when. by rewrite (wandb_returns x m Hs Hcw).
Qed.

Lemma sink_emit_self (x : metric) (m : Mem) : self (sink_emit x m) = self m.
Proof. unfold sink_emit. by destruct (could_wandb (self m)). Qed.

Lemma sink_emit_heap (x : metric) (m : Mem) :
  heap (world (sink_emit x m)) = heap (world m).
Proof. unfold sink_emit. by destruct (could_wandb (self m)). Qed.

Lemma sink_emit_fs (x : metric) (m : Mem) :
  fs (world (sink_emit x m)) = fs (world m).
Proof. unfold sink_emit. by destruct (could_wandb (self m)). Qed.

Lemma run_modify_self {A : Type} (f : Trainer -> Trainer) (k : unit -> M A)
    (m : Mem) :
  (modify_self f ≫= k) m = k tt (MkMem (f (self m)) (world m)).
Proof. reflexivity. Qed.

(** The dict [run] pickles is the checkpoint of the trainer. *)
Lemma pickled_own_state_dict (sd : state_dict) (t : Trainer) (w : World) :
  sd_storage sd = storage (generator t) -> pickled sd t w = snapshot t w.
Proof. intros Hsd. unfold pickled, snapshot. by rewrite Hsd. Qed.

Lemma run_pickle_dump {A : Type} (d : trainer_data) (path : string)
    (k : unit -> M A) (m : Mem) :
  (pickle_dump d path ≫= k) m =
  k tt (MkMem (self m)
          (set_trace (trace (world m) ++ [PickleDump path])
             (set_fs (<[path := d]> (fs (world m))) (world m)))).
Proof. reflexivity. Qed.

(** With a silent sink and positive batch counts an epoch completes. *)
Lemma run_epoch_returns (epochs : Z * Z) (path : string) (epoch : Z)
    (m : Mem) :
  sink_silent m ->
  0 < ld_len (trainloader (self m)) ->
  0 < ld_len (validloader (self m)) ->
  exists m', run_epoch epochs path epoch m = (Returned tt, m') /\
             epoch_step path m m'.
Proof.
  intros Hs Hnt Hnv. unfold run_epoch.
  rewrite !run_print. set (ma := MkMem _ _).
  assert (run_frame m ma) as Hfa by (subst ma; solve_run_frame).
  rewrite run_bind.
  destruct (train_returns ma (sink_silent_frame _ _ Hfa Hs))
    as (mb & Hrun & Htl & Htr); [by rewrite (rf_train_len _ _ Hfa)|].
  pose proof (run_frame_train ma) as Hfb.
  pose proof (train_same_valid_loss ma) as Hb1.
  pose proof (train_same_test_images ma) as Hb2.
  pose proof (train_same_fs ma) as Hb3.
  rewrite Hrun in Hfb, Hb1, Hb2, Hb3 |- *.
  unfold same in Hb1, Hb2, Hb3. cbn [snd compose] in Hfb, Hb1, Hb2, Hb3.
  clear Hrun.
  rewrite !run_print. set (mc := MkMem _ _).
  assert (run_frame mb mc) as Hfc by (subst mc; solve_run_frame).
  assert (run_frame m mc) as Hmc by (do 2 (etrans; [eassumption|]); done).
  rewrite run_bind.
  destruct (valid_returns mc (sink_silent_frame _ _ Hmc Hs))
    as (m1 & Hrun & Hvl & Hvtr & Hheap & Hbf & Hf1);
    [by rewrite (rf_valid_len _ _ Hmc)|].
  pose proof (run_frame_valid mc) as Hfd.
  pose proof (valid_same_train_loss mc) as Hd1.
  pose proof (valid_same_test_images mc) as Hd2.
  pose proof (valid_same_fs mc) as Hd3.
  rewrite Hrun in Hfd, Hd1, Hd2, Hd3 |- *.
  unfold same in Hd1, Hd2, Hd3. cbn [snd compose] in Hfd, Hd1, Hd2, Hd3.
  clear Hrun.
  set (md := apply_policy _ m1) in *.
  assert (valid_loss (self md) = valid_loss (self m1)) as Hpvl.
  { subst md. unfold apply_policy. by destruct (leb _ _). }
  rewrite run_print. set (mp := MkMem _ _).
  rewrite run_bind, get_pred_image_eq.
  rewrite run_get_self. set (me := MkMem _ _).
  assert (run_frame md me) as Hfe by (subst me mp; solve_run_frame).
  assert (run_frame m me) as Hme by (do 2 (etrans; [eassumption|]); done).
  rewrite run_when_wandb;
    [|reflexivity|apply sink_silent_now, (sink_silent_frame _ _ Hme Hs)].
  match goal with
  | |- context [sink_emit ?x me] =>
      pose proof (sink_emit_frame x me) as Hff;
      pose proof (sink_emit_self x me) as Hself1;
      pose proof (sink_emit_heap x me) as Hheap1;
      pose proof (sink_emit_fs x me) as Hfs1;
      set (mf := sink_emit x me) in *
  end.
  rewrite run_modify_self. set (mi := MkMem _ _).
  rewrite run_checkpoint_state_dict. set (mj := MkMem _ _).
  rewrite run_get_self, run_get_world, run_pickle_dump.
  set (mg := MkMem _ _).
  assert (run_frame mf mg) as Hfg by (subst mg mj mi; solve_run_frame).
  assert (run_frame m mg) as Hmg by (do 2 (etrans; [eassumption|]); done).
  rewrite when_wandb_returns;
    [|subst mg mj mi; cbn; by rewrite Hself1
     |apply sink_silent_now, (sink_silent_frame _ _ Hmg Hs)].
  match goal with
  | |- context [sink_emit ?x mg] =>
      pose proof (sink_emit_self x mg) as Hself2;
      pose proof (sink_emit_heap x mg) as Hheap2;
      pose proof (sink_emit_fs x mg) as Hfs2;
      set (mh := sink_emit x mg) in *
  end.
  exists mh. split; [reflexivity|]. split.
  - eexists. rewrite Hself2. subst mg mj mi. cbn. rewrite Hself1.
    subst me mp. cbn.
    rewrite Hd1. subst mc. cbn. rewrite Htl. subst ma. cbn.
    split; [reflexivity|]. by rewrite train_losses_length, batches_length.
  - eexists. rewrite Hself2. subst mg mj mi. cbn. rewrite Hself1.
    subst me mp. cbn.
    rewrite Hpvl, Hvl. subst mc. cbn. rewrite Hb1. subst ma. cbn.
    split; [reflexivity|].
    unfold valid_losses. rewrite length_fmap, batches_length.
    apply (rf_valid_len _ _ Hfb).
  - eexists. rewrite Hself2. subst mg mj mi. cbn. rewrite Hself1.
    subst me mp. cbn.
    rewrite Hd2. subst mc. cbn. rewrite Hb2. subst ma. cbn. reflexivity.
  - rewrite Hfs2. subst mg mj mi. cbn.
    rewrite Hfs1. subst me mp. cbn. rewrite Hd3. subst mc. cbn. rewrite Hb3.
    subst ma. cbn. f_equal. rewrite Hself2. cbn.
    unfold pickled, snapshot. cbn. by rewrite Hheap2.
Qed.

End RunEpochSteps.

(** ** A run over a range of epochs *)

Section RunEpochs.

Context `{Torch}.

Lemma epochs_done_zero (path : string) (m : Mem) : epochs_done path 0 m m.
Proof.
  split.
  - exists []. by rewrite app_nil_r.
  - exists []. by rewrite app_nil_r.
  - exists []. by rewrite app_nil_r.
  - by left.
Qed.

Lemma epochs_done_step (path : string) (n : nat) (m m1 m' : Mem) :
  run_frame m m1 ->
  epoch_step path m m1 ->
  epochs_done path n m1 m' ->
  epochs_done path (S n) m m'.
Proof.
  intros Hf [(tl1 & Ht1 & Hl1) (vl1 & Hv1 & Hlv1) (img & Hi1) Hfs1]
         [(tl2 & Ht2 & Hl2) (vl2 & Hv2 & Hlv2) (imgs & Hi2 & Hli) Hfs2].
  rewrite (rf_train_len _ _ Hf) in *. rewrite (rf_valid_len _ _ Hf) in *.
  split.
  - exists (tl1 ++ tl2). rewrite Ht2, Ht1, <- app_assoc. split; [done|].
    rewrite length_app. lia.
  - exists (vl1 ++ vl2). rewrite Hv2, Hv1, <- app_assoc. split; [done|].
    rewrite length_app. lia.
  - exists (img :: imgs). rewrite Hi2, Hi1, <- app_assoc. split; [done|].
    cbn. by rewrite Hli.
  - right. split; [lia|].
    destruct Hfs2 as [(_ & ->)|(_ & ->)]; [done|].
    rewrite Hfs1. by rewrite insert_insert_eq.
Qed.

Lemma range_length (lo hi : Z) : length (range lo hi) = Z.to_nat (hi - lo).
Proof. unfold range. by rewrite length_fmap, length_seq. Qed.

Lemma for_each_run_epoch_returns (epochs : Z * Z) (path : string)
    (l : list Z) (m : Mem) :
  sink_silent m ->
  0 < ld_len (trainloader (self m)) ->
  0 < ld_len (validloader (self m)) ->
  exists m',
    for_each l (run_epoch epochs path) m = (Returned tt, m') /\
    epochs_done path (length l) m m'.
Proof.
  revert m. induction l as [|epoch l IH]; intros m Hs Hnt Hnv.
  - exists m. split; [done|apply epochs_done_zero].
  - destruct (run_epoch_returns epochs path epoch m Hs Hnt Hnv)
      as (m1 & Hrun & Hstep).
    pose proof (run_frame_run_epoch epochs path epoch m) as Hf.
    rewrite Hrun in Hf. cbn [snd] in Hf.
    destruct (IH m1) as (m' & Hrun' & Hdone).
    + by apply (sink_silent_frame _ _ Hf).
    + by rewrite (rf_train_len _ _ Hf).
    + by rewrite (rf_valid_len _ _ Hf).
    + exists m'. cbn [for_each length]. rewrite run_bind, Hrun, Hrun'.
      split; [done|]. by eapply epochs_done_step.
Qed.

(** With a silent sink and positive batch counts a run completes all the
    epochs of its range. *)
Lemma run_returns (epochs : Z * Z) (path : string) (m : Mem) :
  sink_silent m ->
  0 < ld_len (trainloader (self m)) ->
  0 < ld_len (validloader (self m)) ->
  exists m',
    run epochs path m = (Returned tt, m') /\
    epochs_done path (epoch_count epochs) m m'.
Proof.
  intros Hs Hnt Hnv. unfold run, epoch_count.
  rewrite <- (range_length (fst epochs) (snd epochs)).
  by apply for_each_run_epoch_returns.
Qed.

End RunEpochs.

(** ** The losses of a training epoch *)

Section TrainEpoch.

Context `{Torch}.

Lemma train_losses_lookup (penalty : float) (o : adam) (p : params)
    (bs : list batch) (k : nat) (b : batch) :
  bs !! k = Some b ->
  train_losses penalty o p bs !! k =
  Some (penalized_mse penalty true
          (snd (train_result penalty o p (take k bs))) b).
Proof.
  revert o p k. induction bs as [|b0 bs IH]; intros o p k Hk; [done|].
  destruct k as [|k]; cbn in *.
  - by injection Hk as ->.
  - by apply IH.
Qed.

(** C7: a training epoch over a positive number of batches, with a silent
    sink, appends to [train_loss], for each batch in turn, the penalty times
    the mean squared error between the generator's prediction on the current
    parameters and the target; it calls the loader, the generator,
    [zero_grad], [backward] and the optimizer step exactly once per batch, in
    that order; and it returns the arithmetic mean of the losses it
    appended. *)
Theorem train_epoch_records_penalized_mse (m : Mem) :
  sink_silent m ->
  0 < ld_len (trainloader (self m)) ->
  let t := self m in
  let n := ld_len (trainloader t) in
  let p := heap (world m) (storage (generator t)) in
  let bs := batches (trainloader t) n in
  let losses := train_losses (mse_penalty t) (gen_optim t) p bs in
  exists m' evs,
    train m = (Returned (mean losses), m') /\
    train_loss (self m') = train_loss t ++ losses /\
    length losses = n /\
    (forall k b,
       bs !! k = Some b ->
       losses !! k =
       Some (penalized_mse (mse_penalty t) true
               (snd (train_result (mse_penalty t) (gen_optim t) p
                       (take k bs))) b)) /\
    trace (world m') = trace (world m) ++ evs /\
    core_events evs = train_phase n.
Proof.
  intros Hs Hn. cbn zeta.
  destruct (train_returns m Hs Hn) as (m' & Hrun & Hloss & Htrace).
  eexists m', _. split_and!; [exact Hrun|exact Hloss| | |exact Htrace|].
  - by rewrite train_losses_length, batches_length.
  - intros k b Hk. by apply train_losses_lookup.
  - by rewrite core_events_train, train_losses_length, batches_length.
Qed.

End TrainEpoch.

(** ** Checkpoint round trip *)

Section RoundTrip.

Context `{Torch}.

Lemma pickle_load_some (path : string) (d : trainer_data) (m : Mem) :
  fs (world m) !! path = Some d ->
  pickle_load path m =
  (Returned d,
   MkMem (self m)
     (set_trace (trace (world m) ++ [PickleLoad path]) (world m))).
Proof. intros Hd. unfold pickle_load. munfold. cbn. by rewrite Hd. Qed.

Lemma run_getitem {A B : Type} (v : A) (key : string) (k : A -> M B)
    (m : Mem) :
  (getitem (Some v) key ≫= k) m = k v m.
Proof. reflexivity. Qed.

Lemma run_load_state_dict {A : Type} (p : params) (k : unit -> M A)
    (m : Mem) :
  (load_state_dict p ≫= k) m =
  k tt
    (MkMem (self m)
       (set_trace (trace (world m) ++ [LoadStateDict])
          (set_heap (store (storage (generator (self m))) p (heap (world m)))
             (world m)))).
Proof. reflexivity. Qed.

Lemma run_unpickled_state_dict {A : Type} (v : option params)
    (k : option state_dict -> M A) (m : Mem) :
  (unpickled_state_dict v ≫= k) m = k (fst (unpickled v m)) (snd (unpickled v m)).
Proof. destruct v; reflexivity. Qed.

Lemma unpickled_value (v : option params) (m : Mem) :
  (fun sd => heap (world (snd (unpickled v m))) (sd_storage sd)) <$>
    fst (unpickled v m) = v.
Proof.
  destruct v as [p|]; [|done]. cbn. unfold store. by rewrite Nat.eqb_refl.
Qed.

Lemma unpickled_self (v : option params) (m : Mem) :
  self (snd (unpickled v m)) = self m.
Proof. by destruct v. Qed.

Lemma unpickled_sink (v : option params) (m : Mem) :
  wandb_raises (world (snd (unpickled v m))) = wandb_raises (world m) /\
  wandb_calls (world (snd (unpickled v m))) = wandb_calls (world m).
Proof. by destruct v. Qed.

(** Replaying the history to the sink leaves the trainer and the tensors
    alone. *)
Lemma replay_same (c : bool) (t : Trainer) :
  preserves (same (fun m => (self m, heap (world m)))) (when c (replay t)).
Proof. unfold replay, wandb. repeat frame_step; reflexivity. Qed.

(** Loading a checkpoint written by [run]: the assignments, then the
    replay. *)
Lemma load_trainer_snapshot (path : string) (wandb_log : bool) (m0 : Mem)
    (t1 : Trainer) (w1 : World) :
  fs (world m0) !! path = Some (snapshot t1 w1) ->
  exists mA,
    load_trainer path wandb_log m0 =
      when (wandb_log && could_wandb (self mA)) (replay (self mA)) mA /\
    train_loss (self mA) = train_loss t1 /\
    valid_loss (self mA) = valid_loss t1 /\
    best_loss (self mA) = best_loss t1 /\
    test_images (self mA) = test_images t1 /\
    test_content_letters (self mA) = test_content_letters t1 /\
    test_style_letters (self mA) = test_style_letters t1 /\
    test_style_labels (self mA) = test_style_labels t1 /\
    (fun sd => heap (world mA) (sd_storage sd)) <$> best_params (self mA) =
      (fun sd => heap w1 (sd_storage sd)) <$> best_params t1 /\
    could_wandb (self mA) = could_wandb (self m0) /\
    wandb_raises (world mA) = wandb_raises (world m0) /\
    wandb_calls (world mA) = wandb_calls (world m0).
Proof.
  intros Hfile. unfold load_trainer.
  rewrite run_bind, (pickle_load_some _ _ _ Hfile).
  cbn [snapshot td_generator_params td_best_loss td_best_params
       td_test_content_letters td_test_style_letters td_test_style_labels
       td_test_images td_train_loss td_valid_loss].
  rewrite run_getitem, run_load_state_dict. cbn [self world].
  rewrite run_getitem, run_modify_self. cbn [self world].
  rewrite run_getitem, run_unpickled_state_dict, run_modify_self.
  repeat (rewrite run_getitem; rewrite run_modify_self; cbn [self world]).
  rewrite run_get_self.
  eexists. split; [reflexivity|]. cbn -[unpickled].
  rewrite !unpickled_self. cbn -[unpickled].
  match goal with
  | |- context [unpickled ?v ?m] => destruct (unpickled_sink v m) as [-> ->]
  end.
  split_and!; try reflexivity. apply unpickled_value.
Qed.

Lemma for_each_wandb_silent {A : Type} (l : list A) (f : A -> metric)
    (m : Mem) :
  sink_silent m ->
  could_wandb (self m) = true ->
  exists m',
    for_each l (fun x => wandb (f x)) m = (Returned tt, m') /\
    sink_silent m' /\ could_wandb (self m') = true.
Proof.
  revert m. induction l as [|x l IH]; intros m Hs Hcw.
  - by exists m.
  - cbn [for_each]. rewrite run_bind.
    rewrite (wandb_returns _ m (sink_silent_now m Hs) Hcw).
    apply IH; [|done]. eapply sink_silent_eq; [..|exact Hs]; cbn; try done. lia.
Qed.

Lemma replay_returns (c : bool) (t : Trainer) (m : Mem) :
  sink_silent m ->
  (c = true -> could_wandb (self m) = true) ->
  fst (when c (replay t) m) = Returned tt.
Proof.
  intros Hs Hc. destruct c; [|done]. specialize (Hc eq_refl).
  unfold when, replay. rewrite run_bind.
  rewrite (wandb_returns _ m (sink_silent_now m Hs) Hc).
  set (m1 := MkMem _ _).
  assert (sink_silent m1) as Hs1.
  { eapply sink_silent_eq; [..|exact Hs]; cbn; try done. lia. }
  destruct (for_each_wandb_silent (train_loss t)
              (fun loss => LogScalar "train_loss" loss) m1 Hs1 Hc)
    as (m2 & Hr2 & Hs2 & Hc2).
  rewrite run_bind, Hr2.
  destruct (for_each_wandb_silent (valid_loss t)
              (fun loss => LogScalar "valid_loss" loss) m2 Hs2 Hc2)
    as (m3 & Hr3 & Hs3 & Hc3).
  rewrite run_bind, Hr3.
  destruct (for_each_wandb_silent (test_images t)
              (fun img => LogImage "pred_image" img) m3 Hs3 Hc3)
    as (m4 & Hr4 & _).
  by rewrite Hr4.
Qed.

(** C5: a run of at least one epoch (silent sink, positive batch counts)
    leaves at the path a checkpoint of its final state.  Loading the file
    into any trainer, a fresh one in particular, gives it the saved
    [train_loss], [valid_loss], [best_loss], [test_images] and fixed test
    batch, and a [best_params] holding the saved parameter values; with a
    silent sink the load returns; and training continued after the load
    extends the restored histories. *)
Theorem checkpoint_round_trip (epochs : Z * Z) (path : string) (m : Mem) :
  sink_silent m ->
  0 < ld_len (trainloader (self m)) ->
  0 < ld_len (validloader (self m)) ->
  0 < epoch_count epochs ->
  exists m1,
    run epochs path m = (Returned tt, m1) /\
    forall (m0 : Mem) (wandb_log : bool),
      fs (world m0) !! path = fs (world m1) !! path ->
      let m2 := snd (load_trainer path wandb_log m0) in
      train_loss (self m2) = train_loss (self m1) /\
      valid_loss (self m2) = valid_loss (self m1) /\
      best_loss (self m2) = best_loss (self m1) /\
      test_images (self m2) = test_images (self m1) /\
      test_content_letters (self m2) = test_content_letters (self m1) /\
      test_style_letters (self m2) = test_style_letters (self m1) /\
      test_style_labels (self m2) = test_style_labels (self m1) /\
      (fun sd => heap (world m2) (sd_storage sd)) <$> best_params (self m2) =
        (fun sd => heap (world m1) (sd_storage sd)) <$>
          best_params (self m1) /\
      (sink_silent m0 ->
       fst (load_trainer path wandb_log m0) = Returned tt) /\
      train_loss (self m1) `prefix_of` train_loss (self (snd (train m2))) /\
      valid_loss (self m1) `prefix_of` valid_loss (self (snd (valid m2))) /\
      (forall epochs' path',
         train_loss (self m1) `prefix_of`
           train_loss (self (snd (run epochs' path' m2))) /\
         valid_loss (self m1) `prefix_of`
           valid_loss (self (snd (run epochs' path' m2)))).
Proof.
  intros Hs Hnt Hnv Hn.
  destruct (run_returns epochs path m Hs Hnt Hnv) as (m1 & Hrun & [_ _ _ Hfs]).
  destruct Hfs as [(Hz & _)|(_ & Hfs)]; [lia|].
  exists m1. split; [exact Hrun|]. intros m0 wandb_log Hfile. cbn zeta.
  rewrite Hfs, lookup_insert_eq in Hfile.
  destruct (load_trainer_snapshot path wandb_log m0 _ _ Hfile)
    as (mA & Hload & Ht & Hv & Hb & Hi & Hc & Hl & Hlab & Hbp & Hcw & Hr & Hcalls).
  rewrite Hload.
  pose proof (replay_same (wandb_log && could_wandb (self mA)) (self mA) mA)
    as Hsame.
  unfold same in Hsame. injection Hsame as Hself Hheap.
  set (m2 := snd (when _ (replay (self mA)) mA)) in *.
  rewrite Hself, Hheap, Ht, Hv, Hb, Hi, Hc, Hl, Hlab, Hbp.
  assert (train_loss (self m2) = train_loss (self m1)) as Ht2
      by by rewrite Hself.
  assert (valid_loss (self m2) = valid_loss (self m1)) as Hv2
      by by rewrite Hself.
  rewrite <- Ht2, <- Hv2.
  split_and!; try done.
  - intros Hs0. apply replay_returns.
    + eapply sink_silent_eq; [..|exact Hs0]; try done. lia.
    + intros [_ ?]%andb_true_iff. done.
  - apply (rf_train_loss _ _ (run_frame_train m2)).
  - apply (rf_valid_loss _ _ (run_frame_valid m2)).
  - intros epochs' path'.
    pose proof (run_frame_run epochs' path' m2) as []. done.
Qed.

End RoundTrip.

(** * Frames, failures and resumption

    What the methods leave alone, what they do when a loader is empty, a
    checkpoint is missing or incomplete or the sink fails, and what every
    completed epoch prints, emits and stores. *)

(** ** What a method leaves as it is *)

Ltac unfold_methods :=
  unfold run, run_epoch, pickle_dump, get_pred_image, load_trainer,
    pickle_load, getitem, load_state_dict, unpickled_state_dict,
    train, valid, train_batch, valid_batch, update_best, truediv,
    set_mode, trainloader_get, validloader_get, call_generator, zero_grad,
    loss_backward, optim_step, take_state_dict, checkpoint_state_dict.

Ltac solve_same_with tac :=
  unfold_methods; unfold wandb; repeat frame_step; tac.

Section Frames.

Context `{Torch}.

Lemma valid_same_model : preserves (same model_state) valid.
Proof. solve_same_with ltac:(reflexivity). Qed.

Lemma valid_same_training_side : preserves (same training_side) valid.
Proof. solve_same_with ltac:(reflexivity). Qed.

Lemma train_same_validation_side : preserves (same validation_side) train.
Proof. solve_same_with ltac:(reflexivity). Qed.

Lemma load_trainer_same_not_checkpointed (path : string) (wandb_log : bool) :
  preserves (same not_checkpointed) (load_trainer path wandb_log).
Proof. solve_same_with ltac:(reflexivity). Qed.

Lemma load_trainer_same_fs (path : string) (wandb_log : bool) :
  preserves (same (fs ∘ world)) (load_trainer path wandb_log).
Proof. solve_same_with ltac:(reflexivity). Qed.

Lemma run_same_other_files (epochs : Z * Z) (path p : string) :
  p <> path ->
  preserves (same (fun m => fs (world m) !! p)) (run epochs path).
Proof.
  intros Hp.
  solve_same_with
    ltac:(first [reflexivity | unfold same; cbn; by rewrite lookup_insert_ne]).
Qed.

#[global] Instance heap_elsewhere_preorder : PreOrder heap_elsewhere.
Proof.
  split.
  - intros m. by split.
  - intros m1 m2 m3 [Hs1 Hh1] [Hs2 Hh2]. split; [congruence|].
    intros a Ha. rewrite Hh2, Hh1; [done|done|congruence].
Qed.

Lemma train_heap_elsewhere : preserves heap_elsewhere train.
Proof.
  solve_same_with ltac:(split; [reflexivity|]; cbn; intros addr Haddr;
    unfold store; try reflexivity;
    match goal with
    | |- context [Nat.eqb ?x ?y] => by destruct (Nat.eqb_spec x y)
    end).
Qed.

Lemma train_mode (m : Mem) : training (generator (self (snd (train m)))) = true.
Proof.
  rewrite train_unfold. cbn zeta. set (m0 := MkMem _ (world m)).
  assert (preserves (same (fun m => training (generator (self m))))
            (for_range (ld_len (trainloader (self m))) train_batch
               (S754_zero false))) as Hsame
    by solve_same_with ltac:(reflexivity).
  specialize (Hsame m0). unfold same in Hsame.
  destruct (for_range _ _ _ m0) as [[a|e] m1]; cbn [snd] in *; [|done].
  by destruct (ld_len (trainloader (self m1))).
Qed.

Lemma valid_mode (m : Mem) :
  training (generator (self (snd (valid m)))) = false.
Proof.
  rewrite valid_unfold. cbn zeta. set (m0 := MkMem _ (world m)).
  assert (preserves (same (fun m => training (generator (self m))))
            (for_range (ld_len (validloader (self m))) valid_batch
               (S754_zero false))) as Hsame
    by solve_same_with ltac:(reflexivity).
  specialize (Hsame m0). unfold same in Hsame.
  destruct (for_range _ _ _ m0) as [[a|e] m1]; cbn [snd] in *; [|done].
  destruct (ld_len (validloader (self m1))); cbn [truediv raise snd]; [done|].
  cbn. unfold apply_policy. by destruct (leb _ _).
Qed.

(** X1: the fixed test batch is the batch of 25 that the constructor draws
    from the validation loader (which advances that loader by one call and
    leaves the training loader alone), converted to [float32]; and whatever
    their outcome, [train], [valid], [get_pred_image] and [run] never assign
    the three tensors of the test batch. *)
Theorem fixed_test_batch_is_drawn_once (gen : module) (tl vl : loader)
    (penalty lr : float) (cw : bool) (w : World) :
  let b := ld_get vl (ld_calls vl) (Some 25) in
  let m0 := init gen tl vl penalty lr cw w in
  (test_content_letters (self m0) = to_device_float32 (content_letters b) /\
   test_style_letters (self m0) = to_device_float32 (style_letters b) /\
   test_style_labels (self m0) = to_device_float32 (style_labels b) /\
   validloader (self m0) = next_call vl /\
   trainloader (self m0) = tl) /\
  (forall m : Mem,
     let fixed (m' : Mem) :=
       test_content_letters (self m') = test_content_letters (self m) /\
       test_style_letters (self m') = test_style_letters (self m) /\
       test_style_labels (self m') = test_style_labels (self m) in
     fixed (snd (train m)) /\ fixed (snd (valid m)) /\
     fixed (snd (get_pred_image m)) /\
     forall epochs path, fixed (snd (run epochs path m))).
Proof.
  cbn zeta. split; [by split_and!|]. intros m.
  pose proof (run_frame_train m) as [].
  pose proof (run_frame_valid m) as [].
  pose proof (run_frame_get_pred_image m) as [].
  split_and!; try done.
  intros epochs path. by pose proof (run_frame_run epochs path m) as [].
Qed.

(** X2: whatever their outcome, [valid] and [get_pred_image] leave the
    parameter values, the optimizer state, the accumulated gradients, the
    training history, the training loader, the sample images and the files as
    they are, and leave the generator in evaluation mode; [get_pred_image]
    also leaves the validation history, the validation loader and the
    best-model state as they are. *)
Theorem validation_never_updates_the_model (m : Mem) :
  let untouched (m' : Mem) :=
    heap (world m') = heap (world m) /\
    gen_optim (self m') = gen_optim (self m) /\
    grad (generator (self m')) = grad (generator (self m)) /\
    train_loss (self m') = train_loss (self m) /\
    trainloader (self m') = trainloader (self m) /\
    test_images (self m') = test_images (self m) /\
    fs (world m') = fs (world m) in
  untouched (snd (valid m)) /\
  training (generator (self (snd (valid m)))) = false /\
  untouched (snd (get_pred_image m)) /\
  training (generator (self (snd (get_pred_image m)))) = false /\
  validation_side (snd (get_pred_image m)) = validation_side m.
Proof.
  cbn zeta.
  pose proof (valid_same_model m) as Hm. unfold same, model_state in Hm.
  injection Hm as Hheap Hopt Hgrad _.
  pose proof (valid_same_training_side m) as Ht.
  unfold same, training_side in Ht. injection Ht as Htl Hld.
  pose proof (valid_same_test_images m) as Hi.
  pose proof (valid_same_fs m) as Hfs.
  split_and!; try done; try apply valid_mode.
  all: by rewrite get_pred_image_eq.
Qed.

(** X3: whatever its outcome, [train] leaves the validation history, the
    validation loader, [best_loss], [best_params], the sample images, the
    files and every tensor outside the generator's own storage as they are,
    and leaves the generator in training mode. *)
Theorem training_leaves_validation_state_alone (m : Mem) :
  let m' := snd (train m) in
  valid_loss (self m') = valid_loss (self m) /\
  validloader (self m') = validloader (self m) /\
  best_loss (self m') = best_loss (self m) /\
  best_params (self m') = best_params (self m) /\
  test_images (self m') = test_images (self m) /\
  fs (world m') = fs (world m) /\
  (forall a, a <> storage (generator (self m)) ->
             heap (world m') a = heap (world m) a) /\
  training (generator (self m')) = true.
Proof.
  cbn zeta.
  pose proof (train_same_validation_side m) as Hv.
  unfold same, validation_side in Hv. injection Hv as Hvl Hld Hbl Hbp _.
  pose proof (train_same_test_images m) as Hi.
  pose proof (train_same_fs m) as Hfs.
  pose proof (train_heap_elsewhere m) as [_ Hheap].
  split_and!; try done. apply train_mode.
Qed.

End Frames.

(** ** Invariants a method keeps *)

Section Keeping.

Context `{Torch}.

Section Rules.

Context (I : Mem -> Prop).

Lemma keeps_ret {A : Type} (a : A) : keeps I (mret a).
Proof. intros m Hm. exact Hm. Qed.

Lemma keeps_raise {A : Type} (e : exn) : keeps I (raise e : M A).
Proof. intros m Hm. exact Hm. Qed.

Lemma keeps_gets {A : Type} (f : Mem -> A) : keeps I (gets f).
Proof. intros m Hm. exact Hm. Qed.

Lemma keeps_modify (f : Mem -> Mem) :
  (forall m, I m -> I (f m)) -> keeps I (modify f).
Proof. intros Hf m Hm. by apply Hf. Qed.

Lemma keeps_bind {A B : Type} (c : M A) (k : A -> M B) :
  keeps I c -> (forall a, keeps I (k a)) -> keeps I (c ≫= k).
Proof.
  intros Hc Hk m Hm. rewrite run_bind. specialize (Hc m Hm).
  destruct (c m) as [[a|e] m1]; cbn in *; [|done]. by apply Hk.
Qed.

(** The value read from the state satisfies what the invariant says of the
    state it is read from. *)
Lemma keeps_bind_gets {A B : Type} (f : Mem -> A) (k : A -> M B) :
  (forall m0, I m0 -> keeps I (k (f m0))) -> keeps I (gets f ≫= k).
Proof. intros Hk m Hm. by apply (Hk m Hm). Qed.

Lemma keeps_when (c : bool) (body : M unit) :
  (c = true -> keeps I body) -> keeps I (when c body).
Proof. destruct c; [by intros Hb; apply Hb|]. intros _. apply keeps_ret. Qed.

Lemma keeps_for_range {A : Type} (n : nat) (body : A -> M A) (acc : A) :
  (forall a, keeps I (body a)) -> keeps I (for_range n body acc).
Proof.
  intros Hb. revert acc. induction n as [|n IH]; intros acc; cbn [for_range].
  - apply keeps_ret.
  - apply keeps_bind; [apply Hb|apply IH].
Qed.

Lemma keeps_for_each {A : Type} (l : list A) (body : A -> M unit) :
  (forall a, keeps I (body a)) -> keeps I (for_each l body).
Proof.
  intros Hb. induction l as [|x l IH]; cbn [for_each].
  - apply keeps_ret.
  - apply keeps_bind; [apply Hb|intros _; apply IH].
Qed.

End Rules.

End Keeping.

(** One syntax-directed step of an invariant proof. *)
Ltac keeps_step :=
  lazymatch goal with
  | |- keeps ?I (mbind _ get_self) =>
      apply (keeps_bind_gets I); intros ? ?
  | |- keeps ?I (mbind _ get_world) =>
      apply (keeps_bind_gets I); intros ? ?
  | |- keeps ?I (mbind _ (gets _)) =>
      apply (keeps_bind_gets I); intros ? ?
  | |- keeps ?I (mbind _ _) => apply (keeps_bind I); [|intros ?]
  | |- keeps ?I (mret _) => apply (keeps_ret I)
  | |- keeps ?I (raise _) => apply (keeps_raise I)
  | |- keeps ?I (gets _) => apply (keeps_gets I)
  | |- keeps ?I get_self => apply (keeps_gets I)
  | |- keeps ?I get_world => apply (keeps_gets I)
  | |- keeps ?I (when _ _) => apply (keeps_when I); intros ?
  | |- keeps ?I (for_range _ _ _) => apply (keeps_for_range I); intros ?
  | |- keeps ?I (for_each _ _) => apply (keeps_for_each I); intros ?
  | |- keeps ?I (modify _) => apply (keeps_modify I); intros [? ?] ?
  | |- keeps ?I (modify_self _) => apply (keeps_modify I); intros [? ?] ?
  | |- keeps ?I (modify_world _) => apply (keeps_modify I); intros [? ?] ?
  | |- keeps ?I (emit _) => apply (keeps_modify I); intros [? ?] ?
  | |- keeps ?I (print _) => apply (keeps_modify I); intros [? ?] ?
  | |- keeps ?I (match ?x with _ => _ end) => destruct x eqn:?
  end.

(** ** A disabled sink *)

Section DisabledSink.

Context `{Torch}.

Lemma sink_events_snoc (tr : list event) (e : event) :
  is_wandb e = false -> sink_events (tr ++ [e]) = sink_events tr.
Proof.
  intros He. unfold sink_events. rewrite List.filter_app. cbn. rewrite He.
  apply app_nil_r.
Qed.

Local Ltac solve_untouched :=
  lazymatch goal with
  | |- keeps _ _ =>
      exfalso;
      match goal with
      | Hc : could_wandb (self ?m) = true, Hu : sink_untouched _ _ ?m |- _ =>
          destruct Hu as (Hcw & _); congruence
      | Hc : _ && could_wandb (self ?m) = true, Hu : sink_untouched _ _ ?m
        |- _ =>
          destruct Hu as (Hcw & _); apply andb_true_iff in Hc as [_ Hc];
          congruence
      end
  | Hu : sink_untouched _ _ _ |- sink_untouched _ _ _ =>
      destruct Hu as (? & ? & ?); split_and!; cbn -[sink_events] in *;
      first [assumption | by rewrite sink_events_snoc]
  end.

Lemma sink_untouched_train (n : nat) (evs : list event) :
  keeps (sink_untouched n evs) train.
Proof. unfold_methods. repeat keeps_step; solve_untouched. Qed.

Lemma sink_untouched_valid (n : nat) (evs : list event) :
  keeps (sink_untouched n evs) valid.
Proof. unfold_methods. repeat keeps_step; solve_untouched. Qed.

Lemma sink_untouched_run (n : nat) (evs : list event) (epochs : Z * Z)
    (path : string) :
  keeps (sink_untouched n evs) (run epochs path).
Proof. unfold_methods. repeat keeps_step; solve_untouched. Qed.

Lemma sink_untouched_load_trainer (n : nat) (evs : list event)
    (path : string) (wandb_log : bool) :
  keeps (sink_untouched n evs) (load_trainer path wandb_log).
Proof. unfold_methods. repeat keeps_step; solve_untouched. Qed.

(** X14: with [could_wandb] false, [train], [valid], [run] and
    [load_trainer] never call the MetricSink, whatever their outcome: the
    number of calls made to it and what it has received are unchanged. *)
Theorem disabled_sink_is_never_called (m : Mem) :
  could_wandb (self m) = false ->
  let quiet (m' : Mem) :=
    wandb_calls (world m') = wandb_calls (world m) /\
    sink_events (trace (world m')) = sink_events (trace (world m)) in
  quiet (snd (train m)) /\ quiet (snd (valid m)) /\
  (forall epochs path, quiet (snd (run epochs path m))) /\
  (forall path wandb_log, quiet (snd (load_trainer path wandb_log m))).
Proof.
  intros Hcw. cbn zeta.
  assert (sink_untouched (wandb_calls (world m))
            (sink_events (trace (world m))) m) as Hu by done.
  pose proof (sink_untouched_train _ _ m Hu) as (_ & ? & ?).
  pose proof (sink_untouched_valid _ _ m Hu) as (_ & ? & ?).
  split; [done|]. split; [done|]. split.
  - intros epochs path.
    by destruct (sink_untouched_run _ _ epochs path m Hu) as (_ & ? & ?).
  - intros path wandb_log.
    by destruct (sink_untouched_load_trainer _ _ path wandb_log m Hu)
      as (_ & ? & ?).
Qed.

End DisabledSink.

(** ** The best-model state *)

Section BestState.

Context `{Torch}.

Lemma valid_keeps_not_nan (m : Mem) :
  is_nan (best_loss (self m)) = false ->
  is_nan (best_loss (self (snd (valid m)))) = false.
Proof.
  intros Hb.
  destruct (valid_outcome m) as (m1 & [Hbl _ _ _] & _ & [(e & Hv)|(a & Hv)]);
    rewrite Hv; cbn [snd]; [congruence|].
  unfold apply_policy. destruct (leb a (best_loss (self m1))) eqn:Hle.
  - by destruct (leb_not_nan _ _ Hle).
  - congruence.
Qed.

Lemma run_keeps_not_nan (epochs : Z * Z) (path : string) (m : Mem) :
  is_nan (best_loss (self m)) = false ->
  is_nan (best_loss (self (snd (run epochs path m)))) = false.
Proof.
  intros Hb. destruct (policy_rel_run epochs path m) as (pevs & _ & Htr).
  by destruct (policy_trace_min _ _ _ _ _ Htr Hb) as (_ & Hnan & _).
Qed.

Lemma valid_rejects_nan (m : Mem) (a : float) (m' : Mem) :
  valid m = (Returned a, m') ->
  is_nan a = true ->
  best_loss (self m') = best_loss (self m) /\
  best_params (self m') = best_params (self m).
Proof.
  intros Hrun Ha.
  destruct (valid_outcome m) as (m1 & [Hbl Hbp _ _] & _ & [(e & Hv)|(a' & Hv)]);
    rewrite Hv in Hrun; [done|].
  injection Hrun as -> <-. unfold apply_policy.
  destruct (leb a (best_loss (self m1))) eqn:Hle; [|done].
  destruct (leb_not_nan _ _ Hle). congruence.
Qed.

(** X6: NaN is never the best loss.  If [best_loss] is not NaN (the
    sentinel [1e5] of a new trainer is not), it is not NaN after [train],
    [valid], [get_pred_image] or [run], whatever their outcome; and a
    validation epoch whose mean is NaN changes neither [best_loss] nor
    [best_params]. *)
Theorem best_loss_is_never_nan (m : Mem) :
  is_nan (best_loss (self m)) = false ->
  is_nan (best_loss (self (snd (train m)))) = false /\
  is_nan (best_loss (self (snd (valid m)))) = false /\
  is_nan (best_loss (self (snd (get_pred_image m)))) = false /\
  (forall epochs path,
     is_nan (best_loss (self (snd (run epochs path m)))) = false) /\
  (forall a m',
     valid m = (Returned a, m') -> is_nan a = true ->
     best_loss (self m') = best_loss (self m) /\
     best_params (self m') = best_params (self m)).
Proof.
  intros Hb. split_and!.
  - by rewrite (bf_best_loss _ _ (best_frame_train m)).
  - by apply valid_keeps_not_nan.
  - by rewrite (bf_best_loss _ _ (best_frame_get_pred_image m)).
  - intros epochs path. by apply run_keeps_not_nan.
  - intros a m'. apply valid_rejects_nan.
Qed.

Lemma live_apply_policy (a : float) (m : Mem) :
  best_params_live m -> best_params_live (apply_policy a m).
Proof.
  intros Hl. unfold apply_policy. destruct (leb a (best_loss (self m))); [|done].
  intros sd. cbn. by intros [= <-].
Qed.

Lemma live_frames (m m' : Mem) :
  best_frame m m' -> run_frame m m' ->
  best_params_live m -> best_params_live m'.
Proof.
  intros Hb Hr Hl sd. rewrite (bf_best_params _ _ Hb), (rf_storage _ _ Hr).
  apply Hl.
Qed.

Lemma live_valid : keeps best_params_live valid.
Proof.
  intros m Hl.
  destruct (valid_outcome m) as (m1 & Hb & Hr & [(e & Hv)|(a & Hv)]);
    rewrite Hv; cbn [snd].
  - by apply (live_frames m).
  - by apply live_apply_policy, (live_frames m).
Qed.

Lemma live_run (epochs : Z * Z) (path : string) :
  keeps best_params_live (run epochs path).
Proof.
  unfold run, run_epoch, pickle_dump, checkpoint_state_dict, get_pred_image,
    train, train_batch, truediv, set_mode, trainloader_get, call_generator,
    zero_grad, loss_backward, optim_step, wandb.
  repeat keeps_step; first [apply live_valid | assumption].
Qed.

(** X7: a run of at least one epoch (silent sink, positive batch counts)
    that starts with [best_params] equal to [None] (a new trainer) or to a
    state dict of its own generator leaves a checkpoint whose [best_params]
    is [None] or holds exactly the values of its [generator_params]: the
    state dict the policy stores shares the storage of the generator, so it
    holds the current parameters, not those of the best epoch. *)
Theorem checkpoint_best_params_are_generator_params (epochs : Z * Z)
    (path : string) (m : Mem) :
  best_params_live m ->
  sink_silent m ->
  0 < ld_len (trainloader (self m)) ->
  0 < ld_len (validloader (self m)) ->
  0 < epoch_count epochs ->
  exists m' d,
    run epochs path m = (Returned tt, m') /\
    fs (world m') !! path = Some d /\
    td_generator_params d =
      Some (heap (world m') (storage (generator (self m')))) /\
    (td_best_params d = Some None \/
     td_best_params d = Some (td_generator_params d)) /\
    (forall sd, best_params (self m') = Some sd ->
                heap (world m') (sd_storage sd) =
                  heap (world m') (storage (generator (self m')))).
Proof.
  intros Hl Hs Hnt Hnv Hn.
  destruct (run_returns epochs path m Hs Hnt Hnv) as (m' & Hrun & [_ _ _ Hfs]).
  destruct Hfs as [(Hz & _)|(_ & Hfs)]; [lia|].
  pose proof (live_run epochs path m Hl) as Hl'. rewrite Hrun in Hl'.
  cbn [snd] in Hl'.
  exists m', (snapshot (self m') (world m')). split_and!.
  - exact Hrun.
  - rewrite Hfs. apply lookup_insert_eq.
  - reflexivity.
  - cbn. destruct (best_params (self m')) as [sd|] eqn:Hbp; [|by left].
    right. cbn. by rewrite (Hl' sd).
  - intros sd Hsd. by rewrite (Hl' sd Hsd).
Qed.

End BestState.

(** ** Loading a checkpoint *)

Ltac load_leaf Hfile :=
  unfold load_trainer, pickle_load, load_state_dict, unpickled_state_dict,
    getitem;
  munfold; cbn; rewrite Hfile; cbn.

Section Load.

Context `{Torch}.

Lemma load_trainer_complete (path : string) (wandb_log : bool) (m : Mem)
    (gp : params) (bl : float) (bp : option params) (tc tl tb : tensor)
    (ti : list image) (trl vl : list float) :
  fs (world m) !! path =
    Some (TrainerData (Some gp) (Some bl) (Some bp) (Some tc) (Some tl)
            (Some tb) (Some ti) (Some trl) (Some vl)) ->
  let mA := restored path gp bl bp tc tl tb ti trl vl m in
  load_trainer path wandb_log m =
  when (wandb_log && could_wandb (self m)) (replay (self mA)) mA.
Proof.
  intros Hfile. cbn zeta. unfold load_trainer.
  rewrite run_bind, (pickle_load_some _ _ _ Hfile).
  cbn [td_generator_params td_best_loss td_best_params
       td_test_content_letters td_test_style_letters td_test_style_labels
       td_test_images td_train_loss td_valid_loss].
  rewrite run_getitem, run_load_state_dict. cbn [self world].
  rewrite run_getitem, run_modify_self. cbn [self world].
  rewrite run_getitem, run_unpickled_state_dict, run_modify_self.
  repeat (rewrite run_getitem; rewrite run_modify_self; cbn [self world]).
  rewrite run_get_self. unfold restored. destruct bp; reflexivity.
Qed.

Lemma world_eta (w : World) :
  MkWorld (heap w) (next_addr w) (next_id w) (wandb_raises w) (wandb_calls w)
    (fs w) (trace w) = w.
Proof. by destruct w. Qed.

Lemma sink_emits_nil (m : Mem) : sink_emits [] m = m.
Proof.
  destruct m as [t w]. unfold sink_emits, set_trace, set_wandb_calls. cbn.
  by rewrite app_nil_r, Nat.add_0_r, world_eta.
Qed.

Lemma sink_emits_app (evs evs' : list event) (m : Mem) :
  sink_emits evs' (sink_emits evs m) = sink_emits (evs ++ evs') m.
Proof.
  unfold sink_emits, set_trace, set_wandb_calls. cbn.
  by rewrite <- app_assoc, length_app, Nat.add_assoc.
Qed.

Lemma sink_emits_silent (evs : list event) (m : Mem) :
  sink_silent m -> sink_silent (sink_emits evs m).
Proof.
  intros Hs. eapply sink_silent_eq; [..|exact Hs]; cbn; try done. lia.
Qed.

Lemma wandb_emits (x : metric) (m : Mem) :
  sink_silent m ->
  could_wandb (self m) = true ->
  wandb x m = (Returned tt, sink_emits [Wandb x] m).
Proof.
  intros Hs Hcw. rewrite (wandb_returns _ m (sink_silent_now m Hs) Hcw).
  unfold sink_emits. cbn. by rewrite Nat.add_1_r.
Qed.

(** Emissions to a silent, enabled sink arrive in order, one call each. *)
Lemma for_each_wandb_trace {A : Type} (l : list A) (f : A -> metric)
    (m : Mem) :
  sink_silent m ->
  could_wandb (self m) = true ->
  for_each l (fun x => wandb (f x)) m =
  (Returned tt, sink_emits ((fun x => Wandb (f x)) <$> l) m).
Proof.
  revert m. induction l as [|x l IH]; intros m Hs Hcw.
  - cbn [for_each fmap list_fmap]. by rewrite sink_emits_nil.
  - cbn [for_each]. rewrite run_bind, (wandb_emits _ m Hs Hcw).
    rewrite IH; [|by apply sink_emits_silent|done].
    by rewrite sink_emits_app.
Qed.

Lemma replay_trace (t : Trainer) (m : Mem) :
  sink_silent m ->
  could_wandb (self m) = true ->
  replay t m = (Returned tt, sink_emits (replay_events t) m).
Proof.
  intros Hs Hcw. unfold replay.
  rewrite run_bind, (wandb_emits _ m Hs Hcw).
  rewrite run_bind, for_each_wandb_trace;
    [|by apply sink_emits_silent|done].
  rewrite run_bind, for_each_wandb_trace;
    [|by repeat apply sink_emits_silent|done].
  rewrite for_each_wandb_trace; [|by repeat apply sink_emits_silent|done].
  rewrite !sink_emits_app. unfold replay_events.
  rewrite <- ?app_assoc. reflexivity.
Qed.

Lemma unpickled_trace (v : option params) (m : Mem) :
  trace (world (snd (unpickled v m))) = trace (world m).
Proof. by destruct v. Qed.

Lemma replay_same_self (c : bool) (t : Trainer) (m : Mem) :
  self (snd (when c (replay t) m)) = self m /\
  heap (world (snd (when c (replay t) m))) = heap (world m).
Proof.
  pose proof (replay_same c t m) as Hsame. unfold same in Hsame.
  by injection Hsame.
Qed.

Lemma load_trainer_no_file (path : string) (wandb_log : bool) (m : Mem) :
  fs (world m) !! path = None ->
  load_trainer path wandb_log m = (Raised (FileNotFoundError path), m).
Proof.
  intros Hnone. unfold load_trainer, pickle_load. munfold. cbn.
  by rewrite Hnone.
Qed.

(** X10: what [load_trainer] does on a complete checkpoint (whose
    [generator_params] fit the generator, as every [params] does) with a
    silent sink: the file is read and the generator parameters are loaded, and
    then, when [wandb_log] and [could_wandb] are both true, the sink receives
    the saved [best_loss], every saved training loss, every saved validation
    loss and every saved sample image, in that order, one call each;
    otherwise the sink receives nothing. *)
Theorem load_trainer_replays_history (path : string) (wandb_log : bool)
    (m : Mem) (gp : params) (bl : float) (bp : option params)
    (tc tl tb : tensor) (ti : list image) (trl vl : list float) :
  fs (world m) !! path =
    Some (TrainerData (Some gp) (Some bl) (Some bp) (Some tc) (Some tl)
            (Some tb) (Some ti) (Some trl) (Some vl)) ->
  sink_silent m ->
  let sent :=
    if wandb_log && could_wandb (self m) then
      Wandb (ConfigUpdate "best_loss" bl) ::
      ((fun x => Wandb (LogScalar "train_loss" x)) <$> trl) ++
      ((fun x => Wandb (LogScalar "valid_loss" x)) <$> vl) ++
      ((fun img => Wandb (LogImage "pred_image" img)) <$> ti)
    else [] in
  let m' := snd (load_trainer path wandb_log m) in
  trace (world m') =
    trace (world m) ++ [PickleLoad path; LoadStateDict] ++ sent /\
  wandb_calls (world m') = wandb_calls (world m) + length sent.
Proof.
  intros Hfile Hs. cbn zeta.
  rewrite (load_trainer_complete _ _ _ _ _ _ _ _ _ _ _ _ Hfile).
  set (mA := restored _ _ _ _ _ _ _ _ _ _ m).
  assert (trace (world mA) =
          trace (world m) ++ [PickleLoad path; LoadStateDict]) as Htr.
  { subst mA. unfold restored. cbn -[unpickled].
    by rewrite unpickled_trace, <- app_assoc. }
  assert (wandb_calls (world mA) = wandb_calls (world m)) as Hcalls.
  { subst mA. unfold restored. cbn -[unpickled].
    match goal with
    | |- context [unpickled ?v ?m] => by destruct (unpickled_sink v m) as [_ ->]
    end. }
  assert (wandb_raises (world mA) = wandb_raises (world m)) as Hraises.
  { subst mA. unfold restored. cbn -[unpickled].
    match goal with
    | |- context [unpickled ?v ?m] => by destruct (unpickled_sink v m) as [-> _]
    end. }
  assert (could_wandb (self mA) = could_wandb (self m)) as Hcw by done.
  destruct (wandb_log && could_wandb (self m)) eqn:Hc.
  - apply andb_true_iff in Hc as [_ Hc]. unfold when.
    rewrite replay_trace.
    + unfold sink_emits.
      cbn [snd self world trace wandb_calls set_trace set_wandb_calls].
      rewrite Htr, Hcalls, <- app_assoc. done.
    + eapply sink_silent_eq; [..|exact Hs]; try done. lia.
    + congruence.
  - cbn [when mret M_ret ret snd]. rewrite Htr, Hcalls.
    cbn [length app]. by rewrite Nat.add_0_r.
Qed.

(** X8: [load_trainer] is not atomic.  On a missing file it raises
    [FileNotFoundError] and changes nothing.  On a record [d], whatever the
    outcome, each attribute holds the value stored under its key when that
    key and all the keys read before it are present, and keeps its old value
    otherwise: a [KeyError] leaves the attributes read before the missing key
    overwritten and the later ones untouched, even when their keys are
    present. *)
Theorem load_trainer_assigns_until_first_missing_key (path : string)
    (wandb_log : bool) (m : Mem) :
  (fs (world m) !! path = None ->
   load_trainer path wandb_log m = (Raised (FileNotFoundError path), m)) /\
  (forall d,
     fs (world m) !! path = Some d ->
     let m' := snd (load_trainer path wandb_log m) in
     best_loss (self m') = assigned d 1 (best_loss (self m)) (td_best_loss d) /\
     match td_best_params d with
     | Some v =>
         if read_upto d 2
         then (fun sd => heap (world m') (sd_storage sd)) <$>
                best_params (self m') = v
         else best_params (self m') = best_params (self m)
     | None => best_params (self m') = best_params (self m)
     end /\
     test_content_letters (self m') =
       assigned d 3 (test_content_letters (self m))
         (td_test_content_letters d) /\
     test_style_letters (self m') =
       assigned d 4 (test_style_letters (self m)) (td_test_style_letters d) /\
     test_style_labels (self m') =
       assigned d 5 (test_style_labels (self m)) (td_test_style_labels d) /\
     test_images (self m') =
       assigned d 6 (test_images (self m)) (td_test_images d) /\
     train_loss (self m') =
       assigned d 7 (train_loss (self m)) (td_train_loss d) /\
     valid_loss (self m') =
       assigned d 8 (valid_loss (self m)) (td_valid_loss d)).
Proof.
  split; [apply load_trainer_no_file|].
  intros d Hfile. cbn zeta.
  destruct d as [gp bl bp tc tl tb ti trl vl].
  destruct gp as [gp|]; [|load_leaf Hfile; by destruct bp].
  destruct bl as [bl|]; [|load_leaf Hfile; by destruct bp].
  destruct bp as [bp|]; [|load_leaf Hfile; done].
  destruct tc as [tc|];
    [|load_leaf Hfile; destruct bp; cbn; unfold store;
      rewrite ?Nat.eqb_refl; done].
  destruct tl as [tl|];
    [|load_leaf Hfile; destruct bp; cbn; unfold store;
      rewrite ?Nat.eqb_refl; done].
  destruct tb as [tb|];
    [|load_leaf Hfile; destruct bp; cbn; unfold store;
      rewrite ?Nat.eqb_refl; done].
  destruct ti as [ti|];
    [|load_leaf Hfile; destruct bp; cbn; unfold store;
      rewrite ?Nat.eqb_refl; done].
  destruct trl as [trl|];
    [|load_leaf Hfile; destruct bp; cbn; unfold store;
      rewrite ?Nat.eqb_refl; done].
  destruct vl as [vl|];
    [|load_leaf Hfile; destruct bp; cbn; unfold store;
      rewrite ?Nat.eqb_refl; done].
  rewrite (load_trainer_complete _ _ _ _ _ _ _ _ _ _ _ _ Hfile).
  match goal with
  | |- context [when ?c (replay ?t) ?mA] =>
      destruct (replay_same_self c t mA) as [-> ->]
  end.
  unfold restored. destruct bp; cbn; unfold store; rewrite ?Nat.eqb_refl; done.
Qed.

(** X9: what [load_trainer] restores and what it does not.  Whatever its
    outcome it leaves the optimizer state, the generator object (its storage,
    mode and gradients), the two loaders, [mse_penalty], [could_wandb] and the
    files as they are: the Adam state and the loader positions of the saved
    run are not restored.  When the record has [generator_params] and the
    generator's storage is allocated, the generator holds the saved parameter
    values afterwards, copied into its own storage. *)
Theorem load_trainer_restores_parameters_not_optimizer (path : string)
    (wandb_log : bool) (m : Mem) :
  let m' := snd (load_trainer path wandb_log m) in
  gen_optim (self m') = gen_optim (self m) /\
  generator (self m') = generator (self m) /\
  trainloader (self m') = trainloader (self m) /\
  validloader (self m') = validloader (self m) /\
  mse_penalty (self m') = mse_penalty (self m) /\
  could_wandb (self m') = could_wandb (self m) /\
  fs (world m') = fs (world m) /\
  (forall d p,
     fs (world m) !! path = Some d ->
     td_generator_params d = Some p ->
     storage (generator (self m)) < next_addr (world m) ->
     heap (world m') (storage (generator (self m'))) = p).
Proof.
  cbn zeta.
  pose proof (load_trainer_same_not_checkpointed path wandb_log m) as Hsame.
  unfold same, not_checkpointed in Hsame.
  injection Hsame as Ho Hg Htl Hvl Hp Hcw.
  pose proof (load_trainer_same_fs path wandb_log m) as Hfs.
  unfold same in Hfs. cbn in Hfs.
  split_and!; try done.
  intros d p Hfile Hgp Hfresh. rewrite Hg. clear Ho Hg Htl Hvl Hp Hcw Hfs.
  assert (forall q : params,
            store (next_addr (world m)) q
              (store (storage (generator (self m))) p (heap (world m)))
              (storage (generator (self m))) = p) as Hstore.
  { intros q. unfold store. rewrite Nat.eqb_refl.
    destruct (Nat.eqb_spec (storage (generator (self m)))
                (next_addr (world m))); [lia|done]. }
  assert (store (storage (generator (self m))) p (heap (world m))
            (storage (generator (self m))) = p) as Hstore0.
  { unfold store. by rewrite Nat.eqb_refl. }
  destruct d as [gp bl bp tc tl tb ti trl vl]. cbn in Hgp. subst gp.
  destruct bl as [bl|]; [|load_leaf Hfile; done].
  destruct bp as [bp|]; [|load_leaf Hfile; done].
  destruct tc as [tc|]; [|load_leaf Hfile; destruct bp; cbn; done].
  destruct tl as [tl|]; [|load_leaf Hfile; destruct bp; cbn; done].
  destruct tb as [tb|]; [|load_leaf Hfile; destruct bp; cbn; done].
  destruct ti as [ti|]; [|load_leaf Hfile; destruct bp; cbn; done].
  destruct trl as [trl|]; [|load_leaf Hfile; destruct bp; cbn; done].
  destruct vl as [vl|]; [|load_leaf Hfile; destruct bp; cbn; done].
  rewrite (load_trainer_complete _ _ _ _ _ _ _ _ _ _ _ _ Hfile).
  match goal with
  | |- context [when ?c (replay ?t) ?mA] =>
      destruct (replay_same_self c t mA) as [_ ->]
  end.
  unfold restored. destruct bp; cbn; done.
Qed.

(** X11: the [best_params] of a loaded checkpoint is a snapshot.  After
    loading a complete checkpoint whose [best_params] is a state dict, into a
    trainer whose generator's storage is allocated, [best_params] holds the
    saved best values in storage of its own and the generator holds the saved
    parameters; a training epoch after the load, whatever its outcome, leaves
    the values [best_params] holds as they are. *)
Theorem loaded_best_params_survive_training (path : string)
    (wandb_log : bool) (m : Mem) (gp : params) (bl : float) (bp : params)
    (tc tl tb : tensor) (ti : list image) (trl vl : list float) :
  fs (world m) !! path =
    Some (TrainerData (Some gp) (Some bl) (Some (Some bp)) (Some tc) (Some tl)
            (Some tb) (Some ti) (Some trl) (Some vl)) ->
  storage (generator (self m)) < next_addr (world m) ->
  let m1 := snd (load_trainer path wandb_log m) in
  exists sd,
    best_params (self m1) = Some sd /\
    sd_storage sd <> storage (generator (self m1)) /\
    heap (world m1) (sd_storage sd) = bp /\
    heap (world m1) (storage (generator (self m1))) = gp /\
    best_params (self (snd (train m1))) = Some sd /\
    heap (world (snd (train m1))) (sd_storage sd) = bp.
Proof.
  intros Hfile Hfresh. cbn zeta.
  rewrite (load_trainer_complete _ _ _ _ _ _ _ _ _ _ _ _ Hfile).
  set (mA := restored _ _ _ _ _ _ _ _ _ _ m).
  set (m1 := snd (when _ (replay (self mA)) mA)).
  destruct (replay_same_self (wandb_log && could_wandb (self m)) (self mA) mA)
    as [Hself Hheap].
  fold m1 in Hself, Hheap.
  pose proof (train_same_validation_side m1) as Hv.
  unfold same, validation_side in Hv. injection Hv as _ _ _ Hbp _.
  pose proof (train_heap_elsewhere m1) as [_ Helse].
  exists (StateDict (next_id (world m)) (next_addr (world m))).
  rewrite Hbp, Hself, Hheap.
  assert (next_addr (world m) <> storage (generator (self m))) as Hne by lia.
  split_and!; try done.
  - subst mA. unfold restored. cbn -[Nat.eqb]. unfold store.
    by rewrite Nat.eqb_refl.
  - subst mA. unfold restored. cbn -[Nat.eqb]. unfold store.
    rewrite Nat.eqb_refl.
    destruct (Nat.eqb_spec (storage (generator (self m)))
                (next_addr (world m))); [lia|done].
  - rewrite Helse; [|by rewrite Hself].
    rewrite Hheap. subst mA. unfold restored. cbn -[Nat.eqb]. unfold store.
    by rewrite Nat.eqb_refl.
Qed.

(** X20: loading a complete checkpoint and saving again gives the same
    record.  After [load_trainer] on a complete record, into a trainer whose
    generator's storage is allocated and whatever the outcome of the replay,
    the dict that [run] would pickle from the trainer is the record that was
    loaded, field by field. *)
Theorem snapshot_after_load_is_the_record (path : string) (wandb_log : bool)
    (m : Mem) (gp : params) (bl : float) (bp : option params)
    (tc tl tb : tensor) (ti : list image) (trl vl : list float) :
  fs (world m) !! path =
    Some (TrainerData (Some gp) (Some bl) (Some bp) (Some tc) (Some tl)
            (Some tb) (Some ti) (Some trl) (Some vl)) ->
  storage (generator (self m)) < next_addr (world m) ->
  let m' := snd (load_trainer path wandb_log m) in
  snapshot (self m') (world m') =
  TrainerData (Some gp) (Some bl) (Some bp) (Some tc) (Some tl) (Some tb)
    (Some ti) (Some trl) (Some vl).
Proof.
  intros Hfile Hfresh. cbn zeta.
  rewrite (load_trainer_complete _ _ _ _ _ _ _ _ _ _ _ _ Hfile).
  set (mA := restored _ _ _ _ _ _ _ _ _ _ m).
  destruct (replay_same_self (wandb_log && could_wandb (self m)) (self mA) mA)
    as [Hself Hheap].
  unfold snapshot. rewrite Hself, Hheap. subst mA. unfold restored.
  destruct bp as [bp|]; cbn -[Nat.eqb]; unfold store; rewrite ?Nat.eqb_refl.
  - by destruct (Nat.eqb_spec (storage (generator (self m)))
                   (next_addr (world m))); [lia|].
  - done.
Qed.

End Load.

(** ** The histories *)

Section Histories.

Context `{Torch}.

(** C6, as amended: a run with a silent sink and positive batch counts that
    starts from empty histories completes its [N] epochs with [N] times the
    training batch count entries in [train_loss] and [N] times the validation
    batch count entries in [valid_loss]; whatever their outcome, [train],
    [valid], [get_pred_image] and [run] only append to the two histories;
    [load_trainer] does not: on a complete checkpoint it replaces both
    histories by the saved ones, whatever they held. *)
Theorem histories_grow_until_loaded (epochs : Z * Z) (path : string)
    (m : Mem) :
  train_loss (self m) = [] ->
  valid_loss (self m) = [] ->
  sink_silent m ->
  0 < ld_len (trainloader (self m)) ->
  0 < ld_len (validloader (self m)) ->
  (exists m',
     run epochs path m = (Returned tt, m') /\
     length (train_loss (self m')) =
       epoch_count epochs * ld_len (trainloader (self m)) /\
     length (valid_loss (self m')) =
       epoch_count epochs * ld_len (validloader (self m))) /\
  (forall m0 : Mem,
     let appends (m1 : Mem) :=
       train_loss (self m0) `prefix_of` train_loss (self m1) /\
       valid_loss (self m0) `prefix_of` valid_loss (self m1) in
     appends (snd (train m0)) /\ appends (snd (valid m0)) /\
     appends (snd (get_pred_image m0)) /\
     forall epochs' path', appends (snd (run epochs' path' m0))) /\
  (forall (m0 : Mem) (path' : string) (wandb_log : bool) (gp : params)
          (bl : float) (bp : option params) (tc tl tb : tensor)
          (ti : list image) (trl vl : list float),
     fs (world m0) !! path' =
       Some (TrainerData (Some gp) (Some bl) (Some bp) (Some tc) (Some tl)
               (Some tb) (Some ti) (Some trl) (Some vl)) ->
     let m1 := snd (load_trainer path' wandb_log m0) in
     train_loss (self m1) = trl /\ valid_loss (self m1) = vl).
Proof.
  intros Ht Hv Hs Hnt Hnv. split_and!.
  - destruct (run_returns epochs path m Hs Hnt Hnv)
      as (m' & Hrun & [(tl & Htl & Hlt) (vl & Hvl & Hlv) _ _]).
    exists m'. rewrite Htl, Hvl, Ht, Hv. by split_and!.
  - intros m0 appends. subst appends. cbn beta.
    pose proof (run_frame_train m0) as [].
    pose proof (run_frame_valid m0) as [].
    pose proof (run_frame_get_pred_image m0) as [].
    split_and!; try done.
    intros epochs' path'. by pose proof (run_frame_run epochs' path' m0) as [].
  - intros m0 path' wandb_log gp bl bp tc tl tb ti trl vl Hfile. cbn zeta.
    rewrite (load_trainer_complete _ _ _ _ _ _ _ _ _ _ _ _ Hfile).
    match goal with
    | |- context [when ?c (replay ?t) ?mA] =>
        destruct (replay_same_self c t mA) as [-> _]
    end.
    done.
Qed.

End Histories.

(** ** The state a training epoch leaves *)

Section TrainState.

Context `{Torch}.

Lemma ld_calls_iter (n : nat) (l : loader) :
  ld_calls (Nat.iter n next_call l) = ld_calls l + n.
Proof.
  induction n as [|n IH]; [cbn; lia|].
  change (Nat.iter (S n) next_call l) with (next_call (Nat.iter n next_call l)).
  cbn [next_call ld_calls]. rewrite IH. lia.
Qed.

Lemma iter_next_call_S (n : nat) (l : loader) :
  Nat.iter n next_call (next_call l) = Nat.iter (S n) next_call l.
Proof.
  induction n as [|n IH]; [done|].
  change (Nat.iter (S n) next_call (next_call l))
    with (next_call (Nat.iter n next_call (next_call l))).
  by rewrite IH.
Qed.

Lemma train_loop_loader (n : nat) (avg : float) (m : Mem) :
  sink_silent m ->
  training (generator (self m)) = true ->
  trainloader (self (snd (for_range n train_batch avg m))) =
  Nat.iter n next_call (trainloader (self m)).
Proof.
  revert avg m. induction n as [|n IH]; intros avg m Hs Hmode; [done|].
  destruct (train_batch_returns avg m (sink_silent_now m Hs) Hmode)
    as (m1 & Hrun & _ & _ & _ & _ & Hmode1 & Hloader & _).
  pose proof (run_frame_train_batch avg m) as Hf. rewrite Hrun in Hf.
  cbn [snd] in Hf. cbn [for_range]. rewrite run_bind, Hrun.
  rewrite IH; [|by apply (sink_silent_frame _ _ Hf)|done].
  by rewrite Hloader, iter_next_call_S.
Qed.

(** A training epoch that completes: its mean, its losses, its events, and
    the optimizer state and parameters it leaves. *)
Lemma train_returns_state (m : Mem) :
  sink_silent m ->
  0 < ld_len (trainloader (self m)) ->
  let t := self m in
  let p := heap (world m) (storage (generator t)) in
  let bs := batches (trainloader t) (ld_len (trainloader t)) in
  let losses := train_losses (mse_penalty t) (gen_optim t) p bs in
  let r := train_result (mse_penalty t) (gen_optim t) p bs in
  exists m',
    train m = (Returned (mean losses), m') /\
    train_loss (self m') = train_loss t ++ losses /\
    trace (world m') =
      trace (world m) ++ flat_map (train_events (could_wandb t)) losses /\
    gen_optim (self m') = fst r /\
    heap (world m') (storage (generator (self m'))) = snd r /\
    ld_calls (trainloader (self m')) =
      ld_calls (trainloader t) + ld_len (trainloader t).
Proof.
  intros Hs Hlen. cbn zeta.
  pose proof (run_frame_train m) as Hf.
  revert Hf. rewrite train_unfold. cbn zeta.
  set (m0 := MkMem _ (world m)).
  destruct (train_loop_returns (ld_len (trainloader (self m)))
              (S754_zero false) m0)
    as (m' & Hrun & Hloss & Htrace & Hopt & Hheap); [exact Hs|reflexivity|].
  pose proof (train_loop_loader (ld_len (trainloader (self m)))
                (S754_zero false) m0 Hs eq_refl) as Hld.
  pose proof (preserves_for_range run_frame (ld_len (trainloader (self m)))
                train_batch (S754_zero false) run_frame_train_batch m0) as Hf0.
  rewrite Hrun in *. cbn [snd] in Hf0, Hld.
  rewrite (rf_train_len _ _ Hf0). change (self m0) with (set_generator
    (Module (storage (generator (self m))) true (grad (generator (self m))))
    (self m)). cbn [set_generator trainloader].
  rewrite truediv_pos by done. intros Hf. cbn [snd] in Hf.
  exists m'. split_and!; try done.
  - unfold mean. by rewrite train_losses_length, batches_length.
  - by rewrite (rf_storage _ _ Hf).
  - rewrite Hld. apply ld_calls_iter.
Qed.

(** X4: a training epoch over a positive number [n] of batches, with a
    silent sink, returns and leaves the optimizer state and the generator's
    parameter values that [n] successive updates give, each update being one
    optimizer step on the gradients of one batch taken from zeroed gradients
    on the parameters the previous update left; it draws [n] batches from the
    training loader and none from the validation loader. *)
Theorem train_epoch_applies_one_update_per_batch (m : Mem) :
  sink_silent m ->
  0 < ld_len (trainloader (self m)) ->
  let t := self m in
  let n := ld_len (trainloader t) in
  let bs := batches (trainloader t) n in
  let r :=
    train_result (mse_penalty t) (gen_optim t)
      (heap (world m) (storage (generator t))) bs in
  exists a m',
    train m = (Returned a, m') /\
    gen_optim (self m') = fst r /\
    heap (world m') (storage (generator (self m'))) = snd r /\
    ld_calls (trainloader (self m')) = ld_calls (trainloader t) + n /\
    ld_calls (validloader (self m')) = ld_calls (validloader t).
Proof.
  intros Hs Hlen. cbn zeta.
  destruct (train_returns_state m Hs Hlen)
    as (m' & Hrun & _ & _ & Hopt & Hheap & Hld).
  pose proof (train_same_validation_side m) as Hv.
  unfold same, validation_side in Hv. rewrite Hrun in Hv.
  injection Hv as _ Hvld _ _ _.
  eexists _, m'. split_and!; try done. by rewrite Hvld.
Qed.

Lemma train_zero_state (m : Mem) :
  ld_len (trainloader (self m)) = 0 ->
  train m =
  (Raised ZeroDivisionError,
   MkMem (set_generator
            (Module (storage (generator (self m))) true
               (grad (generator (self m)))) (self m)) (world m)).
Proof.
  intros Hlen. rewrite train_unfold. cbn zeta. rewrite Hlen.
  cbn [for_range]. munfold. cbn. by rewrite Hlen.
Qed.

Lemma valid_zero_state (m : Mem) :
  ld_len (validloader (self m)) = 0 ->
  valid m =
  (Raised ZeroDivisionError,
   MkMem (set_generator
            (Module (storage (generator (self m))) false
               (grad (generator (self m)))) (self m)) (world m)).
Proof.
  intros Hlen. rewrite valid_unfold. cbn zeta. rewrite Hlen.
  cbn [for_range]. munfold. cbn. by rewrite Hlen.
Qed.

Lemma range_cons (lo hi : Z) :
  (lo < hi)%Z -> range lo hi = lo :: range (lo + 1) hi.
Proof.
  intros Hlt. unfold range.
  replace (Z.to_nat (hi - lo)) with (S (Z.to_nat (hi - (lo + 1)))) by lia.
  cbn [seq fmap list_fmap]. f_equal; [lia|].
  rewrite <- seq_shift, <- list_fmap_compose. apply list_fmap_ext.
  intros _ k _. cbn. lia.
Qed.

Lemma range_empty (lo hi : Z) : (hi <= lo)%Z -> range lo hi = [].
Proof.
  intros Hle. unfold range. by replace (Z.to_nat (hi - lo)) with 0 by lia.
Qed.

Lemma run_first_epoch (epochs : Z * Z) (path : string) (m : Mem) :
  0 < epoch_count epochs ->
  run epochs path m =
  match run_epoch epochs path (fst epochs) m with
  | (Returned _, m1) =>
      for_each (range (fst epochs + 1) (snd epochs))
        (run_epoch epochs path) m1
  | (Raised e, m1) => (Raised e, m1)
  end.
Proof.
  intros Hn. unfold run, epoch_count in *.
  rewrite range_cons by lia. cbn [for_each]. rewrite run_bind.
  by destruct (run_epoch _ _ _ _) as [[[]|e] m1].
Qed.

(** X15: a run over a non-empty range with an empty loader fails in its
    first epoch without writing a checkpoint.  With no training batches it
    raises [ZeroDivisionError] before anything is computed: parameters,
    histories, sample images and files are unchanged.  With training batches
    but no validation batches (and a silent sink) the whole training pass is
    done first: its losses are appended and the parameters are updated, then
    [ZeroDivisionError] is raised; nothing is written, and the validation
    history, the sample images and the best-model state are unchanged. *)
Theorem run_with_empty_loader_writes_no_checkpoint (epochs : Z * Z)
    (path : string) (m : Mem) :
  0 < epoch_count epochs ->
  (ld_len (trainloader (self m)) = 0 ->
   exists m',
     run epochs path m = (Raised ZeroDivisionError, m') /\
     fs (world m') = fs (world m) /\
     heap (world m') = heap (world m) /\
     train_loss (self m') = train_loss (self m) /\
     valid_loss (self m') = valid_loss (self m) /\
     test_images (self m') = test_images (self m)) /\
  (sink_silent m ->
   0 < ld_len (trainloader (self m)) ->
   ld_len (validloader (self m)) = 0 ->
   exists m' losses,
     run epochs path m = (Raised ZeroDivisionError, m') /\
     fs (world m') = fs (world m) /\
     train_loss (self m') = train_loss (self m) ++ losses /\
     length losses = ld_len (trainloader (self m)) /\
     heap (world m') (storage (generator (self m'))) =
       snd (train_result (mse_penalty (self m)) (gen_optim (self m))
              (heap (world m) (storage (generator (self m))))
              (batches (trainloader (self m))
                 (ld_len (trainloader (self m))))) /\
     valid_loss (self m') = valid_loss (self m) /\
     test_images (self m') = test_images (self m) /\
     best_loss (self m') = best_loss (self m) /\
     best_params (self m') = best_params (self m)).
Proof.
  intros Hn. split.
  - intros Hlen. rewrite (run_first_epoch _ _ _ Hn). unfold run_epoch.
    rewrite !run_print, run_bind, train_zero_state by exact Hlen.
    eexists. split; [reflexivity|]. by split_and!.
  - intros Hs Hnt Hnv. rewrite (run_first_epoch _ _ _ Hn). unfold run_epoch.
    rewrite !run_print. set (ma := MkMem _ _).
    assert (run_frame m ma) as Hfa by (subst ma; solve_run_frame).
    destruct (train_returns_state ma (sink_silent_frame _ _ Hfa Hs))
      as (mb & Hrun & Htl & _ & _ & Hheap & _);
      [by rewrite (rf_train_len _ _ Hfa)|].
    pose proof (run_frame_train ma) as Hfb.
    pose proof (train_same_validation_side ma) as Hb1.
    pose proof (train_same_test_images ma) as Hb2.
    pose proof (train_same_fs ma) as Hb3.
    rewrite Hrun in Hfb, Hb1, Hb2, Hb3. rewrite run_bind, Hrun.
    unfold same, validation_side in Hb1, Hb2, Hb3.
    cbn [snd compose] in Hfb, Hb1, Hb2, Hb3.
    injection Hb1 as Hvl Hvld Hbl Hbp _.
    rewrite !run_print, run_bind, valid_zero_state;
      [|cbn; by rewrite Hvld].
    eexists _, _. split; [reflexivity|]. cbn.
    split_and!; try done.
    by rewrite train_losses_length, batches_length.
Qed.

End TrainState.

(** ** What the policy stores *)

Section StoredStateDict.

Context `{Torch}.


End StoredStateDict.

(** ** A failing sink, again *)

Section SinkFailureState.

Context `{Torch}.

Lemma train_batch_raises_state (avg : float) (m : Mem) :
  could_wandb (self m) = true ->
  wandb_raises (world m) (wandb_calls (world m)) = true ->
  let t := self m in
  let b := ld_get (trainloader t) (ld_calls (trainloader t)) None in
  let p := heap (world m) (storage (generator t)) in
  let r := train_update (mse_penalty t) (gen_optim t) p b in
  exists m',
    train_batch avg m = (Raised WandbError, m') /\
    train_loss (self m') = train_loss t /\
    gen_optim (self m') = fst r /\
    heap (world m') (storage (generator t)) = snd r.
Proof.
  destruct m as [t w]. cbn. intros Hcw Hr.
  unfold train_batch, trainloader_get, call_generator, zero_grad,
    loss_backward, optim_step, wandb.
  munfold. cbn. rewrite Hcw. cbn. rewrite Hr. cbn.
  eexists. split; [reflexivity|]. cbn. unfold train_update, store.
  by rewrite Nat.eqb_refl.
Qed.

(** The sink fails at the step of index [k]: the losses of the [k] steps
    before it are recorded, the updates of [k + 1] steps are applied. *)
Lemma train_loop_raises_state (k n : nat) (avg : float) (m : Mem) :
  k < n ->
  could_wandb (self m) = true ->
  training (generator (self m)) = true ->
  (forall j, j < k ->
     wandb_raises (world m) (wandb_calls (world m) + j) = false) ->
  wandb_raises (world m) (wandb_calls (world m) + k) = true ->
  let t := self m in
  let p := heap (world m) (storage (generator t)) in
  let r :=
    train_result (mse_penalty t) (gen_optim t) p
      (batches (trainloader t) (S k)) in
  exists m',
    for_range n train_batch avg m = (Raised WandbError, m') /\
    train_loss (self m') =
      train_loss t ++
      train_losses (mse_penalty t) (gen_optim t) p
        (batches (trainloader t) k) /\
    gen_optim (self m') = fst r /\
    heap (world m') (storage (generator t)) = snd r.
Proof.
  revert n avg m. induction k as [|k IH]; intros n avg m Hk Hcw Hmode Hok Hr;
    cbn zeta.
  - destruct n as [|n]; [lia|]. rewrite Nat.add_0_r in Hr.
    destruct (train_batch_raises_state avg m Hcw Hr)
      as (m' & Hrun & Hloss & Hopt & Hheap).
    exists m'. cbn [for_range]. rewrite run_bind, Hrun, batches_S.
    cbn. by rewrite app_nil_r.
  - destruct n as [|n]; [lia|].
    assert (sink_ok_now m) as Hnow.
    { intros _. rewrite <- (Nat.add_0_r (wandb_calls _)). apply Hok. lia. }
    destruct (train_batch_returns avg m Hnow Hmode)
      as (m1 & Hrun & Hloss & _ & Hopt & Hheap & Hmode1 & Hloader & Hcalls).
    pose proof (run_frame_train_batch avg m) as Hf. rewrite Hrun in Hf.
    cbn [snd] in Hf. rewrite Hcw in Hcalls.
    destruct (IH n (add avg
                (penalized_mse (mse_penalty (self m)) true
                   (heap (world m) (storage (generator (self m))))
                   (ld_get (trainloader (self m))
                      (ld_calls (trainloader (self m))) None))) m1)
      as (m' & Hrun' & Hloss' & Hopt' & Hheap').
    + lia.
    + by rewrite (rf_could_wandb _ _ Hf).
    + exact Hmode1.
    + intros j Hj. rewrite (rf_raises _ _ Hf), Hcalls, <- Nat.add_assoc.
      apply Hok. lia.
    + rewrite (rf_raises _ _ Hf), Hcalls, <- Nat.add_assoc. exact Hr.
    + exists m'. cbn [for_range]. rewrite run_bind, Hrun, Hrun'.
      rewrite (rf_mse_penalty _ _ Hf), (rf_storage _ _ Hf), Hopt, Hheap,
        Hloader in *.
      rewrite (batches_S _ (S k)), (batches_S _ k).
      cbn [train_losses train_result].
      rewrite Hloss', Hloss, <- app_assoc. done.
Qed.

(** X5: when the sink is enabled and its first failing call is the one of
    the training step of index [k], [train] raises with the history and the
    model out of step: the losses of the [k] steps before the failing one are
    recorded, and the optimizer steps of [k + 1] batches are applied, since
    the emission comes after the optimizer step and before the append. *)
Theorem sink_failure_leaves_the_step_applied (m : Mem) (k : nat) :
  could_wandb (self m) = true ->
  (forall j, j < k ->
     wandb_raises (world m) (wandb_calls (world m) + j) = false) ->
  wandb_raises (world m) (wandb_calls (world m) + k) = true ->
  k < ld_len (trainloader (self m)) ->
  let t := self m in
  let p := heap (world m) (storage (generator t)) in
  let r :=
    train_result (mse_penalty t) (gen_optim t) p
      (batches (trainloader t) (S k)) in
  exists m',
    train m = (Raised WandbError, m') /\
    train_loss (self m') =
      train_loss t ++
      train_losses (mse_penalty t) (gen_optim t) p
        (batches (trainloader t) k) /\
    gen_optim (self m') = fst r /\
    heap (world m') (storage (generator (self m'))) = snd r.
Proof.
  intros Hcw Hok Hr Hk. cbn zeta.
  pose proof (run_frame_train m) as Hf. revert Hf.
  rewrite train_unfold. cbn zeta. set (m0 := MkMem _ (world m)).
  destruct (train_loop_raises_state k (ld_len (trainloader (self m)))
              (S754_zero false) m0 Hk Hcw eq_refl Hok Hr)
    as (m' & Hrun & Hloss & Hopt & Hheap).
  rewrite Hrun. cbn [snd]. intros Hf.
  exists m'. split_and!; try done. by rewrite (rf_storage _ _ Hf).
Qed.

End SinkFailureState.

(** ** What a completed epoch prints, emits and stores *)

Section EpochSpec.

Context `{Torch}.

(** The end of an epoch: rendering, emission, append, checkpoint, emission. *)
Lemma run_epoch_tail_spec (path : string) (m : Mem) :
  sink_silent m ->
  let t := self m in
  let cw := could_wandb t in
  let img :=
    to_grid_image
      (forward false (heap (world m) (storage (generator t)))
         (test_content_letters t) (test_style_labels t)) in
  let t' :=
    set_test_images (test_images t ++ [img])
      (set_generator
         (Module (storage (generator t)) false (grad (generator t))) t) in
  exists w',
    (pred_image ← get_pred_image;
     t ← get_self;
     when (could_wandb t) (wandb (LogImage "pred_image" pred_image));;
     modify_self (fun t => set_test_images (test_images t ++ [pred_image]) t);;
     generator_params ← checkpoint_state_dict;
     t ← get_self;
     w ← get_world;
     let trainer_data := pickled generator_params t w in
     pickle_dump trainer_data path;;
     when (could_wandb t) (wandb (ConfigUpdate "best_loss" (best_loss t)))) m
    = (Returned tt, MkMem t' w') /\
    heap w' = heap (world m) /\
    next_id w' = S (next_id (world m)) /\
    fs w' = <[path := snapshot t' w']> (fs (world m)) /\
    trace w' =
      trace (world m) ++ [Forward false; MakeGrid] ++
      (if cw then [Wandb (LogImage "pred_image" img)] else []) ++
      checkpoint_phase path (next_id (world m)) ++
      (if cw then [Wandb (ConfigUpdate "best_loss" (best_loss t))] else []).
Proof.
  destruct m as [t w]. intros Hs. unfold sink_silent in Hs. cbn in Hs.
  cbn zeta. cbn [self world].
  unfold get_pred_image, set_mode, call_generator, pickle_dump,
    checkpoint_state_dict, wandb.
  munfold. cbn.
  destruct (could_wandb t) eqn:Hcw; cbn.
  - rewrite (Hs eq_refl (wandb_calls w)) by lia. cbn. rewrite Hcw. cbn.
    rewrite (Hs eq_refl (S (wandb_calls w))) by lia. cbn.
    eexists. split; [reflexivity|]. cbn. rewrite <- !app_assoc.
    by split_and!.
  - rewrite Hcw. cbn.
    eexists. split; [reflexivity|]. cbn. rewrite <- !app_assoc.
    by split_and!.
Qed.

(** The whole of an epoch that completes. *)
Lemma run_epoch_spec (epochs : Z * Z) (path : string) (epoch : Z) (m : Mem) :
  sink_silent m ->
  0 < ld_len (trainloader (self m)) ->
  0 < ld_len (validloader (self m)) ->
  let t := self m in
  let p0 := heap (world m) (storage (generator t)) in
  let bs_t := batches (trainloader t) (ld_len (trainloader t)) in
  let tlosses := train_losses (mse_penalty t) (gen_optim t) p0 bs_t in
  let r := train_result (mse_penalty t) (gen_optim t) p0 bs_t in
  let bs_v := batches (validloader t) (ld_len (validloader t)) in
  let vlosses := valid_losses (mse_penalty t) (snd r) bs_v in
  let accepted := leb (mean vlosses) (best_loss t) in
  let best := if accepted then mean vlosses else best_loss t in
  let taken := StateDict (next_id (world m)) (storage (generator t)) in
  let policy := if accepted then [TakeStateDict (sd_id taken)] else [] in
  let img :=
    to_grid_image
      (forward false (snd r) (test_content_letters t) (test_style_labels t)) in
  exists m',
    run_epoch epochs path epoch m = (Returned tt, m') /\
    trace (world m') =
      trace (world m) ++
      epoch_trace path (epoch + 1) (snd epochs) (could_wandb t) tlosses
        vlosses policy (next_id (world m) + length policy) img best /\
    train_loss (self m') = train_loss t ++ tlosses /\
    valid_loss (self m') = valid_loss t ++ vlosses /\
    test_images (self m') = test_images t ++ [img] /\
    gen_optim (self m') = fst r /\
    heap (world m') (storage (generator (self m'))) = snd r /\
    best_loss (self m') = best /\
    training (generator (self m')) = false /\
    fs (world m') = <[path := snapshot (self m') (world m')]> (fs (world m)) /\
    best_params (self m') = (if accepted then Some taken else best_params t).
Proof.
  intros Hs Hnt Hnv. cbn zeta. unfold run_epoch.
  rewrite !run_print. set (ma := MkMem _ _).
  assert (run_frame m ma) as Hfa by (subst ma; solve_run_frame).
  destruct (train_returns_state ma (sink_silent_frame _ _ Hfa Hs))
    as (mb & Hrun & Htl & Htr & Hopt & Hheap & _);
    [by rewrite (rf_train_len _ _ Hfa)|].
  pose proof (run_frame_train ma) as Hfb.
  pose proof (train_same_validation_side ma) as Hb1.
  pose proof (train_same_test_images ma) as Hb2.
  pose proof (train_same_fs ma) as Hb3.
  rewrite Hrun in Hfb, Hb1, Hb2, Hb3. rewrite run_bind, Hrun. clear Hrun.
  unfold same, validation_side in Hb1, Hb2, Hb3.
  cbn [snd compose] in Hfb, Hb1, Hb2, Hb3.
  injection Hb1 as Hvl0 Hvld Hbl Hbp Hid.
  subst ma. cbn [self world heap trace set_trace fs next_id] in *.
  rewrite !run_print. set (mc := MkMem _ _).
  assert (run_frame mb mc) as Hfc by (subst mc; solve_run_frame).
  assert (run_frame m mc) as Hmc by (do 2 (etrans; [eassumption|]); done).
  destruct (valid_returns mc (sink_silent_frame _ _ Hmc Hs))
    as (m1 & Hrun & Hvl & Hvtr & Hheap1 & Hbf & Hf1);
    [by rewrite (rf_valid_len _ _ Hmc)|].
  pose proof (run_frame_valid mc) as Hfd.
  pose proof (valid_same_model mc) as Hd0.
  pose proof (valid_same_training_side mc) as Hd1.
  pose proof (valid_same_test_images mc) as Hd2.
  pose proof (valid_same_fs mc) as Hd3.
  rewrite Hrun in Hfd, Hd0, Hd1, Hd2, Hd3. rewrite run_bind, Hrun. clear Hrun.
  unfold same, model_state, training_side in Hd0, Hd1, Hd2, Hd3.
  cbn [snd compose] in Hfd, Hd0, Hd1, Hd2, Hd3.
  injection Hd0 as Hdheap Hdopt _ Hdst. injection Hd1 as Hdtl _.
  destruct Hbf as [Hbl1 Hbp1 Hid1 _].
  pose proof (rf_storage _ _ Hf1) as Hst1.
  pose proof (rf_storage _ _ Hmc) as Hst0.
  subst mc. cbn [self world heap trace set_trace fs next_id] in *.
  pose proof (rf_mse_penalty _ _ Hfb) as Hpen.
  pose proof (rf_could_wandb _ _ Hfb) as Hcw.
  cbn [self] in Hpen, Hcw.
  rewrite ?Hpen, ?Hcw, ?Hheap, ?Hvld in *.
  set (vlosses := valid_losses _ _ _) in *.
  set (md := apply_policy (mean vlosses) m1) in *.
  rewrite run_print. set (mp := MkMem _ _).
  assert (run_frame md mp) as Hfp by (subst mp; solve_run_frame).
  assert (run_frame m mp) as Hmp by (do 2 (etrans; [eassumption|]); done).
  destruct (run_epoch_tail_spec path mp (sink_silent_frame _ _ Hmp Hs))
    as (w' & Hrun & Hheap' & _ & Hfs' & Htr').
  eexists. split; [exact Hrun|]. clear Hrun.
  assert (best_loss (self md) =
          (if leb (mean vlosses) (best_loss (self m))
           then mean vlosses else best_loss (self m)) /\
          trace (world md) =
            trace (world m1) ++
            (if leb (mean vlosses) (best_loss (self m))
             then [TakeStateDict (next_id (world m))] else []) /\
          valid_loss (self md) = valid_loss (self m1) /\
          best_params (self md) =
            (if leb (mean vlosses) (best_loss (self m))
             then Some (StateDict (next_id (world m))
                          (storage (generator (self m))))
             else best_params (self m)) /\
          next_id (world md) =
            next_id (world m) +
            length (if leb (mean vlosses) (best_loss (self m))
                    then [TakeStateDict (next_id (world m))] else []))
    as (Hbest & Hptr & Hpvl & Hbps & Hnid).
  { subst md. unfold apply_policy. cbn [self] in Hst1, Hst0.
    rewrite Hbl1, Hbl, Hid1, Hid, Hst1, Hst0.
    destruct (leb (mean vlosses) (best_loss (self m))); cbn.
    - split_and!; first [done | lia].
    - rewrite app_nil_r, Hbl1, Hbl, Hbp1, Hbp, Hid1, Hid.
      split_and!; first [done | lia]. }
  pose proof (rf_test_content _ _ Hmp) as Htc.
  pose proof (rf_test_labels _ _ Hmp) as Hlab.
  pose proof (rf_could_wandb _ _ Hmp) as Hcwp.
  pose proof (rf_storage _ _ Hfd) as Hst.
  subst mp.
  cbn [self world heap trace set_trace fs next_id set_test_images
       set_generator train_loss valid_loss test_images gen_optim best_loss
       generator training storage could_wandb test_content_letters
       test_style_labels] in *.
  rewrite Hheap', Hfs', Htr'.
  rewrite Htc, Hlab, Hcwp, Hst, Hdheap, Hheap, Hbest, Hptr,
    Hvtr, Htr, Hpvl, Hvl, Hvl0, Hdtl, Htl, Hd2, Hb2, Hdopt, Hopt, Hd3, Hb3.
  split_and!; try done.
  unfold epoch_trace. cbn [sd_id]. by rewrite Hnid, <- !app_assoc.
Qed.

Lemma printed_app (tr evs : list event) :
  printed (tr ++ evs) = printed tr ++ printed evs.
Proof. apply omap_app. Qed.

Lemma sink_events_app (tr evs : list event) :
  sink_events (tr ++ evs) = sink_events tr ++ sink_events evs.
Proof. apply List.filter_app. Qed.

Lemma printed_train_events (cw : bool) (losses : list float) :
  printed (flat_map (train_events cw) losses) = [].
Proof.
  induction losses as [|x l IH]; [done|].
  cbn [flat_map]. rewrite printed_app, IH. by destruct cw.
Qed.

Lemma printed_valid_events (cw : bool) (losses : list float) :
  printed (flat_map (valid_events cw) losses) = [].
Proof.
  induction losses as [|x l IH]; [done|].
  cbn [flat_map]. rewrite printed_app, IH. by destruct cw.
Qed.

Lemma sink_events_train_events (cw : bool) (losses : list float) :
  sink_events (flat_map (train_events cw) losses) =
  if cw then (fun x => Wandb (LogScalar "train_loss" x)) <$> losses else [].
Proof.
  induction losses as [|x l IH]; [by destruct cw|].
  cbn [flat_map]. rewrite sink_events_app, IH. by destruct cw.
Qed.

Lemma sink_events_valid_events (cw : bool) (losses : list float) :
  sink_events (flat_map (valid_events cw) losses) =
  if cw then (fun x => Wandb (LogScalar "valid_loss" x)) <$> losses else [].
Proof.
  induction losses as [|x l IH]; [by destruct cw|].
  cbn [flat_map]. rewrite sink_events_app, IH. by destruct cw.
Qed.

(** X16: an epoch that completes (silent sink, positive batch counts)
    prints five lines: the banner with [epoch + 1] and [epochs[1]], the label
    TRAIN, the mean of the training losses the epoch appended, the label
    VALID, and the mean of the validation losses the epoch appended. *)
Theorem epoch_console_output (epochs : Z * Z) (path : string) (epoch : Z)
    (m : Mem) :
  sink_silent m ->
  0 < ld_len (trainloader (self m)) ->
  0 < ld_len (validloader (self m)) ->
  exists m' tlosses vlosses,
    run_epoch epochs path epoch m = (Returned tt, m') /\
    train_loss (self m') = train_loss (self m) ++ tlosses /\
    length tlosses = ld_len (trainloader (self m)) /\
    valid_loss (self m') = valid_loss (self m) ++ vlosses /\
    length vlosses = ld_len (validloader (self m)) /\
    printed (trace (world m')) =
      printed (trace (world m)) ++
      [Banner (epoch + 1) (snd epochs); Label "TRAIN";
       TrainLossLine (mean tlosses); Label "VALID";
       ValidLossLine (mean vlosses)].
Proof.
  intros Hs Hnt Hnv.
  destruct (run_epoch_spec epochs path epoch m Hs Hnt Hnv)
    as (m' & Hrun & Htr & Htl & Hvl & _).
  eexists m', _, _. split_and!; [exact Hrun|exact Htl| |exact Hvl| |].
  - by rewrite train_losses_length, batches_length.
  - unfold valid_losses. by rewrite length_fmap, batches_length.
  - rewrite Htr. unfold epoch_trace.
    rewrite !printed_app, printed_train_events, printed_valid_events.
    f_equal. cbn.
    by destruct (leb _ _), (could_wandb (self m)).
Qed.

(** X17: an epoch that completes with the sink enabled (and silent) sends
    it, in this order, each training loss the epoch appended, each validation
    loss it appended, the sample image it appended, and the value of
    [best_loss] at the end of the epoch; with the sink disabled it sends
    nothing. *)
Theorem epoch_sink_emissions (epochs : Z * Z) (path : string) (epoch : Z)
    (m : Mem) :
  sink_silent m ->
  0 < ld_len (trainloader (self m)) ->
  0 < ld_len (validloader (self m)) ->
  exists m' tlosses vlosses img,
    run_epoch epochs path epoch m = (Returned tt, m') /\
    train_loss (self m') = train_loss (self m) ++ tlosses /\
    valid_loss (self m') = valid_loss (self m) ++ vlosses /\
    test_images (self m') = test_images (self m) ++ [img] /\
    sink_events (trace (world m')) =
      sink_events (trace (world m)) ++
      if could_wandb (self m) then
        ((fun x => Wandb (LogScalar "train_loss" x)) <$> tlosses) ++
        ((fun x => Wandb (LogScalar "valid_loss" x)) <$> vlosses) ++
        [Wandb (LogImage "pred_image" img);
         Wandb (ConfigUpdate "best_loss" (best_loss (self m')))]
      else [].
Proof.
  intros Hs Hnt Hnv.
  destruct (run_epoch_spec epochs path epoch m Hs Hnt Hnv)
    as (m' & Hrun & Htr & Htl & Hvl & Himg & _ & _ & Hbest & _).
  eexists m', _, _, _. split_and!; [exact Hrun|exact Htl|exact Hvl|exact Himg|].
  rewrite Htr, Hbest. unfold epoch_trace.
  rewrite !sink_events_app, sink_events_train_events,
    sink_events_valid_events.
  f_equal. destruct (could_wandb (self m)), (leb _ _); cbn;
    by rewrite ?app_nil_r.
Qed.

(** X18: in an epoch that completes, validation and the sample image use
    the parameters the training pass of the same epoch left: the validation
    losses appended are the penalized errors of these parameters on the next
    batches of the validation loader, the image appended is the rendering of
    the generator's output, in evaluation mode, on the fixed test batch with
    these parameters, and the checkpoint stores these parameters together with
    the histories extended by this epoch; the generator is left in evaluation
    mode. *)
Theorem epoch_evaluates_the_trained_parameters (epochs : Z * Z)
    (path : string) (epoch : Z) (m : Mem) :
  sink_silent m ->
  0 < ld_len (trainloader (self m)) ->
  0 < ld_len (validloader (self m)) ->
  let t := self m in
  let trained :=
    snd (train_result (mse_penalty t) (gen_optim t)
           (heap (world m) (storage (generator t)))
           (batches (trainloader t) (ld_len (trainloader t)))) in
  exists m' d,
    run_epoch epochs path epoch m = (Returned tt, m') /\
    heap (world m') (storage (generator (self m'))) = trained /\
    valid_loss (self m') =
      valid_loss t ++
      valid_losses (mse_penalty t) trained
        (batches (validloader t) (ld_len (validloader t))) /\
    test_images (self m') =
      test_images t ++
      [to_grid_image
         (forward false trained (test_content_letters t)
            (test_style_labels t))] /\
    training (generator (self m')) = false /\
    fs (world m') !! path = Some d /\
    td_generator_params d = Some trained /\
    td_test_images d = Some (test_images (self m')) /\
    td_valid_loss d = Some (valid_loss (self m')).
Proof.
  intros Hs Hnt Hnv. cbn zeta.
  destruct (run_epoch_spec epochs path epoch m Hs Hnt Hnv)
    as (m' & Hrun & _ & _ & Hvl & Himg & _ & Hheap & _ & Hmode & Hfs & _).
  exists m', (snapshot (self m') (world m')).
  split_and!; try done.
  - rewrite Hfs. apply lookup_insert_eq.
  - cbn. by rewrite Hheap.
Qed.

Lemma core_events_policy (accepted : bool) (id : nat) :
  core_events (if accepted then [TakeStateDict id] else []) =
  if accepted then [TakeStateDict id] else [].
Proof. by destruct accepted. Qed.

Lemma no_dump_policy (accepted : bool) (id : nat) :
  List.filter is_dump (if accepted then [TakeStateDict id] else []) = [].
Proof. by destruct accepted. Qed.

(** The steps of an epoch's events. *)
Lemma epoch_trace_steps (path : string) (e l : Z) (cw : bool)
    (tlosses vlosses : list float) (policy : list event) (id : nat)
    (img : image) (best : float) :
  core_events policy = policy ->
  core_events (epoch_trace path e l cw tlosses vlosses policy id img best) =
  epoch_steps path (length tlosses) (length vlosses) policy id.
Proof.
  intros Hpol. unfold epoch_trace, epoch_steps.
  rewrite !core_events_app, core_events_train, core_events_valid, Hpol.
  by destruct cw.
Qed.

(** The checkpoint write is the only write of an epoch. *)
Lemma epoch_trace_dump_once (path : string) (e l : Z) (cw : bool)
    (tlosses vlosses : list float) (policy : list event) (id : nat)
    (img : image) (best : float) :
  List.filter is_dump policy = [] ->
  List.filter is_dump
    (epoch_trace path e l cw tlosses vlosses policy id img best) =
  [PickleDump path].
Proof.
  intros Hpol. unfold epoch_trace.
  rewrite !List.filter_app, no_dump_train_events, no_dump_valid_events, Hpol.
  by destruct cw.
Qed.

(** The checkpoint write is the last step of an epoch. *)
Lemma epoch_steps_last (path : string) (nt nv : nat) (policy : list event)
    (id : nat) :
  last (epoch_steps path nt nv policy id) = Some (PickleDump path).
Proof. unfold epoch_steps. by rewrite !last_app. Qed.

(** With a silent sink and positive batch counts an epoch completes, as the
    specification orders it. *)
Lemma run_epoch_completed (epochs : Z * Z) (path : string) (epoch : Z)
    (m : Mem) :
  sink_silent m ->
  0 < ld_len (trainloader (self m)) ->
  0 < ld_len (validloader (self m)) ->
  exists m',
    run_epoch epochs path epoch m = (Returned tt, m') /\
    completed_epoch epochs path epoch m m'.
Proof.
  intros Hs Hnt Hnv.
  destruct (run_epoch_spec epochs path epoch m Hs Hnt Hnv)
    as (m' & Hrun & Htr & Htl & Hvl & Himg & Hopt & Hheap & Hbest & _ & Hfs
        & Hbp).
  pose proof (run_frame_run_epoch epochs path epoch m) as Hf.
  rewrite Hrun in Hf. cbn [snd] in Hf.
  exists m'. split; [exact Hrun|]. unfold completed_epoch. cbn zeta.
  split; [by split_and!|]. split; [by split_and!|]. split; [exact Himg|].
  split.
  - rewrite Hfs. unfold snapshot.
    by rewrite Hheap, Hbest, Hbp, (rf_test_content _ _ Hf),
      (rf_test_letters _ _ Hf), (rf_test_labels _ _ Hf), Himg, Htl, Hvl.
  - split; [exact Htr|].
    assert (forall x, length (valid_losses (mse_penalty (self m)) x
                        (batches (validloader (self m))
                           (ld_len (validloader (self m))))) =
                      ld_len (validloader (self m))) as Hlv.
    { intros x. unfold valid_losses. by rewrite length_fmap, batches_length. }
    split_and!.
    + rewrite epoch_trace_steps by apply core_events_policy.
      by rewrite train_losses_length, batches_length, Hlv.
    + apply epoch_trace_dump_once, no_dump_policy.
    + rewrite epoch_trace_steps by apply core_events_policy.
      apply epoch_steps_last.
Qed.

(** C8: with a silent sink and positive batch counts, a run returns after
    executing, for every epoch index of its range in turn, exactly this:
    the training pass over all training batches; then the validation pass
    over all validation batches on the trained parameters, and the best-model
    policy on their mean (when the mean is at most [best_loss], it becomes
    [best_loss] and a state dict taken now becomes [best_params]; otherwise
    both stay); then the rendering of the fixed sample, appended to
    [test_images]; then the checkpoint: the state dict of the generator is
    taken and the nine fields of the state the epoch leaves replace the file
    at the path, whatever it held.  The events of the epoch are exactly those
    listed by [epoch_trace]; the checkpoint write occurs once in the epoch and
    is its last step, followed only, when the sink is enabled, by the
    emission of [best_loss] to the sink. *)
Theorem run_executes_epoch_sequence (epochs : Z * Z) (path : string)
    (m : Mem) :
  sink_silent m ->
  0 < ld_len (trainloader (self m)) ->
  0 < ld_len (validloader (self m)) ->
  exists m',
    run epochs path m = (Returned tt, m') /\
    run_steps epochs path (range (fst epochs) (snd epochs)) m m'.
Proof.
  unfold run. generalize (range (fst epochs) (snd epochs)) as l.
  intros l. revert m. induction l as [|epoch l IH]; intros m Hs Hnt Hnv.
  - exists m. split; [done|constructor].
  - destruct (run_epoch_completed epochs path epoch m Hs Hnt Hnv)
      as (m1 & Hrun & Hstep).
    pose proof (run_frame_run_epoch epochs path epoch m) as Hf.
    rewrite Hrun in Hf. cbn [snd] in Hf.
    destruct (IH m1) as (m' & Hrun' & Hsteps).
    + by apply (sink_silent_frame _ _ Hf).
    + by rewrite (rf_train_len _ _ Hf).
    + by rewrite (rf_valid_len _ _ Hf).
    + exists m'. cbn [for_each]. rewrite run_bind, Hrun, Hrun'.
      split; [done|]. by econstructor.
Qed.

End EpochSpec.

(** ** The range of a run, its files, and the script *)

Section RunLevel.

Context `{Torch}.

Lemma banners_app (tr evs : list event) :
  banners (tr ++ evs) = banners tr ++ banners evs.
Proof. apply omap_app. Qed.

Lemma snd_print_bind {A : Type} (R : relation Mem) (l : line)
    (k : unit -> M A) (m : Mem) :
  preserves R (k tt) ->
  R (MkMem (self m) (set_trace (trace (world m) ++ [Print l]) (world m)))
    (snd ((print l ≫= k) m)).
Proof. intros Hk. rewrite run_print. apply Hk. Qed.

(** Whatever its outcome, an epoch prints one banner, first. *)
Lemma run_epoch_banner (epochs : Z * Z) (path : string) (epoch : Z)
    (m : Mem) :
  banners (trace (world (snd (run_epoch epochs path epoch m)))) =
  banners (trace (world m)) ++ [((epoch + 1)%Z, snd epochs)].
Proof.
  unfold run_epoch.
  etrans; [apply (snd_print_bind (same (fun m => banners (trace (world m)))))|].
  - solve_same_with ltac:(first
      [reflexivity
      | unfold same; cbn -[banners];
        rewrite banners_app; cbn; apply app_nil_r]).
  - cbn [self world trace set_trace]. by rewrite banners_app.
Qed.

Lemma for_each_run_epoch_banners (epochs : Z * Z) (path : string)
    (l : list Z) (m : Mem) :
  let r := for_each l (run_epoch epochs path) m in
  exists k,
    k <= length l /\
    banners (trace (world (snd r))) =
      banners (trace (world m)) ++
      ((fun e => ((e + 1)%Z, snd epochs)) <$> take k l) /\
    (fst r = Returned tt -> k = length l).
Proof.
  cbn zeta. revert m. induction l as [|e l IH]; intros m.
  - exists 0. cbn. by rewrite app_nil_r.
  - cbn [for_each]. rewrite run_bind.
    pose proof (run_epoch_banner epochs path e m) as Hb.
    destruct (run_epoch epochs path e m) as [[[]|ex] m1]; cbn [snd] in Hb.
    + destruct (IH m1) as (k & Hk & Hbs & Hret).
      exists (S k). split_and!; [cbn; lia| |].
      * rewrite Hbs, Hb, <- app_assoc. reflexivity.
      * intros Hr. cbn. by rewrite Hret.
    + exists 1. split_and!; [cbn; lia| |done].
      cbn [fst snd]. rewrite Hb. cbn. by rewrite take_0.
Qed.

(** X12: [run] goes through the epochs from [epochs[0]] to [epochs[1] - 1]
    in order.  With an empty range ([epochs[1] <= epochs[0]]) it returns at once and changes
    nothing.  Whatever its outcome, the banners it prints are those of the
    first [k] epochs of the range, each showing [epoch + 1] over [epochs[1]],
    where [k] is the number of epochs started; [k] is the length of the range
    when the run returns. *)
Theorem run_covers_its_epoch_range (epochs : Z * Z) (path : string)
    (m : Mem) :
  ((snd epochs <= fst epochs)%Z -> run epochs path m = (Returned tt, m)) /\
  exists k,
    k <= epoch_count epochs /\
    banners (trace (world (snd (run epochs path m)))) =
      banners (trace (world m)) ++
      ((fun e => ((e + 1)%Z, snd epochs)) <$>
         take k (range (fst epochs) (snd epochs))) /\
    (fst (run epochs path m) = Returned tt -> k = epoch_count epochs).
Proof.
  split.
  - intros Hle. unfold run. by rewrite range_empty.
  - unfold run, epoch_count.
    rewrite <- (range_length (fst epochs) (snd epochs)).
    apply for_each_run_epoch_banners.
Qed.

(** X13: whatever its outcome, [run] changes no file other than the one at
    [trainer_path], and [load_trainer] changes no file at all. *)
Theorem run_writes_only_the_checkpoint_file (m : Mem) :
  (forall epochs path p,
     p <> path ->
     fs (world (snd (run epochs path m))) !! p = fs (world m) !! p) /\
  (forall path wandb_log,
     fs (world (snd (load_trainer path wandb_log m))) = fs (world m)).
Proof.
  split.
  - intros epochs path p Hp. by apply (run_same_other_files epochs path p Hp m).
  - intros path wandb_log. apply (load_trainer_same_fs path wandb_log m).
Qed.

(** X19: the script started without [--mse_penalty] (the penalty is then
    the default 5), given loaders with positive batch counts, completes one
    epoch, the one of index 0: it records one training loss per training
    batch, one validation loss per validation batch and one sample image,
    prints the banner [1/1], leaves at [./trainer.pickle] a checkpoint whose
    nine fields are those of its final state, changes no other file, and
    never calls the MetricSink. *)
Theorem main_runs_one_epoch (gen : module) (tl vl : loader) (lr : float)
    (w : World) :
  0 < ld_len tl ->
  0 < ld_len vl ->
  exists m',
    main gen tl vl lr w = (Returned tt, m') /\
    mse_penalty (self m') = of_Z 5 /\
    length (train_loss (self m')) = ld_len tl /\
    length (valid_loss (self m')) = ld_len vl /\
    length (test_images (self m')) = 1 /\
    fs (world m') !! "./trainer.pickle"%string =
      Some (TrainerData
              (Some (heap (world m') (storage (generator (self m')))))
              (Some (best_loss (self m')))
              (Some ((fun sd => heap (world m') (sd_storage sd)) <$>
                       best_params (self m')))
              (Some (test_content_letters (self m')))
              (Some (test_style_letters (self m')))
              (Some (test_style_labels (self m')))
              (Some (test_images (self m')))
              (Some (train_loss (self m')))
              (Some (valid_loss (self m')))) /\
    (forall p, p <> "./trainer.pickle"%string ->
               fs (world m') !! p = fs w !! p) /\
    wandb_calls (world m') = wandb_calls w /\
    sink_events (trace (world m')) = sink_events (trace w) /\
    banners (trace (world m')) = banners (trace w) ++ [(1, 1)%Z].
Proof.
  intros Hnt Hnv. unfold main. cbn zeta.
  set (m0 := init gen tl vl default_mse_penalty lr false w).
  assert (sink_silent m0) as Hs by (intros Hcw; discriminate Hcw).
  destruct (run_returns (0, 1)%Z "./trainer.pickle" m0 Hs Hnt Hnv)
    as (m' & Hrun & [(tls & Htl & Hlt) (vls & Hvl & Hlv) (imgs & Hi & Hli)
                       Hfs]).
  destruct Hfs as [(Hz & _)|(_ & Hfs)]; [done|].
  pose proof (run_same_other_files (0, 1)%Z "./trainer.pickle") as Hother.
  pose proof (run_frame_run (0, 1)%Z "./trainer.pickle" m0) as Hf.
  assert (sink_untouched (wandb_calls w) (sink_events (trace w)) m0) as Hu.
  { split_and!; [done|done|]. subst m0. cbn -[sink_events].
    by rewrite sink_events_snoc. }
  pose proof (sink_untouched_run _ _ (0, 1)%Z "./trainer.pickle" m0 Hu)
    as (_ & Hcalls & Hevs).
  destruct (for_each_run_epoch_banners (0, 1)%Z "./trainer.pickle"
              (range 0 1) m0) as (k & _ & Hb & Hk).
  change (for_each (range 0 1) (run_epoch (0, 1)%Z "./trainer.pickle") m0)
    with (run (0, 1)%Z "./trainer.pickle" m0) in Hb, Hk.
  rewrite Hrun in Hcalls, Hevs, Hb, Hk, Hf. cbn [fst snd] in *.
  exists m'. split_and!; try done.
  - apply (rf_mse_penalty _ _ Hf).
  - rewrite Htl, length_app, Hlt. change (epoch_count (0, 1)%Z) with 1.
    cbn. lia.
  - rewrite Hvl, length_app, Hlv. change (epoch_count (0, 1)%Z) with 1.
    cbn. lia.
  - by rewrite Hi, length_app, Hli.
  - rewrite Hfs. apply lookup_insert_eq.
  - intros p Hp. specialize (Hother p Hp m0). rewrite Hrun in Hother.
    exact Hother.
  - rewrite Hb, (Hk eq_refl). subst m0. cbn -[banners].
    rewrite banners_app. cbn. by rewrite app_nil_r.
Qed.

End RunLevel.

(** * Runs of the concrete trainer *)

Module Scenarios.

Import Toy.

#[local] Existing Instance toy_torch.

Lemma sink_silent_never (valid_errors : nat -> float) (cw : bool) :
  sink_silent (toy_mem valid_errors cw never).
Proof. intros _ k _. reflexivity. Qed.

Lemma sink_silent_disabled (m : Mem) :
  could_wandb (self m) = false -> sink_silent m.
Proof. intros Hcw Hcw'. congruence. Qed.

(** The arithmetic of the scenario, whatever the model: the penalty 5 times
    the [float32] errors 0.1, 0.2, 0.1, 0.0 is 0.5, 1.0, 0.5, 0.0 exactly, and
    the mean of these is 0.5. *)
Lemma scenario_arithmetic :
  (fun x => item (mul32 (to_float32 (of_Z 5)) (to_float32 x))) <$>
    [ratio 1 10; ratio 2 10; ratio 1 10; zero] =
    [ratio 1 2; of_Z 1; ratio 1 2; zero] /\
  fold_left add [ratio 1 2; of_Z 1; ratio 1 2; zero] zero = of_Z 2 /\
  div (of_Z 2) (of_nat 4) = ratio 1 2.
Proof. vm_compute. repeat split. Qed.

(** The scenario of the specification: batch count 4, penalty 5, raw errors
    0.1, 0.2, 0.1, 0.0 give the recorded losses 0.5, 1.0, 0.5, 0.0 and the
    epoch mean 0.5. *)
Lemma train_scenario :
  exists m',
    train (toy_mem steady false never) = (Returned (ratio 1 2), m') /\
    train_loss (self m') = [ratio 1 2; of_Z 1; ratio 1 2; zero].
Proof.
  destruct (train_epoch_records_penalized_mse (toy_mem steady false never))
    as (m' & evs & Hrun & Hloss & _).
  - apply sink_silent_never.
  - vm_compute. lia.
  - exists m'. split; [exact Hrun|exact Hloss].
Defined.



(** A sink whose second call fails: the epoch is aborted with one loss
    recorded. *)
Lemma second_emission_fails :
  let m := toy_mem steady true (fun k => Nat.eqb k 1) in
  fst (train m) = Raised WandbError /\
  length (train_loss (self (snd (train m)))) = 1.
Proof.
  cbn zeta. set (m := toy_mem steady true (fun k => Nat.eqb k 1)).
  destruct (sink_failure_propagates m 1) as [Htrain _].
  - reflexivity.
  - intros j Hj. destruct j; [reflexivity|lia].
  - reflexivity.
  - destruct Htrain as (Hraise & losses & Hloss & Hlen).
    + vm_compute. lia.
    + split; [exact Hraise|]. rewrite Hloss. exact Hlen.
Defined.

(** A sink that fails is not shielded: the first training step and the first
    validation step raise, and their losses are not appended. *)
Lemma sink_failure_not_caught :
  let m := toy_mem steady true (fun _ => true) in
  could_wandb (self m) = true /\
  fst (train m) = Raised WandbError /\
  train_loss (self (snd (train m))) = [] /\
  fst (valid m) = Raised WandbError /\
  valid_loss (self (snd (valid m))) = [].
Proof. vm_compute. repeat split. Qed.

(** A validation mean above the sentinel: [best_loss] stays [1e5], which is
    not the minimum of the means observed. *)
Lemma best_loss_not_min_of_means :
  let r := run (0, 1)%Z path (toy_mem huge false never) in
  fst r = Returned tt /\
  reported_means (trace (world (snd r))) = [of_Z 150000] /\
  best_loss (self (snd r)) = of_Z 100000 /\
  best_loss (self (snd r)) <> of_Z 150000.
Proof. vm_compute. repeat split. discriminate. Qed.

(** After that completed validation epoch [best_params] is still [None]. *)
Lemma best_params_none_after_validation :
  let r := run (0, 1)%Z path (toy_mem huge false never) in
  fst r = Returned tt /\
  reported_means (trace (world (snd r))) = [of_Z 150000] /\
  best_params (self (snd r)) = None.
Proof. vm_compute. repeat split. Qed.

(** [best_params] shares the storage of the live generator: the second
    epoch, whose mean 1.0 is worse than the 0.5 of the first, changes the
    parameters [best_params] holds from 4 to 8, and the checkpoint stores the
    same values for both. *)
Lemma best_params_follows_live_model :
  let m1 := snd (run (0, 1)%Z path (toy_mem worsening false never)) in
  let m2 := snd (run (1, 2)%Z path m1) in
  reported_means (trace (world m2)) = [ratio 1 2; of_Z 1] /\
  best_loss (self m2) = ratio 1 2 /\
  (fun sd => heap (world m1) (sd_storage sd)) <$> best_params (self m1) =
    Some 4%Z /\
  (fun sd => heap (world m2) (sd_storage sd)) <$> best_params (self m2) =
    Some 8%Z /\
  (td_best_params <$> fs (world m2) !! path) = Some (Some (Some 8%Z)) /\
  (td_generator_params <$> fs (world m2) !! path) = Some (Some 8%Z).
Proof. vm_compute. repeat split. Qed.

(** No batches: both epochs fail at the division. *)
Lemma zero_batch_count :
  let m := init toy_generator (toy_loader 0 steady) (toy_loader 0 steady)
             (of_Z 5) (ratio 2 1000) false (toy_world never) in
  ld_len (trainloader (self m)) = 0 /\
  fst (train m) = Raised ZeroDivisionError /\
  fst (valid m) = Raised ZeroDivisionError.
Proof.
  cbn zeta. split; [reflexivity|].
  apply zero_batch_count_raises; reflexivity.
Defined.

Lemma load_truncated :
  let m := MkMem (self (toy_mem steady false never))
             (set_fs {[ path := truncated ]} (toy_world never)) in
  has_key truncated "valid_loss" = false /\
  exists key,
    In key required_fields /\ has_key truncated key = false /\
    fst (load_trainer path true m) = Raised (KeyError key).
Proof.
  cbn zeta. split; [reflexivity|].
  apply load_trainer_missing_field.
  - reflexivity.
  - exists "valid_loss"%string. split; [|reflexivity].
    cbn. repeat first [left; reflexivity | right].
Defined.

(** Three epochs from empty histories: 12 training and 6 validation
    losses. *)
Lemma three_epochs :
  let m := toy_mem steady true never in
  exists m',
    run (0, 3)%Z path m = (Returned tt, m') /\
    length (train_loss (self m')) = 12 /\
    length (valid_loss (self m')) = 6.
Proof.
  cbn zeta.
  destruct (histories_grow_until_loaded (0, 3)%Z path
              (toy_mem steady true never))
    as [(m' & Hrun & Ht & Hv) _].
  - reflexivity.
  - reflexivity.
  - apply sink_silent_never.
  - vm_compute. lia.
  - vm_compute. lia.
  - exists m'. split; [exact Hrun|]. split; [exact Ht|exact Hv].
Defined.

(** Two epochs with the sink enabled: the run returns, and its two epochs
    are the epochs 0 and 1 as the specification orders them. *)
Lemma two_epochs :
  let m := toy_mem steady true never in
  exists m',
    run (0, 2)%Z path m = (Returned tt, m') /\
    run_steps (0, 2)%Z path [0; 1]%Z m m'.
Proof.
  cbn zeta.
  apply (run_executes_epoch_sequence (0, 2)%Z path
           (toy_mem steady true never)).
  - apply sink_silent_never.
  - vm_compute. lia.
  - vm_compute. lia.
Defined.

Lemma save_then_load :
  exists m1,
    run (0, 1)%Z path (toy_mem steady false never) = (Returned tt, m1) /\
    let m2 := snd (load_trainer path true (fresh_process m1)) in
    train_loss (self m2) = train_loss (self m1) /\
    valid_loss (self m2) = valid_loss (self m1) /\
    best_loss (self m2) = best_loss (self m1) /\
    test_images (self m2) = test_images (self m1) /\
    train_loss (self m1) `prefix_of` train_loss (self (snd (train m2))).
Proof.
  destruct (checkpoint_round_trip (0, 1)%Z path (toy_mem steady false never))
    as (m1 & Hrun & Hload).
  - apply sink_silent_never.
  - vm_compute. lia.
  - vm_compute. lia.
  - vm_compute. lia.
  - exists m1. split; [exact Hrun|]. cbn zeta.
    destruct (Hload (fresh_process m1) true eq_refl)
      as (Ht & Hv & Hb & Hi & _ & _ & _ & _ & _ & Hpre & _).
    split; [exact Ht|]. split; [exact Hv|]. split; [exact Hb|].
    split; [exact Hi|exact Hpre].
Defined.

(** ** Frames, failures and resumption on the concrete trainer *)

Import Resumed.

Lemma sink_silent_never_raises (m : Mem) :
  wandb_raises (world m) = never -> sink_silent m.
Proof. intros Hr _ k _. by rewrite Hr. Qed.

(** Four batches: four optimizer steps, the parameter goes from 0 to 4. *)
Lemma four_updates :
  exists a m',
    train (toy_mem steady false never) = (Returned a, m') /\
    gen_optim (self m') = 4 /\
    heap (world m') (storage (generator (self m'))) = 4%Z /\
    ld_calls (trainloader (self m')) = 4.
Proof.
  destruct (train_epoch_applies_one_update_per_batch
              (toy_mem steady false never))
    as (a & m' & Hrun & Hopt & Hheap & Hld & _).
  - apply sink_silent_never.
  - vm_compute. lia.
  - exists a, m'. split; [exact Hrun|]. split; [exact Hopt|].
    split; [exact Hheap|exact Hld].
Defined.

(** The sink fails at its second call: one loss recorded, two optimizer
    steps taken. *)
Lemma second_emission_fails_after_two_steps :
  exists m',
    train (toy_mem steady true (fun k => Nat.eqb k 1)) =
      (Raised WandbError, m') /\
    train_loss (self m') = [ratio 1 2] /\
    gen_optim (self m') = 2 /\
    heap (world m') (storage (generator (self m'))) = 2%Z.
Proof.
  destruct (sink_failure_leaves_the_step_applied
              (toy_mem steady true (fun k => Nat.eqb k 1)) 1)
    as (m' & Hrun & Hloss & Hopt & Hheap).
  - reflexivity.
  - intros j Hj. destruct j; [reflexivity|lia].
  - reflexivity.
  - vm_compute. lia.
  - exists m'. split; [exact Hrun|]. split; [exact Hloss|].
    split; [exact Hopt|exact Hheap].
Defined.

(** The best loss of a fresh trainer after one epoch is a number. *)
Lemma best_loss_of_fresh_run_is_a_number :
  is_nan (best_loss (self (snd (run (0, 1)%Z path
                                  (toy_mem steady false never))))) = false.
Proof.
  destruct (best_loss_is_never_nan (toy_mem steady false never) eq_refl)
    as (_ & _ & _ & Hrun & _).
  exact (Hrun (0, 1)%Z path).
Defined.

(** Two epochs of a fresh trainer, the second worse than the first: the
    checkpoint stores the same values as best and as current parameters. *)
Lemma checkpoint_of_worsening_run :
  exists m' d,
    run (0, 2)%Z path (toy_mem worsening false never) = (Returned tt, m') /\
    fs (world m') !! path = Some d /\
    (td_best_params d = Some None \/
     td_best_params d = Some (td_generator_params d)).
Proof.
  destruct (checkpoint_best_params_are_generator_params (0, 2)%Z path
              (toy_mem worsening false never))
    as (m' & d & Hrun & Hfile & _ & Hbp & _).
  - intros sd Hsd. discriminate Hsd.
  - apply sink_silent_never.
  - vm_compute. lia.
  - vm_compute. lia.
  - vm_compute. lia.
  - exists m', d. split; [exact Hrun|]. split; [exact Hfile|exact Hbp].
Defined.

(** A checkpoint without [train_loss]: the attributes read before it are
    overwritten, [valid_loss], whose key is present, is not. *)
Lemma load_stops_at_train_loss :
  let m := resuming checkpoint_without_train_loss false in
  let m' := snd (load_trainer path true m) in
  best_loss (self m') = ratio 1 2 /\
  test_images (self m') = [zero] /\
  train_loss (self m') = [] /\
  valid_loss (self m') = [].
Proof.
  cbn zeta.
  destruct (load_trainer_assigns_until_first_missing_key path true
              (resuming checkpoint_without_train_loss false)) as [_ Hd].
  destruct (Hd checkpoint_without_train_loss eq_refl)
    as (Hbl & _ & _ & _ & _ & Hti & Htl & Hvl).
  split; [exact Hbl|]. split; [exact Hti|]. split; [exact Htl|exact Hvl].
Defined.

(** Loading the complete checkpoint: the generator holds the saved
    parameter 3, the optimizer is the fresh one. *)
Lemma load_keeps_fresh_optimizer :
  let m := resuming complete_checkpoint false in
  let m' := snd (load_trainer path true m) in
  gen_optim (self m') = 0 /\
  heap (world m') (storage (generator (self m'))) = 3%Z.
Proof.
  cbn zeta.
  destruct (load_trainer_restores_parameters_not_optimizer path true
              (resuming complete_checkpoint false))
    as (Hopt & _ & _ & _ & _ & _ & _ & Hgp).
  split; [exact Hopt|].
  apply (Hgp complete_checkpoint); [reflexivity|reflexivity|].
  vm_compute. lia.
Defined.

(** Loading the complete checkpoint with the sink enabled: five
    emissions. *)
Lemma replay_of_complete_checkpoint :
  let m' := snd (load_trainer path true (resuming complete_checkpoint true)) in
  trace (world m') =
    [ValidGet; PickleLoad path; LoadStateDict;
     Wandb (ConfigUpdate "best_loss" (ratio 1 2));
     Wandb (LogScalar "train_loss" (ratio 1 2));
     Wandb (LogScalar "train_loss" (of_Z 1));
     Wandb (LogScalar "valid_loss" (ratio 1 2));
     Wandb (LogImage "pred_image" zero)] /\
  wandb_calls (world m') = 5.
Proof.
  cbn zeta.
  apply (load_trainer_replays_history path true
           (resuming complete_checkpoint true)
           3%Z (ratio 1 2) (Some 2%Z) zero zero zero [zero]
           [ratio 1 2; of_Z 1] [ratio 1 2]).
  - reflexivity.
  - apply sink_silent_never_raises. reflexivity.
Defined.

(** [load_trainer] replaces the histories: a training epoch records four
    losses, and loading the complete checkpoint, which holds two, leaves the
    two. *)
Lemma load_replaces_histories :
  let m1 := snd (train (resuming complete_checkpoint false)) in
  let m2 := snd (load_trainer path false m1) in
  train_loss (self m1) = [ratio 1 2; of_Z 1; ratio 1 2; zero] /\
  fst (load_trainer path false m1) = Returned tt /\
  train_loss (self m2) = [ratio 1 2; of_Z 1] /\
  ~ train_loss (self m1) `prefix_of` train_loss (self m2).
Proof.
  cbn zeta. split; [vm_compute; reflexivity|].
  split; [vm_compute; reflexivity|]. split; [vm_compute; reflexivity|].
  intros Hp. apply prefix_length in Hp. vm_compute in Hp. lia.
Qed.

(** After the load, [best_params] holds 2 and the generator 3; a training
    epoch leaves the 2. *)
Lemma resumed_best_params_after_training :
  let m1 := snd (load_trainer path false
                   (resuming complete_checkpoint false)) in
  exists sd,
    best_params (self m1) = Some sd /\
    heap (world m1) (sd_storage sd) = 2%Z /\
    heap (world m1) (storage (generator (self m1))) = 3%Z /\
    heap (world (snd (train m1))) (sd_storage sd) = 2%Z.
Proof.
  cbn zeta.
  destruct (loaded_best_params_survive_training path false
              (resuming complete_checkpoint false)
              3%Z (ratio 1 2) 2%Z zero zero zero [zero]
              [ratio 1 2; of_Z 1] [ratio 1 2])
    as (sd & Hbp & _ & Hheld & Hgen & _ & Hafter).
  - reflexivity.
  - vm_compute. lia.
  - exists sd. split; [exact Hbp|]. split; [exact Hheld|].
    split; [exact Hgen|exact Hafter].
Defined.

(** What the trainer would save right after loading the complete
    checkpoint is that checkpoint. *)
Lemma save_after_load_is_identity :
  let m' := snd (load_trainer path true
                   (resuming complete_checkpoint true)) in
  snapshot (self m') (world m') = complete_checkpoint.
Proof.
  cbn zeta.
  apply (snapshot_after_load_is_the_record path true
           (resuming complete_checkpoint true)
           3%Z (ratio 1 2) (Some 2%Z) zero zero zero [zero]
           [ratio 1 2; of_Z 1] [ratio 1 2]).
  - reflexivity.
  - vm_compute. lia.
Defined.

(** A resumed run over the epochs 3 and 4 of 5. *)
Lemma banners_of_resumed_run :
  banners (trace (world (snd (run (3, 5)%Z path
                                (toy_mem steady false never))))) =
  [(4, 5)%Z; (5, 5)%Z].
Proof.
  destruct (run_covers_its_epoch_range (3, 5)%Z path
              (toy_mem steady false never)) as [_ (k & _ & Hb & Hk)].
  assert (fst (run (3, 5)%Z path (toy_mem steady false never)) = Returned tt)
    as Hret by (vm_compute; reflexivity).
  rewrite (Hk Hret) in Hb. exact Hb.
Defined.

(** One epoch leaves a file at another path alone. *)
Lemma other_file_survives :
  let m := resuming complete_checkpoint false in
  fs (world (snd (run (0, 1)%Z "other.pickle" m))) !! path =
  Some complete_checkpoint.
Proof.
  cbn zeta.
  destruct (run_writes_only_the_checkpoint_file
              (resuming complete_checkpoint false)) as [Hrun _].
  rewrite (Hrun (0, 1)%Z "other.pickle"%string path); [reflexivity|].
  discriminate.
Defined.

(** Two epochs with the sink disabled: no call, no emission. *)
Lemma disabled_sink_two_epochs :
  let m' := snd (run (0, 2)%Z path (toy_mem steady false never)) in
  wandb_calls (world m') = 0 /\ sink_events (trace (world m')) = [].
Proof.
  cbn zeta.
  destruct (disabled_sink_is_never_called (toy_mem steady false never) eq_refl)
    as (_ & _ & Hrun & _).
  destruct (Hrun (0, 2)%Z path) as [Hc He].
  split; [exact Hc|exact He].
Defined.

(** No validation batches: the four training steps are done, then the epoch
    fails and leaves no checkpoint. *)
Lemma run_without_validation_batches :
  exists m',
    run (0, 1)%Z path no_validation = (Raised ZeroDivisionError, m') /\
    fs (world m') = ∅ /\
    length (train_loss (self m')) = 4 /\
    heap (world m') (storage (generator (self m'))) = 4%Z.
Proof.
  destruct (run_with_empty_loader_writes_no_checkpoint (0, 1)%Z path
              no_validation) as [_ Hvalid].
  - vm_compute. lia.
  - destruct Hvalid as (m' & losses & Hrun & Hfs & Htl & Hlen & Hheap & _).
    + apply sink_silent_never_raises. reflexivity.
    + vm_compute. lia.
    + reflexivity.
    + exists m'. split; [exact Hrun|]. split; [exact Hfs|].
      split; [|exact Hheap]. rewrite Htl. exact Hlen.
Defined.

(** The five lines of the first epoch. *)
Lemma first_epoch_console :
  exists m' tlosses vlosses,
    run_epoch (0, 1)%Z path 0 (toy_mem steady false never) =
      (Returned tt, m') /\
    length tlosses = 4 /\ length vlosses = 2 /\
    printed (trace (world m')) =
      [Banner 1 1; Label "TRAIN"; TrainLossLine (mean tlosses);
       Label "VALID"; ValidLossLine (mean vlosses)].
Proof.
  destruct (epoch_console_output (0, 1)%Z path 0
              (toy_mem steady false never))
    as (m' & tl & vl & Hrun & _ & Htl & _ & Hvl & Hp).
  - apply sink_silent_never.
  - vm_compute. lia.
  - vm_compute. lia.
  - exists m', tl, vl. split; [exact Hrun|]. split; [exact Htl|].
    split; [exact Hvl|exact Hp].
Defined.

(** What the sink receives in the first epoch. *)
Lemma first_epoch_emissions :
  exists m' tlosses vlosses img,
    run_epoch (0, 1)%Z path 0 (toy_mem steady true never) =
      (Returned tt, m') /\
    sink_events (trace (world m')) =
      ((fun x => Wandb (LogScalar "train_loss" x)) <$> tlosses) ++
      ((fun x => Wandb (LogScalar "valid_loss" x)) <$> vlosses) ++
      [Wandb (LogImage "pred_image" img);
       Wandb (ConfigUpdate "best_loss" (best_loss (self m')))].
Proof.
  destruct (epoch_sink_emissions (0, 1)%Z path 0 (toy_mem steady true never))
    as (m' & tl & vl & img & Hrun & _ & _ & _ & He).
  - apply sink_silent_never.
  - vm_compute. lia.
  - vm_compute. lia.
  - exists m', tl, vl, img. split; [exact Hrun|exact He].
Defined.

(** The first epoch trains the parameter to 4, renders it, and stores it. *)
Lemma first_epoch_evaluates_parameter_4 :
  exists m' d,
    run_epoch (0, 1)%Z path 0 (toy_mem steady false never) =
      (Returned tt, m') /\
    heap (world m') (storage (generator (self m'))) = 4%Z /\
    test_images (self m') = [of_Z 4] /\
    fs (world m') !! path = Some d /\
    td_generator_params d = Some 4%Z.
Proof.
  destruct (epoch_evaluates_the_trained_parameters (0, 1)%Z path 0
              (toy_mem steady false never))
    as (m' & d & Hrun & Hheap & _ & Himg & _ & Hfile & Hgp & _).
  - apply sink_silent_never.
  - vm_compute. lia.
  - vm_compute. lia.
  - exists m', d. split; [exact Hrun|]. split; [exact Hheap|].
    split; [exact Himg|]. split; [exact Hfile|exact Hgp].
Defined.

(** The script on the concrete trainer, with the default options. *)
Lemma script_run :
  exists m',
    main toy_generator (toy_loader 4 scenario_errors) (toy_loader 2 steady)
      (ratio 8 10000) (toy_world never) = (Returned tt, m') /\
    length (train_loss (self m')) = 4 /\
    length (valid_loss (self m')) = 2 /\
    length (test_images (self m')) = 1 /\
    wandb_calls (world m') = 0.
Proof.
  destruct (main_runs_one_epoch toy_generator (toy_loader 4 scenario_errors)
              (toy_loader 2 steady) (ratio 8 10000) (toy_world never))
    as (m' & Hrun & _ & Htl & Hvl & Hi & _ & _ & Hc & _).
  - vm_compute. lia.
  - vm_compute. lia.
  - exists m'. split; [exact Hrun|]. split; [exact Htl|].
    split; [exact Hvl|]. split; [exact Hi|exact Hc].
Defined.

End Scenarios.

